(** * BuildWithData: the C++ task pipeline

    A shallow embedding of the C++ sources of the repository
    (data_structures/Node.h, Stack.h, Queue.h, Queue.cpp,
    models/Task.h, models/UndoAction.h, db/DatabaseConnector.cpp and
    main.cpp) together with the properties of the design document that
    can be stated over them.

    Conventions.
    - A [Node<T>*] is a location [loc] or [nullptr] ([None]); the nodes a
      container owns live in a store [gmap loc (Node T)] that belongs to the
      container.  [new] takes a location that is not in the store,
      [delete] removes one.
    - A C++ [int] is a [Z]; [++] and [--] on the [_size] counters wrap
      around at 32 bits, as the compiled code does.
    - A function that may throw returns an [outcome]; dereferencing
      [nullptr] or a deleted node is [Undefined], and so is deleting an
      object a second time.
    - A [while] loop takes fuel, one unit per iteration, and is
      [OutOfFuel] when it needs more.
    - The connector is connected ([connect()] ends the process when it
      cannot).  Each call into the connector library may throw
      [sql::SQLException]; whether it does is given by a script in the
      state of the connection.  The text [e.what()] that the handlers
      append to their message is the library's and is left out.
    - The statement and result-set objects that the connector hands out
      are followed in [createTask], which deletes one of them before
      its last call into the connector.  [getPendingTasks] and
      [updateTaskStatus] delete theirs after the last call only, each
      at most once on every path, and there they are not followed. *)

From Stdlib Require Import ZArith String Ascii List Sorted Permutation.
From Stdlib Require Import DecimalString DecimalZ DecimalPos.
From stdpp Require Import base option list gmap strings fin_maps.

Open Scope string_scope.
Open Scope list_scope.
Open Scope Z_scope.

(** ** Exceptions and outcomes *)

(** [sql::SQLException] is declared by the MySQL connector as a class
    derived from [std::runtime_error]; [std::invalid_argument] and
    [std::out_of_range] are what [std::stoi] throws.  A handler
    [catch (sql::SQLException&)] catches the derived class only. *)
Inductive exn : Type :=
| SQLException
| runtime_error (what : string)
| invalid_argument (what : string)
| out_of_range (what : string).

Inductive outcome (A : Type) : Type :=
| Ret (a : A)
| Raise (e : exn)
| Undefined
| OutOfFuel.
Arguments Ret {A} a.
Arguments Raise {A} e.
Arguments Undefined {A}.
Arguments OutOfFuel {A}.

Definition obind {A B} (o : outcome A) (k : A -> outcome B) : outcome B :=
  match o with
  | Ret a => k a
  | Raise e => Raise e
  | Undefined => Undefined
  | OutOfFuel => OutOfFuel
  end.

(** ** 32-bit [int] arithmetic of the size counters *)

Definition INT_MAX : Z := 2147483647.

Definition wrap_int (z : Z) : Z := (z + 2147483648) mod 4294967296 - 2147483648.

Definition int_incr (z : Z) : Z := wrap_int (z + 1).
Definition int_decr (z : Z) : Z := wrap_int (z - 1).

(** ** data_structures/Node.h *)

Definition loc : Type := positive.

Record Node (T : Type) : Type := mkNode { data : T; next : option loc }.
Arguments mkNode {T} data next.
Arguments data {T} n.
Arguments next {T} n.

(** [new Node<T>(val)]: a location outside the store, holding
    [Node(val)] whose constructor sets [next] to [nullptr]. *)
Definition new_Node {T} (val : T) (nodes : gmap loc (Node T))
  : loc * gmap loc (Node T) :=
  let p := fresh (dom nodes) in (p, <[p := mkNode val None]> nodes).

(** ** data_structures/Stack.h *)

Module Stack.
Section Stack.
Context {T : Type}.

Record t : Type := mk { nodes : gmap loc (Node T); top : option loc; _size : Z }.

(** [Stack() : top(nullptr), _size(0) {}] *)
Definition new : t := {| nodes := ∅; top := None; _size := 0 |}.

Definition isEmpty (s : t) : bool :=
  match top s with None => true | Some _ => false end.

Definition size (s : t) : Z := _size s.

Definition push (d : T) (s : t) : t :=
  let '(newNode, h) := new_Node d (nodes s) in
  (* newNode->next = top; *)
  let h := alter (fun n => mkNode (data n) (top s)) newNode h in
  {| nodes := h; top := Some newNode; _size := int_incr (_size s) |}.

Definition pop (s : t) : outcome (T * t) :=
  if isEmpty s then Raise (runtime_error "Stack is empty")
  else
    match top s with
    | None => Undefined
    | Some temp =>
      match nodes s !! temp with
      | None => Undefined
      | Some n =>
        Ret (data n,
             {| nodes := delete temp (nodes s);
                top := next n;
                _size := int_decr (_size s) |})
      end
    end.

Definition peek (s : t) : outcome T :=
  if isEmpty s then Raise (runtime_error "Stack is empty")
  else
    match top s with
    | None => Undefined
    | Some p =>
      match nodes s !! p with
      | None => Undefined
      | Some n => Ret (data n)
      end
    end.

End Stack.
Arguments t T : clear implicits.
End Stack.

(** ** data_structures/Queue.h *)

Module Queue.
Section Queue.
Context {T : Type}.

Record t : Type :=
  mk { nodes : gmap loc (Node T); head : option loc; tail : option loc; _size : Z }.

(** [Queue() : head(nullptr), tail(nullptr), _size(0) {}] *)
Definition new : t := {| nodes := ∅; head := None; tail := None; _size := 0 |}.

Definition isEmpty (q : t) : bool :=
  match head q with None => true | Some _ => false end.

Definition size (q : t) : Z := _size q.

Definition enqueue (d : T) (q : t) : outcome t :=
  let '(newNode, h) := new_Node d (nodes q) in
  if isEmpty q then
    Ret {| nodes := h; head := Some newNode; tail := Some newNode;
           _size := int_incr (_size q) |}
  else
    (* tail->next = newNode; *)
    match tail q with
    | None => Undefined
    | Some tl =>
      match h !! tl with
      | None => Undefined
      | Some n =>
        Ret {| nodes := <[tl := mkNode (data n) (Some newNode)]> h;
               head := head q; tail := Some newNode;
               _size := int_incr (_size q) |}
      end
    end.

Definition dequeue (q : t) : outcome (T * t) :=
  if isEmpty q then Raise (runtime_error "Queue is empty")
  else
    match head q with
    | None => Undefined
    | Some temp =>
      match nodes q !! temp with
      | None => Undefined
      | Some n =>
        let hd := next n in
        Ret (data n,
             {| nodes := delete temp (nodes q);
                head := hd;
                tail := match hd with None => None | Some _ => tail q end;
                _size := int_decr (_size q) |})
      end
    end.

End Queue.
Arguments t T : clear implicits.
End Queue.

(** ** models/Task.h and models/UndoAction.h *)

Record Task : Type := mkTask {
  task_id : Z;
  assignee_id : Z;
  title : string;
  description : string;
  status : string;
  priority : Z
}.

(** [Task(t, d, p = 3, s = "pending", id = 0, assign_id = 0)] *)
Definition Task_new (t d : string) (p : Z) (s : string) (id assign_id : Z) : Task :=
  {| task_id := id; assignee_id := assign_id; title := t; description := d;
     status := s; priority := p |}.

Definition with_task_id (id : Z) (t : Task) : Task :=
  {| task_id := id; assignee_id := assignee_id t; title := title t;
     description := description t; status := status t; priority := priority t |}.

Record UndoAction : Type := mkUndoAction {
  action_name : string;
  action_data : gmap string string
}.

(** [std::map::operator[]] on a key that is absent yields the empty string. *)
Definition map_at (m : gmap string string) (k : string) : string :=
  default "" (m !! k).

(** ** The storage behind the connector (python/db/init_db.sql)

    One row of table [Tasks].  [assignee_id] is nullable; [created_at] is
    a timestamp in seconds. *)

Record Row : Type := mkRow {
  row_task_id : Z;
  row_assignee_id : option Z;
  row_title : string;
  row_description : string;
  row_status : string;
  row_priority : Z;
  row_created_at : Z
}.

Definition with_row_status (s : string) (r : Row) : Row :=
  {| row_task_id := row_task_id r; row_assignee_id := row_assignee_id r;
     row_title := row_title r; row_description := row_description r;
     row_status := s; row_priority := row_priority r;
     row_created_at := row_created_at r |}.

(** The connection [con] of the [DatabaseConnector], once connected.
    [Tasks] is the committed table, in primary-key order; [session] is the
    table as this connection sees it, which differs from [Tasks] only
    while a transaction has uncommitted writes.  [faults] is the behaviour
    of the environment: every call into the connector library takes the
    next entry, and [true] makes that call throw [sql::SQLException]
    without any effect on the tables; an exhausted script means no further
    call throws. *)
Record Connection : Type := mkConnection {
  Tasks : list Row;
  session : list Row;
  autocommit : bool;
  AUTO_INCREMENT : Z;
  LAST_INSERT_ID : Z;
  faults : list bool
}.

Inductive stream : Type := stdout | stderr.

(** Everything outside the containers: the connection, the [Task] objects
    on the free store, what was written to [std::cout] and [std::cerr]
    (latest first) and the clock, in milliseconds. *)
Record World : Type := mkWorld {
  con : Connection;
  objs : gmap loc Task;
  console : list (stream * string);
  clock_ms : Z
}.

(** ** Computations *)

Definition M (S A : Type) : Type := S -> outcome A * S.

Definition ret {S A} (a : A) : M S A := fun s => (Ret a, s).

Definition bind {S A B} (m : M S A) (k : A -> M S B) : M S B :=
  fun s => match m s with
           | (Ret a, s') => k a s'
           | (Raise e, s') => (Raise e, s')
           | (Undefined, s') => (Undefined, s')
           | (OutOfFuel, s') => (OutOfFuel, s')
           end.

Definition throw {S A} (e : exn) : M S A := fun s => (Raise e, s).
Definition undefined {S A} : M S A := fun s => (Undefined, s).
Definition out_of_fuel {S A} : M S A := fun s => (OutOfFuel, s).
Definition lift_outcome {S A} (o : outcome A) : M S A := fun s => (o, s).
Definition gets {S A} (f : S -> A) : M S A := fun s => (Ret (f s), s).
Definition modify {S} (f : S -> S) : M S unit := fun s => (Ret tt, f s).

Declare Scope M_scope.
Delimit Scope M_scope with M.
Notation "x <- m ;; k" := (bind m (fun x => k))
  (at level 100, m at next level, right associativity) : M_scope.
Notation "m ;; k" := (bind m (fun _ => k))
  (at level 100, right associativity) : M_scope.

(** [try { body } catch (sql::SQLException &e) { handler }] *)
Definition try_catch_SQLException {S A} (body handler : M S A) : M S A :=
  fun s => match body s with
           | (Raise SQLException, s') => handler s'
           | r => r
           end.

(** States that contain the world. *)
Class HasWorld (S : Type) : Type := {
  world : S -> World;
  set_world : World -> S -> S
}.

#[export] Instance World_HasWorld : HasWorld World :=
  {| world := fun w => w; set_world := fun w _ => w |}.

(** A function body with local variables of type [L]. *)
#[export] Instance frame_HasWorld {S L} `{HasWorld S} : HasWorld (S * L) :=
  {| world := fun s => world (fst s);
     set_world := fun w s => (set_world w (fst s), snd s) |}.

Definition with_locals {S L A} (init : L) (m : M (S * L) A) : M S A :=
  fun s => let '(r, (s', _)) := m (s, init) in (r, s').

Definition get_local {S L} : M (S * L) L := gets snd.
Definition set_local {S L} (v : L) : M (S * L) unit := modify (fun s => (fst s, v)).

Section WorldOps.
Context {S : Type} `{HasWorld S}.
Local Open Scope M_scope.

Definition modify_world (f : World -> World) : M S unit :=
  modify (fun s => set_world (f (world s)) s).

Definition set_con (c : Connection) (w : World) : World :=
  {| con := c; objs := objs w; console := console w; clock_ms := clock_ms w |}.

Definition set_objs (o : gmap loc Task) (w : World) : World :=
  {| con := con w; objs := o; console := console w; clock_ms := clock_ms w |}.

(** [std::cout << ... << std::endl] and [std::cerr << ... << std::endl] *)
Definition print (to : stream) (line : string) : M S unit :=
  modify_world (fun w =>
    {| con := con w; objs := objs w; console := (to, line) :: console w;
       clock_ms := clock_ms w |}).

(** [std::this_thread::sleep_for(std::chrono::milliseconds(ms))] *)
Definition sleep_for (ms : Z) : M S unit :=
  modify_world (fun w =>
    {| con := con w; objs := objs w; console := console w;
       clock_ms := clock_ms w + ms |}).

(** [new Task(...)] / [std::make_unique<Task>(...)] *)
Definition new_Task (t : Task) : M S loc :=
  w <- gets world ;;
  let p := fresh (dom (objs w)) in
  modify_world (set_objs (<[p := t]> (objs w))) ;;
  ret p.

(** [*p] *)
Definition deref (p : loc) : M S Task :=
  w <- gets world ;;
  match objs w !! p with
  | Some t => ret t
  | None => undefined
  end.

(** [*p = t] *)
Definition assign (p : loc) (t : Task) : M S unit :=
  w <- gets world ;;
  match objs w !! p with
  | Some _ => modify_world (set_objs (<[p := t]> (objs w)))
  | None => undefined
  end.

(** [delete p], also the end of the last smart pointer that owns [p] *)
Definition delete_Task (p : loc) : M S unit :=
  w <- gets world ;;
  match objs w !! p with
  | Some _ => modify_world (set_objs (delete p (objs w)))
  | None => undefined
  end.

(** The value of [task->f] *)
Definition field {A} (task : loc) (f : Task -> A) : M S A :=
  t <- deref task ;; ret (f t).

(** A computation on the world, run inside a larger state. *)
Definition liftW {A} (m : M World A) : M S A :=
  fun s => let '(r, w) := m (world s) in (r, set_world w s).

(** One call into the connector library: it throws when the
    environment says so. *)
Definition connector_call : M S unit :=
  w <- gets world ;;
  match faults (con w) with
  | [] => ret tt
  | f :: fs =>
    modify_world (set_con
      {| Tasks := Tasks (con w); session := session (con w);
         autocommit := autocommit (con w);
         AUTO_INCREMENT := AUTO_INCREMENT (con w);
         LAST_INSERT_ID := LAST_INSERT_ID (con w); faults := fs |}) ;;
    if f : bool then throw SQLException else ret tt
  end.

(** A statement changed the session's table to [rows]; with autocommit
    on, the change is committed at once. *)
Definition write_rows (rows : list Row) (c : Connection) : Connection :=
  {| Tasks := if autocommit c then rows else Tasks c;
     session := rows;
     autocommit := autocommit c;
     AUTO_INCREMENT := AUTO_INCREMENT c;
     LAST_INSERT_ID := LAST_INSERT_ID c; faults := faults c |}.

Definition modify_con (f : Connection -> Connection) : M S unit :=
  modify_world (fun w => set_con (f (con w)) w).

(** [con->setAutoCommit(b)]; switching autocommit on commits what the
    open transaction wrote. *)
Definition setAutoCommit (b : bool) : M S unit :=
  connector_call ;;
  modify_con (fun c =>
    {| Tasks := if b then session c else Tasks c;
       session := session c;
       autocommit := b;
       AUTO_INCREMENT := AUTO_INCREMENT c;
       LAST_INSERT_ID := LAST_INSERT_ID c; faults := faults c |}).

(** [con->commit()] *)
Definition commit : M S unit :=
  connector_call ;;
  modify_con (fun c =>
    {| Tasks := session c; session := session c;
       autocommit := autocommit c;
       AUTO_INCREMENT := AUTO_INCREMENT c;
       LAST_INSERT_ID := LAST_INSERT_ID c; faults := faults c |}).

(** [con->rollback()] *)
Definition rollback : M S unit :=
  connector_call ;;
  modify_con (fun c =>
    {| Tasks := Tasks c; session := Tasks c;
       autocommit := autocommit c;
       AUTO_INCREMENT := AUTO_INCREMENT c;
       LAST_INSERT_ID := LAST_INSERT_ID c; faults := faults c |}).

End WorldOps.

(** ** [std::to_string(int)] and [std::stoi] *)

Definition INT_MIN : Z := -2147483648.

Definition to_string (z : Z) : string := NilZero.string_of_int (Z.to_int z).

Definition isspace (c : ascii) : bool :=
  let n := nat_of_ascii c in
  (Nat.eqb n 32 || (Nat.leb 9 n && Nat.leb n 13))%bool.

Definition digit_value (c : ascii) : option Z :=
  let n := nat_of_ascii c in
  if (Nat.leb 48 n && Nat.leb n 57)%bool then Some (Z.of_nat n - 48) else None.

Fixpoint skip_space (s : string) : string :=
  match s with
  | String c r => if isspace c then skip_space r else s
  | EmptyString => s
  end.

(** The value of the longest prefix of digits, [None] when it is empty. *)
Fixpoint digits_value (s : string) (acc : option Z) : option Z :=
  match s with
  | String c r =>
    match digit_value c with
    | Some d => digits_value r (Some (default 0 acc * 10 + d))
    | None => acc
    end
  | EmptyString => acc
  end.

Definition stoi (s : string) : outcome Z :=
  let s := skip_space s in
  let '(negative, s) :=
    match s with
    | String "-" r => (true, r)
    | String "+" r => (false, r)
    | _ => (false, s)
    end in
  match digits_value s None with
  | None => Raise (invalid_argument "stoi")
  | Some v =>
    let v := if negative : bool then - v else v in
    if ((INT_MIN <=? v) && (v <=? INT_MAX))%bool then Ret v
    else Raise (out_of_range "stoi")
  end.

Definition nl : string := String (ascii_of_nat 10) "".

(** ** db/DatabaseConnector.cpp *)

Module DatabaseConnector.
Section Statements.
Context {S : Type} `{HasWorld S}.
Local Open Scope M_scope.

(** A result set [res] is the list of its rows ahead of the cursor:
    [res->next()] is a call into the connector that answers whether this
    list is non-empty and moves to its first row. *)

(** [INSERT INTO Tasks (title, description, priority, status,
    assignee_id) VALUES (?, ?, ?, ?, ?)]: [task_id] comes from the
    AUTO_INCREMENT counter, [created_at] defaults to the current
    timestamp. *)
Definition INSERT_INTO_Tasks (title description : string) (priority : Z)
    (status : string) (assignee : option Z) : M S unit :=
  connector_call ;;
  w <- gets world ;;
  let c := con w in
  let id := AUTO_INCREMENT c in
  let row := {| row_task_id := id; row_assignee_id := assignee;
                row_title := title; row_description := description;
                row_status := status; row_priority := priority;
                row_created_at := clock_ms w / 1000 |} in
  modify_con (fun c =>
    write_rows (session c ++ [row])
      {| Tasks := Tasks c; session := session c; autocommit := autocommit c;
         AUTO_INCREMENT := id + 1; LAST_INSERT_ID := id; faults := faults c |}).

(** [SELECT LAST_INSERT_ID()] *)
Definition SELECT_LAST_INSERT_ID : M S (list Z) :=
  connector_call ;;
  w <- gets world ;;
  ret [LAST_INSERT_ID (con w)].

Definition is_pending (r : Row) : bool := String.eqb (row_status r) "pending".

(** [ORDER BY priority ASC, created_at ASC] *)
Definition order_le (a b : Row) : bool :=
  (row_priority a <? row_priority b) ||
  ((row_priority a =? row_priority b) && (row_created_at a <=? row_created_at b)).

Fixpoint order_insert (r : Row) (l : list Row) : list Row :=
  match l with
  | [] => [r]
  | x :: l' => if order_le x r then x :: order_insert r l' else r :: l
  end.

Definition order_by (l : list Row) : list Row := foldr order_insert [] l.

(** [SELECT * FROM Tasks WHERE status = 'pending' ORDER BY priority ASC,
    created_at ASC] *)
Definition SELECT_pending : M S (list Row) :=
  connector_call ;;
  w <- gets world ;;
  ret (order_by (List.filter is_pending (session (con w)))).

(** [SELECT status FROM Tasks WHERE task_id = ? FOR UPDATE] *)
Definition SELECT_status_FOR_UPDATE (task_id : Z) : M S (list string) :=
  connector_call ;;
  w <- gets world ;;
  ret (map row_status
         (List.filter (fun r => row_task_id r =? task_id) (session (con w)))).

(** [UPDATE Tasks SET status = ? WHERE task_id = ?] *)
Definition UPDATE_status (new_status : string) (task_id : Z) : M S unit :=
  connector_call ;;
  modify_con (fun c =>
    write_rows
      (map (fun r => if row_task_id r =? task_id
                     then with_row_status new_status r else r)
           (session c)) c).

End Statements.

Section Methods.
Local Open Scope M_scope.

(** The pointers [pstmt], [stmt] and [res] of [createTask] are followed
    through the function: such a pointer is null, points to a live
    object of the connector, or dangles once the object is deleted. *)
Inductive pointer : Type := null | live | dangling.

Record createTask_locals : Type := mkLocals {
  pstmt : pointer;
  stmt : pointer;
  res : pointer
}.

Definition set_pstmt (p : pointer) (l : createTask_locals) : createTask_locals :=
  {| pstmt := p; stmt := stmt l; res := res l |}.

Definition set_stmt (p : pointer) (l : createTask_locals) : createTask_locals :=
  {| pstmt := pstmt l; stmt := p; res := res l |}.

Definition set_res (p : pointer) (l : createTask_locals) : createTask_locals :=
  {| pstmt := pstmt l; stmt := stmt l; res := p |}.

(** [delete p;] and [if (p) delete p;]: nothing happens through a null
    pointer, the pointer keeps its value and dangles from then on, and to
    delete an object a second time is undefined. *)
Definition delete_pointer {S} (p : pointer) : M S pointer :=
  match p with
  | null => ret null
  | live => ret dangling
  | dangling => undefined
  end.

Definition createTask (task : loc) : M World (option loc) :=
  with_locals {| pstmt := null; stmt := null; res := null |}
    (try_catch_SQLException
       (connector_call ;;                                   (* prepareStatement *)
        l <- get_local ;; set_local (set_pstmt live l) ;;   (* pstmt = .. *)
        t <- field task title ;; connector_call ;;          (* setString(1, ..) *)
        d <- field task description ;; connector_call ;;    (* setString(2, ..) *)
        p <- field task priority ;; connector_call ;;       (* setInt(3, ..) *)
        s <- field task status ;; connector_call ;;         (* setString(4, ..) *)
        a <- field task assignee_id ;;
        assignee <-
          (if a =? 0 then
             connector_call ;; ret None                     (* setNull(5, 0) *)
           else
             a <- field task assignee_id ;;
             connector_call ;; ret (Some a)) ;;             (* setInt(5, ..) *)
        INSERT_INTO_Tasks t d p s assignee ;;               (* execute *)
        l <- get_local ;;
        q <- delete_pointer (pstmt l) ;;                    (* delete pstmt; *)
        set_local (set_pstmt q l) ;;
        connector_call ;;                                   (* createStatement *)
        l <- get_local ;; set_local (set_stmt live l) ;;    (* stmt = .. *)
        rows <- SELECT_LAST_INSERT_ID ;;                    (* executeQuery *)
        l <- get_local ;; set_local (set_res live l) ;;     (* res = .. *)
        connector_call ;;                                   (* res->next() *)
        match rows with
        | id :: _ =>
          connector_call ;;                                 (* res->getInt(1) *)
          t <- deref task ;;
          assign task (with_task_id id t)
        | [] => ret tt
        end ;;
        id <- field task task_id ;;
        print stdout ("DB: Created Task ID " +:+ to_string id) ;;
        l <- get_local ;;
        delete_pointer (res l) ;;                           (* delete res; *)
        delete_pointer (stmt l) ;;                          (* delete stmt; *)
        ret (Some task))
       (print stderr "Failed to create task: " ;;
        l <- get_local ;;
        delete_pointer (pstmt l) ;;                 (* if (pstmt) delete pstmt; *)
        delete_pointer (res l) ;;                   (* if (res) delete res; *)
        delete_pointer (stmt l) ;;                  (* if (stmt) delete stmt; *)
        ret None)).

(** The loop [while (res->next()) tasks.push_back(new Task(...))] of
    [getPendingTasks]; [tasks] is the local variable of the frame. *)
Fixpoint getPendingTasks_rows (res : list Row) : M (World * list loc) unit :=
  connector_call ;;                                      (* res->next() *)
  match res with
  | row :: rest =>
    connector_call ;;                                    (* getString("title") *)
    connector_call ;;                                    (* getString("description") *)
    connector_call ;;                                    (* getInt("priority") *)
    connector_call ;;                                    (* getString("status") *)
    connector_call ;;                                    (* getInt("task_id") *)
    connector_call ;;                                    (* getInt("assignee_id") *)
    p <- new_Task (Task_new (row_title row) (row_description row)
                     (row_priority row) (row_status row) (row_task_id row)
                     (default 0 (row_assignee_id row))) ;;
    tasks <- get_local ;;
    set_local (tasks ++ [p]) ;;
    getPendingTasks_rows rest
  | [] => ret tt
  end.

Definition getPendingTasks : M World (list loc) :=
  with_locals []
    (try_catch_SQLException
       (connector_call ;;                                (* createStatement *)
        res <- SELECT_pending ;;
        getPendingTasks_rows res)
       (print stderr "Failed to get tasks: ") ;;
     get_local).

Definition updateTaskStatus (task_id : Z) (new_status : string)
  : M World (bool * string) :=
  with_locals ""                                  (* std::string old_status = "" *)
    (try_catch_SQLException
       (print stdout (nl +:+ "DB: Attempting to update Task " +:+ to_string task_id
                         +:+ " to '" +:+ new_status +:+ "'...") ;;
        setAutoCommit false ;;
        connector_call ;;                         (* prepareStatement(sql_select) *)
        connector_call ;;                         (* setInt(1, task_id) *)
        res <- SELECT_status_FOR_UPDATE task_id ;;
        connector_call ;;                         (* res->next() *)
        match res with
        | [] =>
          print stderr ("DB: No task found with id " +:+ to_string task_id) ;;
          throw (runtime_error "Task not found")
        | st :: _ =>
          connector_call ;;                       (* res->getString("status") *)
          set_local st
        end ;;
        connector_call ;;                         (* prepareStatement(sql_update) *)
        connector_call ;;                         (* setString(1, new_status) *)
        connector_call ;;                         (* setInt(2, task_id) *)
        UPDATE_status new_status task_id ;;
        commit ;;
        setAutoCommit true ;;
        old_status <- get_local ;;
        print stdout ("DB: Successfully updated Task " +:+ to_string task_id
                        +:+ " from '" +:+ old_status +:+ "' to '" +:+ new_status
                        +:+ "'") ;;
        ret (true, old_status))
       (print stderr "DB: Error updating task. Rolling back. " ;;
        try_catch_SQLException
          (rollback ;; setAutoCommit true)
          (print stderr "Rollback failed: ") ;;
        old_status <- get_local ;;
        ret (false, old_status))).

End Methods.
End DatabaseConnector.

(** ** data_structures/Queue.cpp

    The queue of [Task*] that precedes the template of Queue.h: the same
    chain of nodes, with [nullptr] as the answer of [dequeue] on an empty
    queue and a line on [std::cout] for each operation. *)

Module TaskQueue.
Section TaskQueue.
Context {S : Type} `{HasWorld S}.
Local Open Scope M_scope.

Abbreviation t := (Queue.t (option loc)).

Definition new : t := Queue.new.

Definition isEmpty (q : t) : bool := Queue.isEmpty q.

Definition size (q : t) : Z := Queue._size q.

(** [data->title] for a [Task* data] *)
Definition title_of (data : option loc) : M S string :=
  match data with
  | Some p => field p title
  | None => undefined
  end.

Definition enqueue (data : option loc) (q : t) : M S t :=
  q' <- lift_outcome (Queue.enqueue data q) ;;
  name <- title_of data ;;
  print stdout ("[Queue]: Enqueued " +:+ name) ;;
  ret q'.

Definition dequeue (q : t) : M S (option loc * t) :=
  if isEmpty q then ret (None, q)                   (* return nullptr; *)
  else
    r <- lift_outcome (Queue.dequeue q) ;;
    name <- title_of (fst r) ;;
    print stdout ("[Queue]: Dequeued " +:+ name) ;;
    ret r.

End TaskQueue.
End TaskQueue.

(** ** data_structures/PriorityQueue.h *)

Module PriorityQueue.
Section PriorityQueue.
Context {T : Type}.

(** Modelled from the spec: the header PriorityQueue.h, which declares
    [PriorityQueue<T, P>] with [insert], [extract_min] and [isEmpty], is
    not among the sources.  The design document (4.3) asks for a
    min-priority queue keyed by an integer, whose [extractMin] removes
    and returns the item with the smallest key, ties going to the item
    inserted first, and for which extracting from an empty queue is the
    error [EmptyContainer].  The queue is its entries in insertion
    order. *)
Record t : Type := mk { entries : list (Z * T) }.

Definition new : t := {| entries := [] |}.

Definition isEmpty (q : t) : bool :=
  match entries q with [] => true | _ => false end.

Definition size (q : t) : Z := Z.of_nat (length (entries q)).

(** Modelled from the spec: [insert(item, priorityKey)] adds an item
    keyed by an integer priority. *)
Definition insert (d : T) (key : Z) (q : t) : t :=
  {| entries := entries q ++ [(key, d)] |}.

(** The smallest key among the entries after a first one of key [k]. *)
Fixpoint min_key (k : Z) (l : list (Z * T)) : Z :=
  match l with
  | [] => k
  | e :: l' => min_key (if fst e <? k then fst e else k) l'
  end.

(** The first entry of key [k] taken out of the list. *)
Fixpoint take_first (k : Z) (l : list (Z * T)) : option ((Z * T) * list (Z * T)) :=
  match l with
  | [] => None
  | e :: l' =>
    if fst e =? k then Some (e, l')
    else match take_first k l' with
         | Some (m, rest) => Some (m, e :: rest)
         | None => None
         end
  end.

(** Modelled from the spec: [extractMin] removes and returns the entry
    with the smallest key, the earliest inserted one among equals; the
    caller receives the pair of key and item, as [run_task_scheduler]
    reads [item.first] and [item.second]. *)
Definition extract_min (q : t) : outcome ((Z * T) * t) :=
  match entries q with
  | [] => Raise (runtime_error "EmptyContainer")
  | e :: l =>
    match take_first (min_key (fst e) l) (e :: l) with
    | Some (m, rest) => Ret (m, {| entries := rest |})
    | None => Undefined
    end
  end.

End PriorityQueue.
Arguments t T : clear implicits.
End PriorityQueue.

(** ** main.cpp: [TaskManager] *)

Module TaskManager.

(** [unique_ptr<Task>] and [shared_ptr<Task>] are the location of the
    [Task] they own. *)
Record t : Type := mk {
  new_task_queue : Queue.t loc;
  task_scheduler : PriorityQueue.t loc;
  undo_stack : Stack.t UndoAction
}.

Definition new : t :=
  {| new_task_queue := Queue.new; task_scheduler := PriorityQueue.new;
     undo_stack := Stack.new |}.

Definition set_new_task_queue (q : Queue.t loc) (this : t) : t :=
  {| new_task_queue := q; task_scheduler := task_scheduler this;
     undo_stack := undo_stack this |}.

Definition set_task_scheduler (q : PriorityQueue.t loc) (this : t) : t :=
  {| new_task_queue := new_task_queue this; task_scheduler := q;
     undo_stack := undo_stack this |}.

Definition set_undo_stack (s : Stack.t UndoAction) (this : t) : t :=
  {| new_task_queue := new_task_queue this;
     task_scheduler := task_scheduler this; undo_stack := s |}.

(** The methods run on the world and on the members of [*this]. *)
Abbreviation Method := (M (World * t)).

Local Open Scope M_scope.

Definition separator (title : string) : Method unit :=
  print stdout (nl +:+ "=========================" +:+ " " +:+ title +:+ " "
                   +:+ "=========================").

Definition submit_new_task (title desc : string) (priority user_id : Z)
  : Method unit :=
  print stdout (nl +:+ "User submitted new task: '" +:+ title +:+ "'") ;;
  task_ptr <- new_Task (Task_new title desc priority "pending" 0 user_id) ;;
  this <- get_local ;;
  q <- lift_outcome (Queue.enqueue task_ptr (new_task_queue this)) ;;
  set_local (set_new_task_queue q this) ;;
  print stdout ("[Queue]: Enqueued " +:+ title).

Fixpoint process_new_task_queue_loop (fuel : nat) : Method unit :=
  this <- get_local ;;
  if Queue.isEmpty (new_task_queue this) then ret tt
  else
    match fuel with
    | O => out_of_fuel
    | Datatypes.S fuel =>
      r <- lift_outcome (Queue.dequeue (new_task_queue this)) ;;
      let task_to_save := fst r in
      set_local (set_new_task_queue (snd r) this) ;;
      name <- field task_to_save title ;;
      print stdout ("Processor: Saving '" +:+ name +:+ "' to database...") ;;
      liftW (DatabaseConnector.createTask task_to_save) ;;
      sleep_for 500 ;;
      delete_Task task_to_save ;;                (* ~unique_ptr<Task>() *)
      process_new_task_queue_loop fuel
    end.

Definition process_new_task_queue (fuel : nat) : Method unit :=
  separator "Processing New Task Queue" ;;
  process_new_task_queue_loop fuel ;;
  print stdout "Task queue empty. All new tasks persisted.".

Fixpoint load_tasks_into_scheduler_loop (pending_tasks : list loc) : Method unit :=
  match pending_tasks with
  | [] => ret tt
  | task_sptr :: rest =>
    key <- field task_sptr priority ;;
    this <- get_local ;;
    set_local (set_task_scheduler
                 (PriorityQueue.insert task_sptr key (task_scheduler this)) this) ;;
    name <- field task_sptr title ;;
    key <- field task_sptr priority ;;
    print stdout ("[P-Queue]: Inserted '" +:+ name +:+ "' with priority "
                    +:+ to_string key) ;;
    sleep_for 200 ;;
    load_tasks_into_scheduler_loop rest
  end.

Definition load_tasks_into_scheduler : Method unit :=
  separator "Loading Pending Tasks into Scheduler" ;;
  print stdout "Fetching 'pending' tasks from database..." ;;
  pending_tasks <- liftW DatabaseConnector.getPendingTasks ;;
  match pending_tasks with
  | [] => print stdout "No pending tasks found."
  | _ =>
    print stdout ("Found " +:+ to_string (Z.of_nat (length pending_tasks))
                    +:+ " pending tasks. Loading into PriorityQueue...") ;;
    load_tasks_into_scheduler_loop pending_tasks ;;
    print stdout "Task Scheduler is loaded."
  end.

(** The end of an iteration of [run_task_scheduler]: the update to
    [completed] of the task executed. *)
Definition run_task_scheduler_complete (task : loc) : Method unit :=
  sleep_for 500 ;;
  name <- field task title ;;
  print stdout ("  -> Task '" +:+ name +:+ "' complete.") ;;
  id <- field task task_id ;;
  liftW (DatabaseConnector.updateTaskStatus id "completed") ;;
  delete_Task task.                              (* the last shared_ptr ends *)

(** The body of the loop of [run_task_scheduler], one extracted task. *)
Definition run_task_scheduler_body : Method unit :=
  this <- get_local ;;
  item <- lift_outcome (PriorityQueue.extract_min (task_scheduler this)) ;;
  set_local (set_task_scheduler (snd item) this) ;;
  let key := fst (fst item) in
  let task := snd (fst item) in
  name <- field task title ;;
  print stdout (nl +:+ "Executing Task (Priority " +:+ to_string key +:+ "): '"
                   +:+ name +:+ "'") ;;
  st <- field task status ;;
  print stdout ("  -> Changing status from '" +:+ st +:+ "' to 'in_progress'") ;;
  id <- field task task_id ;;
  result <- liftW (DatabaseConnector.updateTaskStatus id "in_progress") ;;
  let success := fst result in
  let old_status := snd result in
  (if success : bool then
     id <- field task task_id ;;
     let data := <["old_status" := old_status]>
                   (<["task_id" := to_string id]> (∅ : gmap string string)) in
     this <- get_local ;;
     set_local (set_undo_stack
                  (Stack.push (mkUndoAction "update_status" data) (undo_stack this))
                  this) ;;
     id <- field task task_id ;;
     print stdout ("[Stack]: Pushed undo action for task " +:+ to_string id)
   else ret tt) ;;
  run_task_scheduler_complete task.

Fixpoint run_task_scheduler_loop (fuel : nat) : Method unit :=
  this <- get_local ;;
  if PriorityQueue.isEmpty (task_scheduler this) then ret tt
  else
    match fuel with
    | O => out_of_fuel
    | Datatypes.S fuel =>
      run_task_scheduler_body ;;
      run_task_scheduler_loop fuel
    end.

Definition run_task_scheduler (fuel : nat) : Method unit :=
  separator "Running Task Scheduler" ;;
  run_task_scheduler_loop fuel ;;
  print stdout "Task Scheduler is empty. All high-priority work is done.".

Definition undo_last_action : Method unit :=
  separator "Undo Last Action" ;;
  this <- get_local ;;
  if Stack.isEmpty (undo_stack this) then
    print stdout "Nothing to undo."
  else
    r <- lift_outcome (Stack.pop (undo_stack this)) ;;
    let action := fst r in
    set_local (set_undo_stack (snd r) this) ;;
    if String.eqb (action_name action) "update_status" then
      task_id <- lift_outcome (stoi (map_at (action_data action) "task_id")) ;;
      let status_to_revert := map_at (action_data action) "old_status" in
      print stdout ("Undoing status update for Task ID " +:+ to_string task_id
                      +:+ "...") ;;
      print stdout ("  -> Reverting to status: '" +:+ status_to_revert +:+ "'") ;;
      liftW (DatabaseConnector.updateTaskStatus task_id status_to_revert) ;;
      ret tt
    else ret tt.

End TaskManager.


(** ** Runs of operations on the containers *)

Inductive queue_op (T : Type) : Type :=
| Enqueue (x : T)
| Dequeue.
Arguments Enqueue {T} x.
Arguments Dequeue {T}.

Inductive stack_op (T : Type) : Type :=
| Push (x : T)
| Pop.
Arguments Push {T} x.
Arguments Pop {T}.

Section Runs.
Context {T : Type}.

(** A caller runs the operations in turn and catches what [dequeue]
    throws; the answers of the [dequeue] calls are collected, [None] for
    a call that threw. *)
Fixpoint Queue_run (ops : list (queue_op T)) (q : Queue.t T)
  : outcome (list (option T) * Queue.t T) :=
  match ops with
  | [] => Ret ([], q)
  | Enqueue x :: ops => obind (Queue.enqueue x q) (Queue_run ops)
  | Dequeue :: ops =>
    match Queue.dequeue q with
    | Ret (x, q') =>
      obind (Queue_run ops q') (fun r => Ret (Some x :: fst r, snd r))
    | Raise _ =>
      obind (Queue_run ops q) (fun r => Ret (None :: fst r, snd r))
    | Undefined => Undefined
    | OutOfFuel => OutOfFuel
    end
  end.

Definition enqueued (ops : list (queue_op T)) : list T :=
  omap (fun o => match o with Enqueue x => Some x | Dequeue => None end) ops.

Definition dequeues (ops : list (queue_op T)) : nat :=
  length (List.filter (fun o => match o with Dequeue => true | _ => false end) ops).

(** The values that the calls returned, in the order of the calls. *)
Definition returned (out : list (option T)) : list T := omap id out.

(** No operation of the run meets an empty container: at every point
    there were more insertions than removals so far. *)
Fixpoint never_empty (live : nat) (ops : list (queue_op T)) : bool :=
  match ops with
  | [] => true
  | Enqueue _ :: ops => never_empty (Datatypes.S live) ops
  | Dequeue :: ops =>
    match live with
    | O => false
    | Datatypes.S live => never_empty live ops
    end
  end.

Fixpoint Stack_run (ops : list (stack_op T)) (s : Stack.t T)
  : outcome (list (option T) * Stack.t T) :=
  match ops with
  | [] => Ret ([], s)
  | Push x :: ops => Stack_run ops (Stack.push x s)
  | Pop :: ops =>
    match Stack.pop s with
    | Ret (x, s') =>
      obind (Stack_run ops s') (fun r => Ret (Some x :: fst r, snd r))
    | Raise _ =>
      obind (Stack_run ops s) (fun r => Ret (None :: fst r, snd r))
    | Undefined => Undefined
    | OutOfFuel => OutOfFuel
    end
  end.

Definition pushed (ops : list (stack_op T)) : list T :=
  omap (fun o => match o with Push x => Some x | Pop => None end) ops.

(** Last in, first out, in the words of the design document: a [pop]
    answers with the latest item pushed that no earlier [pop] took;
    [pending] holds those items, latest first. *)
Fixpoint lifo (ops : list (stack_op T)) (pending : list T) : list (option T) :=
  match ops with
  | [] => []
  | Push x :: ops => lifo ops (x :: pending)
  | Pop :: ops =>
    match pending with
    | [] => None :: lifo ops []
    | x :: pending => Some x :: lifo ops pending
    end
  end.

(** The scheduler filled with [items], pairs of key and item, in order. *)
Definition insert_all (items : list (Z * T)) (q : PriorityQueue.t T)
  : PriorityQueue.t T :=
  foldl (fun q e => PriorityQueue.insert (snd e) (fst e) q) q items.

Definition same_key (k : Z) (e : Z * T) : bool := fst e =? k.

(** [while (!q.isEmpty()) out.push_back(q.extract_min())] *)
Fixpoint extract_all (fuel : nat) (q : PriorityQueue.t T) : outcome (list (Z * T)) :=
  if PriorityQueue.isEmpty q then Ret []
  else
    match fuel with
    | O => OutOfFuel
    | Datatypes.S fuel =>
      obind (PriorityQueue.extract_min q) (fun r =>
      obind (extract_all fuel (snd r)) (fun out => Ret (fst r :: out)))
    end.

(** *** The chain of nodes of a container

    [cells] lists the nodes of a chain with their payloads, from the
    first node on: each node is in the store and its [next] is the
    node after it, [nullptr] for the last. *)
Definition first_loc (cells : list (loc * T)) : option loc := fst <$> head cells.
Definition last_loc (cells : list (loc * T)) : option loc := fst <$> last cells.

Fixpoint is_chain (h : gmap loc (Node T)) (cells : list (loc * T)) : Prop :=
  match cells with
  | [] => True
  | c :: rest =>
    h !! fst c = Some (mkNode (snd c) (first_loc rest)) /\ is_chain h rest
  end.

Record Queue_repr (q : Queue.t T) (cells : list (loc * T)) : Prop := {
  Queue_chain : is_chain (Queue.nodes q) cells;
  Queue_nodup : NoDup cells.*1;
  Queue_head : Queue.head q = first_loc cells;
  Queue_tail : Queue.tail q = last_loc cells;
  Queue_size : Queue._size q = Z.of_nat (length cells);
  Queue_bound : Z.of_nat (length cells) <= INT_MAX
}.

Record Stack_repr (s : Stack.t T) (cells : list (loc * T)) : Prop := {
  Stack_chain : is_chain (Stack.nodes s) cells;
  Stack_nodup : NoDup cells.*1;
  Stack_top : Stack.top s = first_loc cells;
  Stack_size : Stack._size s = Z.of_nat (length cells);
  Stack_bound : Z.of_nat (length cells) <= INT_MAX
}.

End Runs.

(** ** Worlds

    The row that [createTask] inserts for the task [t]. *)
Definition created_row (w : World) (t : Task) : Row :=
  {| row_task_id := AUTO_INCREMENT (con w);
     row_assignee_id := if assignee_id t =? 0 then None else Some (assignee_id t);
     row_title := title t; row_description := description t;
     row_status := status t; row_priority := priority t;
     row_created_at := clock_ms w / 1000 |}.

(** A connection with autocommit on and no open transaction, as
    [connect()] leaves it, over a table [rows]; [next_id] is the
    AUTO_INCREMENT counter of the table. *)
Definition connected (rows : list Row) (next_id : Z) (fs : list bool) : Connection :=
  {| Tasks := rows; session := rows; autocommit := true;
     AUTO_INCREMENT := next_id; LAST_INSERT_ID := 0; faults := fs |}.

Definition start (c : Connection) (o : gmap loc Task) : World :=
  {| con := c; objs := o; console := []; clock_ms := 0 |}.

(** The second task of [main]: priority 2, assigned to user 1. *)
Definition deploy_row (id : Z) (st : string) : Row :=
  {| row_task_id := id; row_assignee_id := Some 1;
     row_title := "Deploy to prod (C++)"; row_description := "Push v2.0";
     row_status := st; row_priority := 2; row_created_at := 0 |}.

Definition deploy_task (id : Z) : Task :=
  Task_new "Deploy to prod (C++)" "Push v2.0" 2 "pending" id 1.

(** The status of the row [id] of a table. *)
Definition status_of (id : Z) (rows : list Row) : option string :=
  row_status <$> head (List.filter (fun r => row_task_id r =? id) rows).

(** The state of [main] once task 1 is loaded into the scheduler. *)
Definition scheduled (fs : list bool) : World * TaskManager.t :=
  (start (connected [deploy_row 1 "pending"] 2 fs) {[ 1%positive := deploy_task 1 ]},
   TaskManager.set_task_scheduler
     (PriorityQueue.insert 1%positive 2 PriorityQueue.new) TaskManager.new).

(** [main] for one task up to the end of the execution: submit, persist,
    load and execute. *)
Definition executed (title desc : string) (priority user_id : Z) (fuel : nat)
  : TaskManager.Method unit :=
  (TaskManager.submit_new_task title desc priority user_id ;;
   TaskManager.process_new_task_queue fuel ;;
   TaskManager.load_tasks_into_scheduler ;;
   TaskManager.run_task_scheduler fuel)%M.

(** The whole of [main] for one task: the above, then one undo. *)
Definition pipeline (title desc : string) (priority user_id : Z) (fuel : nat)
  : TaskManager.Method unit :=
  (executed title desc priority user_id fuel ;;
   TaskManager.undo_last_action)%M.



(** What [undo_last_action] writes when there is nothing to undo. *)
Definition nothing_to_undo (w : World) : World :=
  {| con := con w; objs := objs w;
     console :=
       (stdout, "Nothing to undo.")
       :: (stdout, nl +:+ "========================= Undo Last Action"
                      +:+ " =========================")
       :: console w;
     clock_ms := clock_ms w |}.

(** ** The destructors and what the remaining properties speak of *)

Section Destructors.
Context {T : Type}.

(** [~Stack()]: [while (!isEmpty()) { pop(); }] *)
Fixpoint Stack_destructor (fuel : nat) (s : Stack.t T) : outcome (Stack.t T) :=
  if Stack.isEmpty s then Ret s
  else
    match fuel with
    | O => OutOfFuel
    | Datatypes.S fuel => obind (Stack.pop s) (fun r => Stack_destructor fuel (snd r))
    end.

(** [~Queue()] of Queue.h: [while (!isEmpty()) { dequeue(); }] *)
Fixpoint Queue_destructor (fuel : nat) (q : Queue.t T) : outcome (Queue.t T) :=
  if Queue.isEmpty q then Ret q
  else
    match fuel with
    | O => OutOfFuel
    | Datatypes.S fuel => obind (Queue.dequeue q) (fun r => Queue_destructor fuel (snd r))
    end.

(** The items of a stack after a run, latest first: what was pushed and
    not popped. *)
Fixpoint pending_after (ops : list (stack_op T)) (pending : list T) : list T :=
  match ops with
  | [] => pending
  | Push x :: ops => pending_after ops (x :: pending)
  | Pop :: ops => pending_after ops (tail pending)
  end.

(** The items of a queue after a run, oldest first. *)
Fixpoint waiting_after (ops : list (queue_op T)) (waiting : list T) : list T :=
  match ops with
  | [] => waiting
  | Enqueue x :: ops => waiting_after ops (waiting ++ [x])
  | Dequeue :: ops => waiting_after ops (tail waiting)
  end.

(** The store of a container holds the nodes of its chain and nothing
    else. *)
Definition owns (h : gmap loc (Node T)) (cells : list (loc * T)) : Prop :=
  dom h = list_to_set cells.*1.

End Destructors.

(** [~Queue()] of Queue.cpp:
    [while (!isEmpty()) { Task* task = dequeue(); delete task; }] *)
Fixpoint TaskQueue_destructor_loop (fuel : nat) (q : Queue.t (option loc))
  : M World (Queue.t (option loc)) :=
  if TaskQueue.isEmpty q then ret q
  else
    match fuel with
    | O => out_of_fuel
    | Datatypes.S fuel =>
      (r <- TaskQueue.dequeue q ;;
       match fst r with
       | Some task => delete_Task task
       | None => ret tt                            (* delete nullptr; *)
       end ;;
       TaskQueue_destructor_loop fuel (snd r))%M
    end.

Definition TaskQueue_destructor (fuel : nat) (q : Queue.t (option loc))
  : M World (Queue.t (option loc)) :=
  (print stdout "[Queue]: Cleaning up memory..." ;;
   TaskQueue_destructor_loop fuel q)%M.

(** A caller that hands the tasks [ps] to a queue of Queue.cpp:
    [for (Task* p : ps) q.enqueue(p);] *)
Fixpoint TaskQueue_enqueue_all (ps : list loc) (q : Queue.t (option loc))
  : M World (Queue.t (option loc)) :=
  match ps with
  | [] => ret q
  | p :: ps => (q' <- TaskQueue.enqueue (Some p) q ;; TaskQueue_enqueue_all ps q')%M
  end.

(** The rows that [process_new_task_queue] inserts for the tasks [ts],
    taken in order, when the table generates [next_id] next and the clock
    reads [clk]: half a second passes after each task. *)
Fixpoint saved_rows (next_id clk : Z) (ts : list Task) : list Row :=
  match ts with
  | [] => []
  | t :: ts =>
    {| row_task_id := next_id;
       row_assignee_id := if assignee_id t =? 0 then None else Some (assignee_id t);
       row_title := title t; row_description := description t;
       row_status := status t; row_priority := priority t;
       row_created_at := clk / 1000 |}
    :: saved_rows (next_id + 1) (clk + 500) ts
  end.

(** The [Task] that [getPendingTasks] makes of a row: a NULL assignee
    reads as 0. *)
Definition task_of_row (r : Row) : Task :=
  Task_new (row_title r) (row_description r) (row_priority r) (row_status r)
    (row_task_id r) (default 0 (row_assignee_id r)).

(** One [new Task] per row, in order: the pointers and the store. *)
Fixpoint new_Tasks (rows : list Row) (o : gmap loc Task) : list loc * gmap loc Task :=
  match rows with
  | [] => ([], o)
  | r :: rest =>
    let p := fresh (dom o) in
    let '(ps, o') := new_Tasks rest (<[p := task_of_row r]> o) in
    (p :: ps, o')
  end.

(** The rows that [SELECT ... WHERE status = 'pending' ORDER BY priority,
    created_at] answers with. *)
Definition pending_rows (rows : list Row) : list Row :=
  DatabaseConnector.order_by (List.filter DatabaseConnector.is_pending rows).

(** [ORDER BY priority ASC, created_at ASC]: the row [a] may come before
    the row [b]. *)
Definition by_priority_then_age (a b : Row) : Prop :=
  row_priority a < row_priority b \/
  (row_priority a = row_priority b /\ row_created_at a <= row_created_at b).

(** The table after [UPDATE Tasks SET status = st WHERE task_id = id]. *)
Definition updated (id : Z) (st : string) (rows : list Row) : list Row :=
  map (fun r => if row_task_id r =? id then with_row_status st r else r) rows.

(** The [UndoAction] that [run_task_scheduler] pushes for the task [id]
    whose status was [old_status]. *)
Definition undo_update_status (id : Z) (old_status : string) : UndoAction :=
  mkUndoAction "update_status"
    (<["old_status" := old_status]> (<["task_id" := to_string id]> ∅)).

(** [main] for any tasks: each is submitted in turn,
    [manager.submit_new_task(title, desc, priority, user_id)], then the
    queue is persisted, the pending tasks are loaded and the scheduler
    runs. *)
Definition submitted_task (sub : string * string * Z * Z) : Task :=
  Task_new sub.1.1.1 sub.1.1.2 sub.1.2 "pending" 0 sub.2.

Fixpoint submit_all (subs : list (string * string * Z * Z)) : TaskManager.Method unit :=
  match subs with
  | [] => ret tt
  | sub :: subs =>
    (TaskManager.submit_new_task sub.1.1.1 sub.1.1.2 sub.1.2 sub.2 ;;
     submit_all subs)%M
  end.

Definition executed_all (subs : list (string * string * Z * Z)) (fuel : nat)
  : TaskManager.Method unit :=
  (submit_all subs ;;
   TaskManager.process_new_task_queue fuel ;;
   TaskManager.load_tasks_into_scheduler ;;
   TaskManager.run_task_scheduler fuel)%M.

(** The whole of [main]: the above, then one undo. *)
Definition pipeline_all (subs : list (string * string * Z * Z)) (fuel : nat)
  : TaskManager.Method unit :=
  (executed_all subs fuel ;;
   TaskManager.undo_last_action)%M.

(** The five tasks that [main] submits. *)
Definition main_submissions : list (string * string * Z * Z) :=
  [("Fix login bug (C++)", "Login page crashes", 1, 1);
   ("Deploy to prod (C++)", "Push v2.0", 2, 1);
   ("Update docs (C++)", "Add new API endpoints", 4, 2);
   ("Refactor legacy code (C++)", "Clean up utils.cpp", 5, 2);
   ("Email team about meeting (C++)", "10am Friday", 1, 1)].

(** The connection with its script of faults replaced. *)
Definition with_faults (fs : list bool) (c : Connection) : Connection :=
  {| Tasks := Tasks c; session := session c; autocommit := autocommit c;
     AUTO_INCREMENT := AUTO_INCREMENT c; LAST_INSERT_ID := LAST_INSERT_ID c;
     faults := fs |}.

(** * Properties *)

(** ** Size counters *)

Lemma int_incr_nat (n : nat) :
  Z.of_nat n < INT_MAX -> int_incr (Z.of_nat n) = Z.of_nat (Datatypes.S n).
Proof.
  unfold int_incr, wrap_int, INT_MAX. intros Hn.
  rewrite Z.mod_small by lia. lia.
Qed.

Lemma int_decr_nat (n : nat) :
  Z.of_nat (Datatypes.S n) <= INT_MAX -> int_decr (Z.of_nat (Datatypes.S n)) = Z.of_nat n.
Proof.
  unfold int_decr, wrap_int, INT_MAX. intros Hn.
  rewrite Z.mod_small by lia. lia.
Qed.

(** ** Chains of nodes *)

Section ChainFacts.
Context {T : Type}.
Implicit Types (h : gmap loc (Node T)) (cells : list (loc * T)).

Lemma is_chain_lookup h cells p :
  is_chain h cells -> p ∈ cells.*1 -> is_Some (h !! p).
Proof.
  induction cells as [|c rest IH]; simpl.
  - intros _ Hp. by apply elem_of_nil in Hp.
  - intros [Hc Hrest] Hp. apply elem_of_cons in Hp as [->|Hp]; eauto.
Qed.

Lemma new_Node_fresh h cells d :
  is_chain h cells -> (new_Node d h).1 ∉ cells.*1.
Proof.
  intros Hch Hin. destruct (is_chain_lookup _ _ _ Hch Hin) as [n Hn].
  unfold new_Node in Hn. simpl in Hn.
  assert (fresh (dom h) ∈ dom h) as Hd by (apply elem_of_dom; eauto).
  by apply is_fresh in Hd.
Qed.

(** A store that agrees with [h] on the nodes of the chain holds the
    same chain. *)
Lemma is_chain_agree h h' cells :
  (forall p, p ∈ cells.*1 -> h' !! p = h !! p) ->
  is_chain h cells -> is_chain h' cells.
Proof.
  induction cells as [|c rest IH]; simpl; [done|].
  intros Hag [Hc Hrest]. split.
  - rewrite Hag; [done | apply elem_of_cons; by left].
  - apply IH; [|done]. intros p Hp. apply Hag, elem_of_cons. by right.
Qed.

Lemma first_loc_app cells c : first_loc (cells ++ [c]) =
  match cells with [] => Some c.1 | c' :: _ => Some c'.1 end.
Proof. by destruct cells. Qed.

Lemma last_loc_snoc cells c : last_loc (cells ++ [c]) = Some c.1.
Proof. unfold last_loc. by rewrite last_snoc. Qed.

(** [tail->next = newNode]: linking a new node after the last one. *)
Lemma is_chain_link h cells tl y p d :
  is_chain h (cells ++ [(tl, y)]) ->
  NoDup (cells ++ [(tl, y)]).*1 ->
  p ∉ (cells ++ [(tl, y)]).*1 ->
  is_chain (<[tl := mkNode y (Some p)]> (<[p := mkNode d None]> h))
           ((cells ++ [(tl, y)]) ++ [(p, d)]).
Proof.
  induction cells as [|c rest IH]; simpl.
  - intros _ _ Hp. rewrite lookup_insert_eq. split; [done|].
    split; [|done]. simpl.
    rewrite lookup_insert_ne; [by rewrite lookup_insert_eq|].
    intros ->. apply Hp. apply elem_of_cons. by left.
  - intros [Hc Hch] Hnd Hp. apply NoDup_cons in Hnd as [Hc1 Hnd].
    apply not_elem_of_cons in Hp as [Hpc Hp].
    split; [|by apply IH].
    rewrite lookup_insert_ne.
    2:{ intros ->. apply Hc1. rewrite fmap_app. apply elem_of_app. right.
        apply elem_of_cons. by left. }
    rewrite lookup_insert_ne by done. rewrite Hc. f_equal. f_equal.
    rewrite <- app_assoc. by destruct rest.
Qed.

End ChainFacts.

(** ** Queue.h: first in, first out *)

Section QueueFacts.
Context {T : Type}.
Implicit Types (q : Queue.t T) (cells : list (loc * T)).

Lemma Queue_repr_new : Queue_repr (Queue.new (T:=T)) [].
Proof. split; simpl; [done | constructor | done | done | done | unfold INT_MAX; lia]. Qed.

Lemma is_chain_last (h : gmap loc (Node T)) cells tl y :
  is_chain h (cells ++ [(tl, y)]) -> h !! tl = Some (mkNode y None).
Proof.
  induction cells as [|c rest IH]; simpl; [by intros [? _] | by intros [_ ?]; auto].
Qed.

Lemma first_loc_app_ne cells cells' :
  cells <> [] -> first_loc (cells ++ cells') = first_loc cells.
Proof. by destruct cells. Qed.

Lemma Queue_enqueue_repr q cells d :
  Queue_repr q cells -> Z.of_nat (length cells) < INT_MAX ->
  exists q' p, Queue.enqueue d q = Ret q' /\ Queue_repr q' (cells ++ [(p, d)]).
Proof.
  intros [Hch Hnd Hhd Htl Hsz Hb] Hlt.
  pose proof (new_Node_fresh _ _ d Hch) as Hfresh.
  unfold Queue.enqueue, Queue.isEmpty. rewrite Hhd, Htl, Hsz.
  destruct (new_Node d (Queue.nodes q)) as [p h'] eqn:Hnew.
  unfold new_Node in Hnew. injection Hnew as Hp Hh'.
  rewrite Hp in Hh'. subst h'. simpl in Hfresh. clear Hp.
  assert (Z.of_nat (length (cells ++ [(p, d)])) = Z.of_nat (length cells) + 1)
    as Hlen by (rewrite length_app; simpl; lia).
  assert (int_incr (Z.of_nat (length cells)) = Z.of_nat (length (cells ++ [(p, d)])))
    as Hincr by (rewrite int_incr_nat by done; lia).
  destruct cells as [|c rest _] using rev_ind.
  - simpl. eexists _, p. split; [reflexivity|].
    split; simpl;
      [ split; [by rewrite lookup_insert_eq | done] | apply NoDup_singleton
      | done | done | reflexivity | unfold INT_MAX; lia ].
  - destruct c as [tl y].
    assert (rest ++ [(tl, y)] <> []) as Hne by (by destruct rest).
    destruct (first_loc (rest ++ [(tl, y)])) as [hd|] eqn:Hfirst;
      [|by destruct rest].
    rewrite last_loc_snoc. simpl.
    assert (tl <> p) as Htlp.
    { intros ->. apply Hfresh. rewrite fmap_app. apply elem_of_app. right.
      apply elem_of_cons. by left. }
    rewrite lookup_insert_ne by done.
    rewrite (is_chain_last _ _ _ _ Hch). simpl.
    eexists _, p. split; [reflexivity|]. split; simpl.
    + by apply (is_chain_link _ _ tl y p d).
    + rewrite fmap_app. apply NoDup_app. split; [done|].
      split; [|apply NoDup_singleton].
      intros x Hx Hx'. apply list_elem_of_singleton in Hx'. simpl in Hx'.
      subst x. by apply Hfresh.
    + by rewrite first_loc_app_ne.
    + by rewrite last_loc_snoc.
    + done.
    + lia.
Qed.

Lemma Queue_dequeue_empty q :
  Queue_repr q [] -> Queue.dequeue q = Raise (runtime_error "Queue is empty").
Proof.
  intros [_ _ Hhd _ _ _]. unfold Queue.dequeue, Queue.isEmpty. by rewrite Hhd.
Qed.

Lemma Queue_dequeue_repr q p x cells :
  Queue_repr q ((p, x) :: cells) ->
  exists q', Queue.dequeue q = Ret (x, q') /\ Queue_repr q' cells.
Proof.
  intros [[Hp Hch] Hnd Hhd Htl Hsz Hb]. simpl in *.
  apply NoDup_cons in Hnd as [Hpn Hnd].
  unfold Queue.dequeue, Queue.isEmpty. rewrite Hhd. simpl. rewrite Hp. simpl.
  eexists; split; [reflexivity|]. split; simpl.
  - apply (is_chain_agree (Queue.nodes q)); [|done].
    intros p' Hp'. apply lookup_delete_ne. by intros ->.
  - done.
  - done.
  - rewrite Htl. unfold last_loc, first_loc. by destruct cells.
  - rewrite Hsz. apply int_decr_nat. lia.
  - lia.
Qed.

Lemma Queue_run_repr (ops : list (queue_op T)) : forall q cells,
  Queue_repr q cells ->
  Z.of_nat (length cells + length (enqueued ops)) <= INT_MAX ->
  exists out q' cells',
    Queue_run ops q = Ret (out, q') /\
    Queue_repr q' cells' /\
    cells.*2 ++ enqueued ops = returned out ++ cells'.*2 /\
    (never_empty (length cells) ops = true ->
     length (returned out) = dequeues ops).
Proof.
  induction ops as [|[x|] ops IH]; intros q cells Hq Hb; simpl in *.
  - exists [], q, cells. by rewrite app_nil_r.
  - destruct (Queue_enqueue_repr q cells x Hq) as (q1 & p & -> & Hq1); [lia|].
    simpl. destruct (IH q1 _ Hq1) as (out & q' & cells' & -> & Hq' & Heq & Hne).
    { rewrite length_app. simpl. lia. }
    exists out, q', cells'. split; [done|]. split; [done|]. split.
    + rewrite <- Heq, fmap_app, <- app_assoc. done.
    + intros Hn. apply Hne. rewrite length_app. simpl.
      by replace (length cells + 1)%nat with (Datatypes.S (length cells)) by lia.
  - destruct cells as [|[p x] cells].
    + rewrite (Queue_dequeue_empty q Hq).
      destruct (IH q [] Hq Hb) as (out & q' & cells' & -> & Hq' & Heq & Hne).
      exists (None :: out), q', cells'. simpl.
      split; [done|]. split; [done|]. split; [done|]. intros Hn. discriminate.
    + destruct (Queue_dequeue_repr q p x cells Hq) as (q1 & -> & Hq1).
      destruct (IH q1 _ Hq1) as (out & q' & cells' & -> & Hq' & Heq & Hne).
      { simpl in Hb. lia. }
      exists (Some x :: out), q', cells'. simpl.
      split; [done|]. split; [done|]. split.
      * unfold returned in *. simpl. by rewrite <- Heq.
      * intros Hn. unfold returned, dequeues in *. simpl. f_equal. by apply Hne.
Qed.

End QueueFacts.

(** C6.  Whatever operations run on a new [Queue<T>], the values that
    [dequeue] returns are, in order, the first values that were enqueued:
    strict FIFO.  After [k] calls of [enqueue] and [j] calls of [dequeue]
    that returned, [size()] is [k - j]; and when no [dequeue] meets an
    empty queue, every [dequeue] returns, so [j] counts all of them.  The
    [int] counter is exact as long as [k] fits an [int]. *)
Theorem Queue_fifo {T : Type} (ops : list (queue_op T)) :
  Z.of_nat (length (enqueued ops)) <= INT_MAX ->
  exists out q,
    Queue_run ops Queue.new = Ret (out, q) /\
    returned out = take (length (returned out)) (enqueued ops) /\
    Queue.size q
      = Z.of_nat (length (enqueued ops)) - Z.of_nat (length (returned out)) /\
    (never_empty 0 ops = true -> length (returned out) = dequeues ops).
Proof.
  intros Hb.
  destruct (Queue_run_repr ops Queue.new [] Queue_repr_new)
    as (out & q & cells & Hrun & Hq & Heq & Hne); [simpl; lia|].
  exists out, q. simpl in Heq. split; [done|]. split; [|split; [|done]].
  - rewrite Heq. by rewrite take_app_length.
  - unfold Queue.size. rewrite (Queue_size _ _ Hq).
    apply (f_equal length) in Heq. rewrite length_app, length_fmap in Heq. lia.
Qed.

Lemma Queue_fifo_witness :
  exists out q,
    Queue_run [Enqueue 7; Enqueue 8; Dequeue; Enqueue 9; Dequeue] Queue.new
      = Ret (out, q) /\
    returned out = take (length (returned out)) [7; 8; 9] /\
    Queue.size q = 3 - Z.of_nat (length (returned out)) /\
    (true = true -> length (returned out) = 2%nat).
Proof.
  apply (Queue_fifo [Enqueue 7; Enqueue 8; Dequeue; Enqueue 9; Dequeue]).
  unfold INT_MAX. simpl. lia.
Defined.

(** ** Stack.h: last in, first out *)

Section StackFacts.
Context {T : Type}.
Implicit Types (s : Stack.t T) (cells : list (loc * T)).

Lemma Stack_repr_new : Stack_repr (Stack.new (T:=T)) [].
Proof. split; simpl; [done | constructor | done | done | unfold INT_MAX; lia]. Qed.

Lemma Stack_push_repr s cells d :
  Stack_repr s cells -> Z.of_nat (length cells) < INT_MAX ->
  exists p, Stack_repr (Stack.push d s) ((p, d) :: cells).
Proof.
  intros [Hch Hnd Htop Hsz Hb] Hlt.
  pose proof (new_Node_fresh _ _ d Hch) as Hfresh.
  unfold Stack.push.
  destruct (new_Node d (Stack.nodes s)) as [p h'] eqn:Hnew.
  unfold new_Node in Hnew. injection Hnew as Hp Hh'.
  rewrite Hp in Hh'. subst h'. simpl in Hfresh. clear Hp.
  exists p. split; simpl.
  - split.
    + rewrite alter_insert_eq, lookup_insert_eq. simpl. by rewrite Htop.
    + apply (is_chain_agree (Stack.nodes s)); [|done].
      intros p' Hp'. rewrite alter_insert_eq. apply lookup_insert_ne.
      by intros ->.
  - by apply NoDup_cons.
  - done.
  - rewrite Hsz, int_incr_nat by done. lia.
  - lia.
Qed.

Lemma Stack_pop_empty s :
  Stack_repr s [] -> Stack.pop s = Raise (runtime_error "Stack is empty").
Proof.
  intros [_ _ Htop _ _]. unfold Stack.pop, Stack.isEmpty. by rewrite Htop.
Qed.

Lemma Stack_pop_repr s p x cells :
  Stack_repr s ((p, x) :: cells) ->
  exists s', Stack.pop s = Ret (x, s') /\ Stack_repr s' cells.
Proof.
  intros [[Hp Hch] Hnd Htop Hsz Hb]. simpl in *.
  apply NoDup_cons in Hnd as [Hpn Hnd].
  unfold Stack.pop, Stack.isEmpty. rewrite Htop. simpl. rewrite Hp. simpl.
  eexists; split; [reflexivity|]. split; simpl.
  - apply (is_chain_agree (Stack.nodes s)); [|done].
    intros p' Hp'. apply lookup_delete_ne. by intros ->.
  - done.
  - done.
  - rewrite Hsz. apply int_decr_nat. lia.
  - lia.
Qed.

Lemma Stack_run_repr (ops : list (stack_op T)) : forall s cells,
  Stack_repr s cells ->
  Z.of_nat (length cells + length (pushed ops)) <= INT_MAX ->
  exists s' cells',
    Stack_run ops s = Ret (lifo ops cells.*2, s') /\ Stack_repr s' cells'.
Proof.
  induction ops as [|[x|] ops IH]; intros s cells Hs Hb; simpl in *.
  - by exists s, cells.
  - destruct (Stack_push_repr s cells x Hs) as (p & Hs1); [lia|].
    destruct (IH _ _ Hs1) as (s' & cells' & Hrun & Hs'); [simpl; lia|].
    by exists s', cells'.
  - destruct cells as [|[p x] cells]; simpl.
    + rewrite (Stack_pop_empty s Hs).
      destruct (IH s [] Hs Hb) as (s' & cells' & -> & Hs').
      by exists s', cells'.
    + destruct (Stack_pop_repr s p x cells Hs) as (s1 & -> & Hs1).
      destruct (IH s1 _ Hs1) as (s' & cells' & -> & Hs'); [simpl in Hb; lia|].
      by exists s', cells'.
Qed.

Lemma pushed_pushes (xs : list T) (pops : list (stack_op T)) :
  pushed (map Push xs ++ pops) = xs ++ pushed pops.
Proof. induction xs as [|x xs IH]; simpl; [done | by rewrite <- IH]. Qed.

Lemma pushed_pops (n : nat) : pushed (replicate n (@Pop T)) = [].
Proof. by induction n. Qed.

Lemma lifo_pushes (xs : list T) : forall ops pending,
  lifo (map Push xs ++ ops) pending = lifo ops (rev xs ++ pending).
Proof.
  induction xs as [|x xs IH]; intros ops pending; simpl; [done|].
  by rewrite IH, <- app_assoc.
Qed.

Lemma lifo_pops (xs : list T) :
  lifo (replicate (length xs) Pop) xs = map Some xs.
Proof. induction xs as [|x xs IH]; simpl; [done | by rewrite IH]. Qed.

End StackFacts.

(** C7.  Whatever operations run on a new [Stack<T>], each [pop] returns
    the latest item pushed that was not yet popped, and throws when there
    is none; in particular, items pushed one after the other and then all
    popped come back in exactly the reverse order.  The [int] counter
    plays no part in the order; the bound keeps it from overflowing. *)
Theorem Stack_lifo {T : Type} (ops : list (stack_op T)) :
  Z.of_nat (length (pushed ops)) <= INT_MAX ->
  (exists s, Stack_run ops Stack.new = Ret (lifo ops [], s)) /\
  (forall xs, ops = map Push xs ++ replicate (length xs) Pop ->
     exists s, Stack_run ops Stack.new = Ret (map Some (rev xs), s)).
Proof.
  intros Hb.
  destruct (Stack_run_repr ops Stack.new [] Stack_repr_new)
    as (s & cells & Hrun & Hs); [simpl; lia|].
  simpl in Hrun. split; [by exists s|].
  intros xs ->. exists s. rewrite Hrun.
  by rewrite lifo_pushes, app_nil_r, <- length_rev, lifo_pops.
Qed.

Lemma Stack_lifo_witness :
  (exists s, Stack_run [Push 1; Push 2; Push 3; Pop; Pop; Pop] Stack.new
             = Ret ([Some 3; Some 2; Some 1], s)) /\
  (forall xs, [Push 1; Push 2; Push 3; Pop; Pop; Pop]
              = map Push xs ++ replicate (length xs) Pop ->
     exists s, Stack_run [Push 1; Push 2; Push 3; Pop; Pop; Pop] Stack.new
               = Ret (map Some (rev xs), s)).
Proof.
  apply (Stack_lifo [Push 1; Push 2; Push 3; Pop; Pop; Pop]).
  unfold INT_MAX. simpl. lia.
Defined.

(** ** The scheduler: smallest key first, ties in insertion order *)

Section PriorityQueueFacts.
Context {T : Type}.
Implicit Types (l : list (Z * T)) (e m : Z * T) (k : Z).

Lemma min_key_le l : forall k,
  PriorityQueue.min_key k l <= k /\
  Forall (fun e => PriorityQueue.min_key k l <= fst e) l.
Proof.
  induction l as [|e l IH]; intros k; simpl; [split; [lia | constructor]|].
  destruct (IH (if fst e <? k then fst e else k)) as [Hle Hall].
  destruct (Z.ltb_spec (fst e) k); split; try lia.
  - constructor; [lia | done].
  - constructor; [lia | done].
Qed.

Lemma min_key_in l : forall k,
  PriorityQueue.min_key k l = k \/
  Exists (fun e => fst e = PriorityQueue.min_key k l) l.
Proof.
  induction l as [|e l IH]; intros k; simpl; [by left|].
  destruct (IH (if fst e <? k then fst e else k)) as [Heq | Hex].
  - destruct (Z.ltb_spec (fst e) k).
    + right. constructor. by rewrite Heq.
    + by left.
  - right. by apply Exists_cons_tl.
Qed.

Lemma take_first_spec k l :
  Exists (fun e => fst e = k) l ->
  exists m l1 l2,
    PriorityQueue.take_first k l = Some (m, l1 ++ l2) /\
    l = l1 ++ m :: l2 /\ fst m = k /\ Forall (fun e => fst e <> k) l1.
Proof.
  induction l as [|e l IH]; intros Hex; [by apply Exists_nil in Hex|].
  simpl. destruct (Z.eqb_spec (fst e) k) as [Heq | Hne].
  - exists e, [], l. by repeat split.
  - apply Exists_cons in Hex as [Hex | Hex]; [done|].
    destruct (IH Hex) as (m & l1 & l2 & -> & -> & Hm & Hl1).
    exists m, (e :: l1), l2. repeat split; try done. by constructor.
Qed.

Lemma extract_min_spec e l :
  exists m l1 l2,
    PriorityQueue.extract_min (PriorityQueue.mk (e :: l))
      = Ret (m, PriorityQueue.mk (l1 ++ l2)) /\
    e :: l = l1 ++ m :: l2 /\
    Forall (fun x => fst m < fst x) l1 /\
    Forall (fun x => fst m <= fst x) l2.
Proof.
  unfold PriorityQueue.extract_min. simpl PriorityQueue.entries.
  set (k := PriorityQueue.min_key (fst e) l).
  destruct (min_key_le l (fst e)) as [Hke Hkl]. fold k in Hke, Hkl.
  assert (Forall (fun x => k <= fst x) (e :: l)) as Hall by (by constructor).
  assert (Exists (fun x => fst x = k) (e :: l)) as Hex.
  { destruct (min_key_in l (fst e)) as [Heq | Hex]; fold k in Heq || fold k in Hex.
    - by constructor.
    - by apply Exists_cons_tl. }
  destruct (take_first_spec k (e :: l) Hex) as (m & l1 & l2 & Htake & Heq & Hm & Hl1).
  exists m, l1, l2. fold k. rewrite Htake. split; [done|]. split; [done|].
  rewrite Heq in Hall. apply Forall_app in Hall as [Hall1 Hall2].
  apply Forall_cons in Hall2 as [_ Hall2]. rewrite Hm. split.
  - apply Forall_forall. intros x Hx.
    rewrite Forall_forall in Hall1, Hl1.
    specialize (Hall1 x Hx). specialize (Hl1 x Hx). lia.
  - done.
Qed.

Lemma filter_same_key_above k l :
  Forall (fun x => k < fst x) l -> List.filter (same_key k) l = [].
Proof.
  induction 1 as [|x l Hx Hl IH]; simpl; [done|].
  unfold same_key at 1. destruct (Z.eqb_spec (fst x) k); [lia | done].
Qed.

Lemma extract_all_spec (fuel : nat) : forall l,
  (length l <= fuel)%nat ->
  exists out,
    extract_all fuel (PriorityQueue.mk l) = Ret out /\
    Permutation out l /\
    StronglySorted (fun a b => fst a <= fst b) out /\
    forall k, List.filter (same_key k) out = List.filter (same_key k) l.
Proof.
  induction fuel as [|fuel IH]; intros l Hlen.
  - destruct l; [|simpl in Hlen; lia]. exists []. simpl.
    repeat split; [done | constructor].
  - destruct l as [|e l].
    { exists []. simpl. repeat split; [done | constructor]. }
    destruct (extract_min_spec e l) as (m & l1 & l2 & Hex & Heq & Hl1 & Hl2).
    destruct (IH (l1 ++ l2)) as (out & Hout & Hperm & Hsorted & Hstable).
    { apply (f_equal length) in Heq. rewrite length_app in *. simpl in *. lia. }
    exists (m :: out). cbn [extract_all PriorityQueue.isEmpty PriorityQueue.entries].
    rewrite Hex. cbn [obind fst snd]. rewrite Hout. cbn [obind].
    split; [done|]. rewrite Heq. split; [|split].
    + rewrite Hperm. apply Permutation_middle.
    + constructor; [done|].
      apply (Permutation_Forall (Permutation_sym Hperm)).
      apply Forall_app. split; [|done].
      eapply Forall_impl; [exact Hl1|]. simpl. intros; lia.
    + intros k. simpl. rewrite Hstable, !List.filter_app. simpl.
      destruct (same_key k m) eqn:Hk; [|done].
      unfold same_key in Hk. apply Z.eqb_eq in Hk. subst k.
      by rewrite (filter_same_key_above _ _ Hl1).
Qed.

Lemma insert_all_entries (items : list (Z * T)) : forall q,
  PriorityQueue.entries (insert_all items q) = PriorityQueue.entries q ++ items.
Proof.
  induction items as [|[k x] items IH]; intros q; simpl.
  - by rewrite app_nil_r.
  - rewrite IH. simpl. by rewrite <- app_assoc.
Qed.

End PriorityQueueFacts.

(** C4.  Items inserted into the scheduler with integer keys and then
    extracted until it is empty come out in non-decreasing order of key,
    and the items of any one key come out in the order of their insertion;
    nothing is lost or invented on the way. *)
Theorem PriorityQueue_order_stable {T : Type} (items : list (Z * T)) :
  exists out,
    extract_all (length items) (insert_all items PriorityQueue.new) = Ret out /\
    Permutation out items /\
    StronglySorted (fun a b => fst a <= fst b) out /\
    forall k, List.filter (same_key k) out = List.filter (same_key k) items.
Proof.
  pose proof (insert_all_entries items PriorityQueue.new) as Hentries.
  destruct (insert_all items PriorityQueue.new) as [l].
  simpl in Hentries. subst l.
  by apply extract_all_spec.
Qed.

(** ** The connector *)

(** Symbolic execution of a method: unfold the computation, then decide
    the calls into the connector one by one. *)
Ltac exec :=
  cbv beta iota zeta delta
    [DatabaseConnector.createTask DatabaseConnector.updateTaskStatus
     DatabaseConnector.delete_pointer DatabaseConnector.pstmt
     DatabaseConnector.stmt DatabaseConnector.res DatabaseConnector.set_pstmt
     DatabaseConnector.set_stmt DatabaseConnector.set_res
     try_catch_SQLException bind ret field deref assign
     gets modify modify_world modify_con print sleep_for connector_call throw
     undefined lift_outcome liftW delete_Task
     set_con set_objs world set_world World_HasWorld frame_HasWorld
     with_locals get_local set_local setAutoCommit commit rollback
     DatabaseConnector.INSERT_INTO_Tasks DatabaseConnector.SELECT_LAST_INSERT_ID
     DatabaseConnector.SELECT_status_FOR_UPDATE DatabaseConnector.UPDATE_status
     write_rows con objs console clock_ms faults Tasks session autocommit
     AUTO_INCREMENT LAST_INSERT_ID fst snd].

Ltac next_fault fs :=
  lazymatch goal with
  | |- context [match fs with nil => _ | cons _ _ => _ end] =>
    destruct fs as [|[|] fs]
  end.

(** C10.  [createTask] on a new task, the connector throwing in
    [createStatement], the call that follows [pstmt->execute()] and
    [delete pstmt]: the call does not return [nullptr].  The handler
    deletes [pstmt] a second time, which is undefined behaviour; by then
    the row is inserted and committed, while the object still has the
    identifier 0. *)
Theorem createTask_fails_after_insert :
  exists w',
    DatabaseConnector.createTask 1%positive
      (start (connected [] 1 (replicate 7 false ++ [true]))
         {[ 1%positive := deploy_task 0 ]})
    = (Undefined, w') /\
    Tasks (con w') = [deploy_row 1 "pending"] /\
    objs w' = {[ 1%positive := deploy_task 0 ]} /\
    head (console w') = Some (stderr, "Failed to create task: ").
Proof.
  eexists. split; [vm_compute; reflexivity|]. repeat split.
Qed.

(** [createTask] when every call into the connector succeeds. *)
Lemma createTask_success (w : World) (task : loc) (t : Task) :
  faults (con w) = [] -> objs w !! task = Some t ->
  exists cons',
    DatabaseConnector.createTask task w
    = (Ret (Some task),
       {| con := {| Tasks := if autocommit (con w)
                             then session (con w) ++ [created_row w t]
                             else Tasks (con w);
                    session := session (con w) ++ [created_row w t];
                    autocommit := autocommit (con w);
                    AUTO_INCREMENT := AUTO_INCREMENT (con w) + 1;
                    LAST_INSERT_ID := AUTO_INCREMENT (con w);
                    faults := [] |};
          objs := <[task := with_task_id (AUTO_INCREMENT (con w)) t]> (objs w);
          console := cons';
          clock_ms := clock_ms w |}).
Proof.
  intros Hf Hobj. destruct w as [c o cons clk]. destruct c as [T s ac ai li fs].
  unfold created_row. simpl in *. subst fs.
  repeat (exec;
          first [ rewrite Hobj | rewrite lookup_insert_eq
                | lazymatch goal with
                  | |- context [assignee_id t =? 0] => destruct (assignee_id t =? 0)
                  end ]).
  all: eexists; reflexivity.
Qed.

(** Symbolic execution of [getPendingTasks]. *)
Ltac exec_get :=
  cbv beta iota zeta delta
    [DatabaseConnector.getPendingTasks DatabaseConnector.getPendingTasks_rows
     DatabaseConnector.SELECT_pending new_Task
     try_catch_SQLException bind ret field deref assign
     gets modify modify_world modify_con print sleep_for connector_call throw
     undefined lift_outcome liftW delete_Task
     set_con set_objs world set_world World_HasWorld frame_HasWorld
     with_locals get_local set_local 
     write_rows con objs console clock_ms faults Tasks session autocommit
     AUTO_INCREMENT LAST_INSERT_ID fst snd app].

(** [getPendingTasks] when every call into the connector succeeds and one
    row is pending: one [Task] object is made from it. *)
Lemma getPendingTasks_one (w : World) (r : Row) :
  faults (con w) = [] ->
  List.filter DatabaseConnector.is_pending (session (con w)) = [r] ->
  exists cons',
    DatabaseConnector.getPendingTasks w
    = (Ret [fresh (dom (objs w))],
       {| con := con w;
          objs := <[fresh (dom (objs w)) :=
                      Task_new (row_title r) (row_description r) (row_priority r)
                        (row_status r) (row_task_id r)
                        (default 0 (row_assignee_id r))]> (objs w);
          console := cons';
          clock_ms := clock_ms w |}).
Proof.
  intros Hf Hfilter. destruct w as [c o cons clk]. destruct c as [T s ac ai li fs].
  simpl in *. subst fs.
  exec_get. rewrite Hfilter.
  cbn [DatabaseConnector.order_by foldr DatabaseConnector.order_insert].
  exec_get. eexists. reflexivity.
Qed.

Lemma status_of_Some (id : Z) (rows : list Row) (st : string) :
  status_of id rows = Some st ->
  exists r rs,
    List.filter (fun r => row_task_id r =? id) rows = r :: rs /\ row_status r = st.
Proof.
  unfold status_of. destruct (List.filter _ rows) as [|r rs]; [done|].
  simpl. intros [= <-]. by exists r, rs.
Qed.

(** The status that [updateTaskStatus] writes into the rows of [id]. *)
Lemma status_of_update (id : Z) (new_status : string) (rows : list Row) (st : string) :
  status_of id rows = Some st ->
  status_of id
    (map (fun r => if row_task_id r =? id then with_row_status new_status r else r) rows)
  = Some new_status.
Proof.
  unfold status_of. induction rows as [|r rows IH]; simpl; [done|].
  destruct (row_task_id r =? id) eqn:Hid; simpl.
  - by rewrite Hid.
  - rewrite Hid. exact IH.
Qed.

(** A call of [updateTaskStatus] in which every call into the connector
    succeeds, on a row that exists: the row is updated and committed, and
    the status it had is returned. *)
Lemma updateTaskStatus_success (w : World) (id : Z) (new_status st : string) :
  faults (con w) = [] ->
  status_of id (session (con w)) = Some st ->
  exists cons',
    DatabaseConnector.updateTaskStatus id new_status w
    = (Ret (true, st),
       {| con := {| Tasks := map (fun r => if row_task_id r =? id
                                           then with_row_status new_status r else r)
                                 (session (con w));
                    session := map (fun r => if row_task_id r =? id
                                             then with_row_status new_status r else r)
                                   (session (con w));
                    autocommit := true;
                    AUTO_INCREMENT := AUTO_INCREMENT (con w);
                    LAST_INSERT_ID := LAST_INSERT_ID (con w);
                    faults := [] |};
          objs := objs w; console := cons'; clock_ms := clock_ms w |}).
Proof.
  intros Hf Hst. destruct w as [c o cons clk]. destruct c as [T s ac ai li fs].
  simpl in *. subst fs.
  destruct (status_of_Some _ _ _ Hst) as (r & rs & Hfilter & <-).
  exec. rewrite Hfilter. exec. eexists. reflexivity.
Qed.

(** A call of [updateTaskStatus] for an identifier that no row has: the
    [std::runtime_error] thrown in the [try] block passes the handler for
    [sql::SQLException] and leaves the function, with autocommit still
    off. *)
Lemma updateTaskStatus_not_found (w : World) (id : Z) (new_status : string) :
  faults (con w) = [] ->
  List.filter (fun r => row_task_id r =? id) (session (con w)) = [] ->
  exists w',
    DatabaseConnector.updateTaskStatus id new_status w
      = (Raise (runtime_error "Task not found"), w') /\
    Tasks (con w') = Tasks (con w) /\
    autocommit (con w') = false.
Proof.
  intros Hf Hfilter. destruct w as [c o cons clk]. destruct c as [T s ac ai li fs].
  simpl in *. subst fs. exec. rewrite Hfilter. exec.
  eexists. split; [reflexivity|]. by cbv beta iota.
Qed.

(** A call of [updateTaskStatus] in which one of the calls into the
    connector up to and including [commit()] (the eleven first) throws:
    the table is as before, and the call returns [false] with the status
    read, or the empty string when the status was not read yet. *)
Lemma updateTaskStatus_rolled_back (w : World) (id : Z) (new_status st : string)
    (n : nat) (rest : list bool) :
  status_of id (session (con w)) = Some st ->
  (n <= 10)%nat ->
  faults (con w) = replicate n false ++ true :: rest ->
  exists w',
    DatabaseConnector.updateTaskStatus id new_status w
      = (Ret (false, if (n <? 6)%nat then "" else st), w') /\
    Tasks (con w') = Tasks (con w) /\
    objs w' = objs w /\ clock_ms w' = clock_ms w.
Proof.
  intros Hst Hn Hf. destruct w as [c o cons clk]. destruct c as [T s ac ai li fs].
  cbn [con session faults] in Hst, Hf.
  destruct (status_of_Some _ _ _ Hst) as (r & rs & Hfilter & <-).
  do 11 (destruct n as [|n];
         [ cbn [replicate app] in Hf; subst fs;
           exec; rewrite ?Hfilter; cbv beta iota delta [List.map]; exec;
           next_fault rest; exec; try (next_fault rest; exec);
           (eexists; split; [reflexivity|]; split; [|split]; reflexivity) |]).
  lia.
Qed.

(** A call of [updateTaskStatus] in which the commit succeeds and the call
    after it, [setAutoCommit(true)], throws: the update is committed, and
    the call returns [false]. *)
Lemma updateTaskStatus_committed_then_failed (w : World) (id : Z)
    (new_status st : string) (rest : list bool) :
  status_of id (session (con w)) = Some st ->
  faults (con w) = replicate 11 false ++ true :: rest ->
  exists w',
    DatabaseConnector.updateTaskStatus id new_status w = (Ret (false, st), w') /\
    Tasks (con w') =
      map (fun r => if row_task_id r =? id then with_row_status new_status r else r)
          (session (con w)).
Proof.
  intros Hst Hf. destruct w as [c o cons clk]. destruct c as [T s ac ai li fs].
  cbn [con session faults replicate app] in Hst, Hf. subst fs.
  destruct (status_of_Some _ _ _ Hst) as (r & rs & Hfilter & <-).
  exec; rewrite Hfilter; cbv beta iota delta [List.map]; exec.
  next_fault rest; exec; try (next_fault rest; exec);
    (eexists; split; reflexivity).
Qed.

(** [updateTaskStatus] touches neither the [Task] objects nor the clock,
    whatever the connector does. *)
Lemma updateTaskStatus_frame (id : Z) (new_status : string) (w : World) :
  objs (DatabaseConnector.updateTaskStatus id new_status w).2 = objs w /\
  clock_ms (DatabaseConnector.updateTaskStatus id new_status w).2 = clock_ms w.
Proof.
  destruct w as [c o cons clk]. destruct c as [T s ac ai li fs].
  repeat (exec;
          first [ next_fault fs
                | lazymatch goal with
                  | |- context [List.filter ?f s] =>
                    destruct (List.filter f s) as [|r rs]; cbn [List.map]
                  end ]).
  all: by cbv beta iota.
Qed.

(** C2.  On a table whose only row has identifier 1, the call
    [updateTaskStatus(999, "in_progress")] does not return: the
    [std::runtime_error] for the missing row leaves the function.  The
    table is as before, and the connection stays with autocommit off. *)
Theorem updateTaskStatus_missing_row_throws :
  exists w',
    DatabaseConnector.updateTaskStatus 999 "in_progress"
      (start (connected [deploy_row 1 "pending"] 2 []) ∅)
    = (Raise (runtime_error "Task not found"), w') /\
    Tasks (con w') = [deploy_row 1 "pending"] /\
    autocommit (con w') = false.
Proof. eexists. split; [vm_compute; reflexivity|]. split; reflexivity. Qed.

(** C3.  Two calls of [updateTaskStatus] that fail otherwise than the
    claim has it.  On a table whose row 1 is [pending], the call
    [updateTaskStatus(1, "in_progress")] in which the connector throws in
    [setAutoCommit(true)], its twelfth call, right after the commit,
    returns [false] with the previous status although the row now reads
    [in_progress].  On an empty table, the call
    [updateTaskStatus(7, "completed")] reports nothing: it throws. *)
Theorem updateTaskStatus_false_after_commit :
  (exists w',
     DatabaseConnector.updateTaskStatus 1 "in_progress"
       (start (connected [deploy_row 1 "pending"] 2 (replicate 11 false ++ [true])) ∅)
     = (Ret (false, "pending"), w') /\
     status_of 1 (Tasks (con w')) = Some "in_progress") /\
  (exists w',
     DatabaseConnector.updateTaskStatus 7 "completed" (start (connected [] 1 []) ∅)
     = (Raise (runtime_error "Task not found"), w')).
Proof.
  split.
  - eexists. split; [vm_compute; reflexivity|]. reflexivity.
  - eexists. vm_compute. reflexivity.
Qed.

(** ** The orchestrator *)

(** Symbolic execution of a method of [TaskManager], the calls of the
    connector's methods left as they are. *)
Ltac exec_tm :=
  cbv beta iota zeta delta
    [TaskManager.run_task_scheduler_body TaskManager.run_task_scheduler_complete
     TaskManager.undo_last_action TaskManager.separator
     TaskManager.set_task_scheduler TaskManager.set_undo_stack
     TaskManager.set_new_task_queue
     bind ret field deref assign
     gets modify modify_world print sleep_for throw
     undefined lift_outcome liftW delete_Task
     set_objs world set_world World_HasWorld frame_HasWorld
     get_local set_local
     con objs console clock_ms fst snd].

(** C9.  [undo_last_action] on an empty undo stack returns normally after
    writing "Nothing to undo.": the connection, with its tables and the
    script of what its calls will do, is untouched, so no update was asked
    of it, and the [TaskManager] is as before. *)
Theorem undo_last_action_empty (w : World) (this : TaskManager.t) :
  Stack.isEmpty (TaskManager.undo_stack this) = true ->
  TaskManager.undo_last_action (w, this) = (Ret tt, (nothing_to_undo w, this)).
Proof.
  intros Hempty. destruct w as [c o cons clk]. exec_tm. rewrite Hempty.
  reflexivity.
Qed.

Lemma undo_last_action_empty_witness :
  TaskManager.undo_last_action
    (start (connected [deploy_row 1 "completed"] 2 []) ∅, TaskManager.new)
  = (Ret tt, (nothing_to_undo (start (connected [deploy_row 1 "completed"] 2 []) ∅),
              TaskManager.new)).
Proof.
  exact (undo_last_action_empty
           (start (connected [deploy_row 1 "completed"] 2 []) ∅)
           TaskManager.new eq_refl).
Defined.

(** C8, as the code has it.  [dequeue] on an empty [Queue<T>] and [pop]
    and [peek] on an empty [Stack<T>] throw [std::runtime_error]; the
    [Queue] of Queue.cpp returns [nullptr] instead and leaves the queue
    and the world as they are. *)
Theorem empty_container_removal {T : Type} (q : Queue.t T) (s : Stack.t T)
    (tq : Queue.t (option loc)) (w : World) :
  Queue.isEmpty q = true -> Stack.isEmpty s = true -> TaskQueue.isEmpty tq = true ->
  Queue.dequeue q = Raise (runtime_error "Queue is empty") /\
  Stack.pop s = Raise (runtime_error "Stack is empty") /\
  Stack.peek s = Raise (runtime_error "Stack is empty") /\
  TaskQueue.dequeue tq w = (Ret (None, tq), w).
Proof.
  intros Hq Hs Htq.
  unfold Queue.dequeue, Stack.pop, Stack.peek, TaskQueue.dequeue.
  by rewrite Hq, Hs, Htq.
Qed.

Lemma empty_container_removal_witness :
  Queue.dequeue (Queue.new (T:=Z)) = Raise (runtime_error "Queue is empty") /\
  Stack.pop (Stack.new (T:=Z)) = Raise (runtime_error "Stack is empty") /\
  Stack.peek (Stack.new (T:=Z)) = Raise (runtime_error "Stack is empty") /\
  TaskQueue.dequeue TaskQueue.new (start (connected [] 1 []) ∅)
    = (Ret (None, TaskQueue.new), start (connected [] 1 []) ∅).
Proof.
  exact (empty_container_removal Queue.new Stack.new TaskQueue.new
           (start (connected [] 1 []) ∅) eq_refl eq_refl eq_refl).
Defined.

(** C8, as the claim has it, fails on Queue.cpp: [dequeue] on its empty
    queue returns a value, [nullptr], and signals nothing. *)
Lemma TaskQueue_dequeue_empty_returns :
  TaskQueue.dequeue TaskQueue.new (start (connected [] 1 []) ∅)
    = (Ret (None, TaskQueue.new), start (connected [] 1 []) ∅) /\
  ~ exists e w',
      TaskQueue.dequeue TaskQueue.new (start (connected [] 1 []) ∅) = (Raise e, w').
Proof.
  split; [reflexivity|]. intros (e & w' & He). discriminate He.
Qed.





(** ** [std::stoi] reads back what [std::to_string] wrote *)

Ltac eval_digit :=
  repeat match goal with
  | |- context [Z.of_nat (nat_of_ascii ?c) - 48] =>
    let v := eval vm_compute in (Z.of_nat (nat_of_ascii c) - 48) in
    change (Z.of_nat (nat_of_ascii c) - 48) with v
  end.

Lemma digits_value_acc (d : Decimal.uint) : forall acc : positive,
  digits_value (NilEmpty.string_of_uint d) (Some (Z.pos acc))
  = Some (Z.pos (Pos.of_uint_acc d acc)).
Proof.
  induction d; intros acc; simpl; try done;
    rewrite <- IHd; f_equal; f_equal; eval_digit; lia.
Qed.

Lemma digits_value_zero (d : Decimal.uint) :
  digits_value (NilEmpty.string_of_uint d) (Some 0)
  = Some (Z.of_N (Pos.of_uint d)).
Proof.
  induction d; simpl; try done; eval_digit;
    first [ exact IHd | apply (digits_value_acc d) ].
Qed.

Lemma digits_value_uint (d : Decimal.uint) :
  d <> Decimal.Nil ->
  digits_value (NilEmpty.string_of_uint d) None = Some (Z.of_N (Pos.of_uint d)).
Proof.
  destruct d; intros Hd; [done|..]; simpl; eval_digit;
    first [ apply digits_value_zero | apply (digits_value_acc d) ].
Qed.

Lemma string_of_uint_head (d : Decimal.uint) :
  d <> Decimal.Nil ->
  exists c r, NilEmpty.string_of_uint d = String c r /\
    isspace c = false /\ c <> "-"%char /\ c <> "+"%char.
Proof.
  destruct d; intros Hd; [done|..]; simpl; eexists _, _; (split; [reflexivity|]);
    repeat split; discriminate.
Qed.

Lemma stoi_digits (d : Decimal.uint) :
  d <> Decimal.Nil ->
  Z.of_N (Pos.of_uint d) <= INT_MAX ->
  stoi (NilEmpty.string_of_uint d) = Ret (Z.of_N (Pos.of_uint d)).
Proof.
  intros Hd Hmax.
  pose proof (digits_value_uint d Hd) as Hv.
  destruct (string_of_uint_head d Hd) as (c & r & Hs & Hsp & Hm & Hp).
  unfold stoi. rewrite Hs in *. simpl skip_space. rewrite Hsp.
  assert (match String c r with
          | String "-" r0 => (true, r0)
          | String "+" r0 => (false, r0)
          | _ => (false, String c r)
          end = (false, String c r)) as ->.
  { destruct c as [[|] [|] [|] [|] [|] [|] [|] [|]]; try reflexivity; congruence. }
  rewrite Hv.
  assert (INT_MIN <= Z.of_N (Pos.of_uint d)) by (unfold INT_MIN; lia).
  destruct (Z.leb_spec INT_MIN (Z.of_N (Pos.of_uint d))); [|lia].
  destruct (Z.leb_spec (Z.of_N (Pos.of_uint d)) INT_MAX); [|lia].
  reflexivity.
Qed.

Lemma stoi_to_string (z : Z) :
  INT_MIN <= z <= INT_MAX -> stoi (to_string z) = Ret z.
Proof.
  intros [Hmin Hmax]. unfold to_string. destruct z as [|p|p]; simpl Z.to_int.
  - reflexivity.
  - unfold NilZero.string_of_int, NilZero.string_of_uint.
    pose proof (Unsigned.to_uint_nonnil p) as Hnil.
    pose proof (Unsigned.of_to p) as Hof.
    destruct (Pos.to_uint p) eqn:Hd; [done|..]; rewrite <- Hd in *;
      rewrite stoi_digits; rewrite ?Hof; try done.
  - unfold NilZero.string_of_int, NilZero.string_of_uint.
    pose proof (Unsigned.to_uint_nonnil p) as Hnil.
    pose proof (Unsigned.of_to p) as Hof.
    pose proof (digits_value_uint _ Hnil) as Hv. rewrite Hof in Hv.
    assert (String "-" (match Pos.to_uint p with
                        | Decimal.Nil => "0"%string
                        | _ => NilEmpty.string_of_uint (Pos.to_uint p)
                        end)
            = String "-" (NilEmpty.string_of_uint (Pos.to_uint p))) as ->.
    { destruct (Pos.to_uint p); done. }
    unfold stoi. simpl skip_space. cbn iota. rewrite Hv.
    change (- Z.of_N (N.pos p)) with (Z.neg p).
    destruct (Z.leb_spec INT_MIN (Z.neg p)); [|lia].
    destruct (Z.leb_spec (Z.neg p) INT_MAX); [|lia].
    reflexivity.
Qed.

(** ** One task through the whole pipeline *)

Lemma filter_none {A} (P : A -> bool) (l : list A) :
  Forall (fun x => P x = false) l -> List.filter P l = [].
Proof. induction 1 as [|x l Hx _ IH]; simpl; [done | by rewrite Hx]. Qed.

Lemma filter_pending_snoc (rows : list Row) (r : Row) :
  Forall (fun x => row_status x <> "pending") rows ->
  row_status r = "pending" ->
  List.filter DatabaseConnector.is_pending (rows ++ [r]) = [r].
Proof.
  intros Hrows Hr. rewrite List.filter_app, filter_none.
  - simpl. unfold DatabaseConnector.is_pending. by rewrite Hr.
  - eapply Forall_impl; [exact Hrows|]. intros x Hx. simpl in Hx.
    unfold DatabaseConnector.is_pending.
    by destruct (String.eqb_spec (row_status x) "pending").
Qed.

Lemma filter_id_snoc (rows : list Row) (id : Z) (r : Row) :
  Forall (fun x => row_task_id x <> id) rows ->
  row_task_id r = id ->
  List.filter (fun x => row_task_id x =? id) (rows ++ [r]) = [r].
Proof.
  intros Hrows Hr. rewrite List.filter_app, filter_none.
  - simpl. by rewrite Hr, Z.eqb_refl.
  - eapply Forall_impl; [exact Hrows|]. intros x Hx. simpl in Hx.
    by destruct (Z.eqb_spec (row_task_id x) id).
Qed.

Lemma status_of_snoc (rows : list Row) (id : Z) (r : Row) :
  Forall (fun x => row_task_id x <> id) rows ->
  row_task_id r = id ->
  status_of id (rows ++ [r]) = Some (row_status r).
Proof.
  intros Hrows Hr. unfold status_of. by rewrite filter_id_snoc.
Qed.

Lemma update_snoc (rows : list Row) (id : Z) (r : Row) (st : string) :
  Forall (fun x => row_task_id x <> id) rows ->
  row_task_id r = id ->
  map (fun x => if row_task_id x =? id then with_row_status st x else x) (rows ++ [r])
  = rows ++ [with_row_status st r].
Proof.
  intros Hrows Hr. rewrite map_app. simpl. rewrite Hr, Z.eqb_refl. f_equal.
  induction Hrows as [|x l Hx _ IH]; simpl; [done|].
  destruct (Z.eqb_spec (row_task_id x) id); [done | by rewrite IH].
Qed.

(** Symbolic execution of [main]: the methods of [TaskManager] are
    unfolded, the containers computed, and the calls of the connector's
    methods replaced by what they do when no call throws. *)
Ltac exec_main :=
  cbv beta iota zeta delta
    [pipeline executed start connected
     TaskManager.submit_new_task TaskManager.process_new_task_queue
     TaskManager.process_new_task_queue_loop
     TaskManager.load_tasks_into_scheduler TaskManager.load_tasks_into_scheduler_loop
     TaskManager.run_task_scheduler TaskManager.run_task_scheduler_loop
     TaskManager.run_task_scheduler_body TaskManager.run_task_scheduler_complete
     TaskManager.undo_last_action TaskManager.separator
     TaskManager.set_task_scheduler TaskManager.set_undo_stack
     TaskManager.set_new_task_queue TaskManager.new
     TaskManager.new_task_queue TaskManager.task_scheduler TaskManager.undo_stack
     bind ret field deref assign new_Task
     gets modify modify_world print sleep_for throw
     undefined out_of_fuel lift_outcome liftW delete_Task
     set_objs world set_world World_HasWorld frame_HasWorld
     get_local set_local
     con objs console clock_ms faults Tasks session autocommit
     AUTO_INCREMENT LAST_INSERT_ID fst snd].

Ltac compute_closed :=
  match goal with
  | |- context [fresh (dom ?m)] =>
    let r := eval vm_compute in (fresh (dom m)) in change (fresh (dom m)) with r
  | |- context [Queue.enqueue ?x ?q] =>
    let r := eval vm_compute in (Queue.enqueue x q) in change (Queue.enqueue x q) with r
  | |- context [Queue.isEmpty ?q] =>
    let r := eval vm_compute in (Queue.isEmpty q) in change (Queue.isEmpty q) with r
  | |- context [Queue.dequeue ?q] =>
    let r := eval vm_compute in (Queue.dequeue q) in change (Queue.dequeue q) with r
  | |- context [PriorityQueue.isEmpty ?q] =>
    let r := eval vm_compute in (PriorityQueue.isEmpty q) in
    change (PriorityQueue.isEmpty q) with r
  | |- context [PriorityQueue.insert ?x ?k ?q] =>
    let r := eval vm_compute in (PriorityQueue.insert x k q) in
    change (PriorityQueue.insert x k q) with r
  | |- context [String.eqb ?a ?b] =>
    let r := eval vm_compute in (String.eqb a b) in change (String.eqb a b) with r
  | |- context [PriorityQueue.extract_min ?q] =>
    let r := eval vm_compute in (PriorityQueue.extract_min q) in
    change (PriorityQueue.extract_min q) with r
  end.

Lemma Stack_isEmpty_push {T} (a : T) (s : Stack.t T) :
  Stack.isEmpty (Stack.push a s) = false.
Proof. reflexivity. Qed.

Lemma Stack_pop_push {T} (a : T) (s : Stack.t T) (cells : list (loc * T)) :
  Stack_repr s cells -> Z.of_nat (length cells) < INT_MAX ->
  exists s', Stack.pop (Stack.push a s) = Ret (a, s') /\ Stack_repr s' cells.
Proof.
  intros Hs Hlt. destruct (Stack_push_repr s cells a Hs Hlt) as [p Hpush].
  exact (Stack_pop_repr _ p a cells Hpush).
Qed.

(** One pass: execute as far as possible, then resolve what the
    execution is stuck on, a container, a store, the table or a method of
    the connector.  [rows] is the table at the start and [next_id] the
    identifier it generates. *)
Ltac step_pipeline rows next_id Hfresh Hpending :=
  exec_main;
  cbn [row_task_id row_status row_title row_description row_priority
       row_assignee_id row_created_at
       task_id title description status priority assignee_id
       Task_new created_row with_task_id with_row_status
       con AUTO_INCREMENT clock_ms session autocommit
       action_name action_data from_option id];
  first
    [ compute_closed
    | rewrite lookup_insert_eq
    | rewrite lookup_delete_eq
    | rewrite Stack_isEmpty_push
    | lazymatch goal with
      | |- context [Stack.pop (Stack.push ?a Stack.new)] =>
        let H := fresh in
        destruct (Stack_pop_push a Stack.new [] Stack_repr_new eq_refl)
          as (? & H & _);
        rewrite H; clear H
      end
    | rewrite (stoi_to_string next_id) by assumption
    | progress (unfold map_at;
                rewrite ?(lookup_insert_ne _ "old_status" "task_id") by done;
                rewrite ?lookup_insert_eq)
    | lazymatch goal with
      | |- context [map _ (rows ++ [?r])] =>
        rewrite !(update_snoc rows next_id r _ Hfresh eq_refl)
      end
    | lazymatch goal with
      | |- context [DatabaseConnector.createTask ?p ?w] =>
        let H := fresh in
        destruct (createTask_success w p _ eq_refl (lookup_insert_eq _ _ _))
          as [? H];
        rewrite H; clear H
      | |- context [DatabaseConnector.getPendingTasks ?w] =>
        lazymatch eval cbn in (session (con w)) with
        | rows ++ [?r] =>
          let H := fresh in
          destruct (getPendingTasks_one w r eq_refl
                      (filter_pending_snoc rows r Hpending eq_refl)) as [? H];
          rewrite H; clear H
        end
      | |- context [DatabaseConnector.updateTaskStatus ?id ?st ?w] =>
        lazymatch eval cbn in (session (con w)) with
        | rows ++ [?r] =>
          let H := fresh in
          destruct (updateTaskStatus_success w id st _ eq_refl
                      (status_of_snoc rows id r Hfresh eq_refl)) as [? H];
          rewrite H; clear H
        end
      end ].

(** C5.  A single task of priority 2 is submitted to a new [TaskManager]
    over a table with no pending row, no call into the connector failing.
    After persist-new, load-pending and execute the row of the task reads
    [completed]; after one undo the table holds the rows it had and the
    row of the task exactly as [createTask] inserted it, status [pending],
    not [completed].  [next_id] is the identifier that the table
    generates, which fits an [int] and which no row has yet. *)
Theorem pipeline_round_trip (rows : list Row) (next_id : Z) (name desc : string)
    (user_id : Z) (fuel : nat) :
  Forall (fun r => row_status r <> "pending" /\ row_task_id r <> next_id) rows ->
  INT_MIN <= next_id <= INT_MAX ->
  (exists w this,
     executed name desc 2 user_id (Datatypes.S fuel)
       (start (connected rows next_id []) ∅, TaskManager.new) = (Ret tt, (w, this)) /\
     status_of next_id (Tasks (con w)) = Some "completed") /\
  exists w' this',
    pipeline name desc 2 user_id (Datatypes.S fuel)
      (start (connected rows next_id []) ∅, TaskManager.new) = (Ret tt, (w', this')) /\
    Tasks (con w')
      = rows ++ [created_row (start (connected rows next_id []) ∅)
                   (Task_new name desc 2 "pending" 0 user_id)] /\
    status_of next_id (Tasks (con w')) = Some "pending".
Proof.
  intros Hrows Hid.
  assert (Forall (fun r => row_status r <> "pending") rows) as Hpending
    by (eapply Forall_impl; [exact Hrows|]; by intros x [? ?]).
  assert (Forall (fun r => row_task_id r <> next_id) rows) as Hfresh
    by (eapply Forall_impl; [exact Hrows|]; by intros x [? ?]).
  split.
  - repeat step_pipeline rows next_id Hfresh Hpending.
    (* the loops stop on the empty containers whatever fuel is left *)
    destruct fuel as [|fuel].
    all: repeat step_pipeline rows next_id Hfresh Hpending.
    all: exec_main; eexists _, _; (split; [reflexivity|]).
    all: cbn [con Tasks].
    all: rewrite status_of_snoc; [reflexivity | exact Hfresh | reflexivity].
  - repeat step_pipeline rows next_id Hfresh Hpending.
    destruct fuel as [|fuel].
    all: repeat step_pipeline rows next_id Hfresh Hpending.
    all: exec_main; eexists _, _; (split; [reflexivity|]).
    all: cbn [con Tasks]; split; [reflexivity|].
    all: rewrite status_of_snoc; [reflexivity | exact Hfresh | reflexivity].
Qed.

Lemma pipeline_round_trip_witness :
  (exists w this,
     executed "Deploy to prod (C++)" "Push v2.0" 2 1 1
       (start (connected [deploy_row 1 "completed"] 2 []) ∅, TaskManager.new)
     = (Ret tt, (w, this)) /\
     status_of 2 (Tasks (con w)) = Some "completed") /\
  exists w' this',
    pipeline "Deploy to prod (C++)" "Push v2.0" 2 1 1
      (start (connected [deploy_row 1 "completed"] 2 []) ∅, TaskManager.new)
    = (Ret tt, (w', this')) /\
    Tasks (con w')
      = [deploy_row 1 "completed"] ++
        [created_row (start (connected [deploy_row 1 "completed"] 2 []) ∅)
           (Task_new "Deploy to prod (C++)" "Push v2.0" 2 "pending" 0 1)] /\
    status_of 2 (Tasks (con w')) = Some "pending".
Proof.
  apply (pipeline_round_trip [deploy_row 1 "completed"] 2
           "Deploy to prod (C++)" "Push v2.0" 1 0).
  - constructor; [|constructor]. split; [discriminate | simpl; lia].
  - unfold INT_MIN, INT_MAX. lia.
Defined.

(** ** More on [Stack<T>] *)

Section StackMore.
Context {T : Type}.
Implicit Types (s : Stack.t T) (cells : list (loc * T)).

Lemma int_decr_incr (z : Z) : INT_MIN <= z <= INT_MAX -> int_decr (int_incr z) = z.
Proof.
  unfold INT_MIN, INT_MAX, int_decr, int_incr, wrap_int. intros Hz.
  destruct (Z.eq_dec z 2147483647) as [->|Hne]; [reflexivity|].
  rewrite (Z.mod_small (z + 1 + 2147483648)) by lia.
  rewrite Z.mod_small by lia. lia.
Qed.

Lemma new_Node_None (h : gmap loc (Node T)) (d : T) : h !! (new_Node d h).1 = None.
Proof.
  unfold new_Node. simpl. apply not_elem_of_dom. apply is_fresh.
Qed.

Lemma Stack_peek_push s (x : T) : Stack.peek (Stack.push x s) = Ret x.
Proof.
  unfold Stack.peek, Stack.push, Stack.isEmpty, new_Node. simpl.
  by rewrite alter_insert_eq, lookup_insert_eq.
Qed.

Lemma Stack_pop_push_id s (x : T) :
  INT_MIN <= Stack._size s <= INT_MAX -> Stack.pop (Stack.push x s) = Ret (x, s).
Proof.
  intros Hsz. pose proof (new_Node_None (Stack.nodes s) x) as Hnone.
  unfold Stack.pop, Stack.push, Stack.isEmpty, new_Node in *. simpl in *.
  rewrite alter_insert_eq, lookup_insert_eq. simpl.
  rewrite delete_insert_id by done. rewrite int_decr_incr by done.
  by destruct s.
Qed.

Lemma owns_new : owns (∅ : gmap loc (Node T)) [].
Proof. unfold owns. simpl. by rewrite dom_empty_L. Qed.

Lemma owns_cons (h h' : gmap loc (Node T)) cells p (x : T) :
  owns h cells -> dom h' = {[p]} ∪ dom h -> owns h' ((p, x) :: cells).
Proof. unfold owns. intros Hh Hh'. simpl. by rewrite Hh', Hh. Qed.

Lemma owns_delete (h : gmap loc (Node T)) cells p (x : T) :
  owns h ((p, x) :: cells) -> NoDup ((p, x) :: cells).*1 -> owns (delete p h) cells.
Proof.
  unfold owns. simpl. intros Hh Hnd. apply NoDup_cons in Hnd as [Hp _].
  rewrite dom_delete_L, Hh.
  assert (p ∉ (list_to_set cells.*1 : gset loc)) by (by rewrite elem_of_list_to_set).
  rewrite difference_union_distr_l_L, difference_diag_L, union_empty_l_L.
  apply difference_disjoint_L. by apply disjoint_singleton_r.
Qed.

Lemma owns_empty (h : gmap loc (Node T)) : owns h [] -> h = ∅.
Proof. unfold owns. simpl. apply dom_empty_inv_L. Qed.

Lemma Stack_push_owns s cells d :
  Stack_repr s cells -> owns (Stack.nodes s) cells -> Z.of_nat (length cells) < INT_MAX ->
  exists p, Stack_repr (Stack.push d s) ((p, d) :: cells) /\
            owns (Stack.nodes (Stack.push d s)) ((p, d) :: cells).
Proof.
  intros Hs Ho Hlt. destruct (Stack_push_repr s cells d Hs Hlt) as [p Hp].
  exists p. split; [done|].
  pose proof (Stack_top _ _ Hp) as Htop.
  unfold Stack.push, new_Node in *. simpl in *. injection Htop as <-.
  apply (owns_cons (Stack.nodes s)); [done|].
  by rewrite dom_alter_L, dom_insert_L.
Qed.

Lemma Stack_pop_owns s p x cells :
  Stack_repr s ((p, x) :: cells) -> owns (Stack.nodes s) ((p, x) :: cells) ->
  exists s', Stack.pop s = Ret (x, s') /\ Stack_repr s' cells /\
             owns (Stack.nodes s') cells.
Proof.
  intros Hs Ho. destruct (Stack_pop_repr s p x cells Hs) as (s' & Hpop & Hs').
  exists s'. split; [done|]. split; [done|].
  pose proof (Stack_top _ _ Hs) as Htop. pose proof (Stack_chain _ _ Hs) as [Hl _].
  unfold Stack.pop, Stack.isEmpty in Hpop. rewrite Htop in Hpop. simpl in *.
  rewrite Hl in Hpop. injection Hpop as <-. simpl.
  apply (owns_delete _ _ _ x); [done | exact (Stack_nodup _ _ Hs)].
Qed.

Lemma Stack_run_owns (ops : list (stack_op T)) : forall s cells,
  Stack_repr s cells -> owns (Stack.nodes s) cells ->
  Z.of_nat (length cells + length (pushed ops)) <= INT_MAX ->
  exists s' cells',
    Stack_run ops s = Ret (lifo ops cells.*2, s') /\
    Stack_repr s' cells' /\ owns (Stack.nodes s') cells' /\
    cells'.*2 = pending_after ops cells.*2.
Proof.
  induction ops as [|[x|] ops IH]; intros s cells Hs Ho Hb; simpl in *.
  - by exists s, cells.
  - destruct (Stack_push_owns s cells x Hs Ho) as (p & Hs1 & Ho1); [lia|].
    destruct (IH _ _ Hs1 Ho1) as (s' & cells' & Hrun & Hs' & Ho' & Hp); [simpl; lia|].
    by exists s', cells'.
  - destruct cells as [|[p x] cells]; simpl.
    + rewrite (Stack_pop_empty s Hs).
      destruct (IH s [] Hs Ho Hb) as (s' & cells' & -> & Hs' & Ho' & Hp).
      by exists s', cells'.
    + destruct (Stack_pop_owns s p x cells Hs Ho) as (s1 & -> & Hs1 & Ho1).
      destruct (IH s1 _ Hs1 Ho1) as (s' & cells' & -> & Hs' & Ho' & Hp);
        [simpl in Hb; lia|].
      by exists s', cells'.
Qed.

Lemma Stack_destructor_spec (fuel : nat) : forall s cells,
  Stack_repr s cells -> owns (Stack.nodes s) cells -> (length cells <= fuel)%nat ->
  Stack_destructor fuel s = Ret (Stack.mk (∅ : gmap loc (Node T)) None 0).
Proof.
  induction fuel as [|fuel IH]; intros s cells Hs Ho Hlen.
  - destruct cells; [|simpl in Hlen; lia].
    pose proof (owns_empty _ Ho) as Hn. destruct Hs as [_ _ Htop Hsz _].
    simpl in *. unfold Stack.isEmpty. rewrite Htop.
    destruct s; simpl in *; by subst.
  - destruct cells as [|[p x] cells].
    + pose proof (owns_empty _ Ho) as Hn. destruct Hs as [_ _ Htop Hsz _].
      simpl in *. unfold Stack.isEmpty. rewrite Htop.
      destruct s; simpl in *; by subst.
    + destruct (Stack_pop_owns s p x cells Hs Ho) as (s1 & Hpop & Hs1 & Ho1).
      simpl. unfold Stack.isEmpty. rewrite (Stack_top _ _ Hs). simpl.
      rewrite Hpop. simpl. apply (IH s1 cells); [done | done | simpl in Hlen; lia].
Qed.

End StackMore.

(** ** More on [Queue<T>] *)

Section QueueMore.
Context {T : Type}.
Implicit Types (q : Queue.t T) (cells : list (loc * T)).

Lemma owns_snoc (h h' : gmap loc (Node T)) cells p (x : T) :
  owns h cells -> dom h' = {[p]} ∪ dom h -> owns h' (cells ++ [(p, x)]).
Proof.
  unfold owns. intros Hh Hh'. rewrite Hh', Hh, fmap_app, list_to_set_app_L. simpl.
  rewrite union_empty_r_L. apply (comm_L (∪)).
Qed.

Lemma Queue_enqueue_owns q cells d :
  Queue_repr q cells -> owns (Queue.nodes q) cells -> Z.of_nat (length cells) < INT_MAX ->
  exists q' p, Queue.enqueue d q = Ret q' /\ Queue_repr q' (cells ++ [(p, d)]) /\
               owns (Queue.nodes q') (cells ++ [(p, d)]).
Proof.
  intros Hq Ho Hlt. destruct (Queue_enqueue_repr q cells d Hq Hlt) as (q' & p & Henq & Hq').
  exists q', p. split; [done|]. split; [done|].
  pose proof (Queue_tail _ _ Hq') as Htl. rewrite last_loc_snoc in Htl. simpl in Htl.
  unfold Queue.enqueue, new_Node in Henq.
  destruct (Queue.isEmpty q).
  - injection Henq as <-. simpl in *. injection Htl as <-.
    apply (owns_snoc (Queue.nodes q)); [done|]. by rewrite dom_insert_L.
  - destruct (Queue.tail q) as [tl|]; [|done].
    destruct (_ !! tl) as [n|] eqn:Hn; [|done].
    injection Henq as <-. simpl in *. injection Htl as <-.
    apply (owns_snoc (Queue.nodes q)); [done|].
    rewrite !dom_insert_L. apply subseteq_union_1_L, singleton_subseteq_l.
    rewrite <- (dom_insert_L (Queue.nodes q) _ (mkNode d None)).
    apply elem_of_dom. eauto.
Qed.

Lemma Queue_dequeue_owns q p x cells :
  Queue_repr q ((p, x) :: cells) -> owns (Queue.nodes q) ((p, x) :: cells) ->
  exists q', Queue.dequeue q = Ret (x, q') /\ Queue_repr q' cells /\
             owns (Queue.nodes q') cells.
Proof.
  intros Hq Ho. destruct (Queue_dequeue_repr q p x cells Hq) as (q' & Hdeq & Hq').
  exists q'. split; [done|]. split; [done|].
  pose proof (Queue_head _ _ Hq) as Hhd. pose proof (Queue_chain _ _ Hq) as [Hl _].
  unfold Queue.dequeue, Queue.isEmpty in Hdeq. rewrite Hhd in Hdeq. simpl in *.
  rewrite Hl in Hdeq. injection Hdeq as <-. simpl.
  apply (owns_delete _ _ _ x); [done | exact (Queue_nodup _ _ Hq)].
Qed.

Lemma Queue_run_owns (ops : list (queue_op T)) : forall q cells,
  Queue_repr q cells -> owns (Queue.nodes q) cells ->
  Z.of_nat (length cells + length (enqueued ops)) <= INT_MAX ->
  exists out q' cells',
    Queue_run ops q = Ret (out, q') /\
    Queue_repr q' cells' /\ owns (Queue.nodes q') cells' /\
    cells'.*2 = waiting_after ops cells.*2.
Proof.
  induction ops as [|[x|] ops IH]; intros q cells Hq Ho Hb; simpl in *.
  - by exists [], q, cells.
  - destruct (Queue_enqueue_owns q cells x Hq Ho) as (q1 & p & -> & Hq1 & Ho1); [lia|].
    simpl. destruct (IH q1 _ Hq1 Ho1) as (out & q' & cells' & -> & Hq' & Ho' & Hw).
    { rewrite length_app. simpl. lia. }
    exists out, q', cells'. by rewrite fmap_app in Hw.
  - destruct cells as [|[p x] cells].
    + rewrite (Queue_dequeue_empty q Hq).
      destruct (IH q [] Hq Ho Hb) as (out & q' & cells' & -> & Hq' & Ho' & Hw).
      by exists (None :: out), q', cells'.
    + destruct (Queue_dequeue_owns q p x cells Hq Ho) as (q1 & -> & Hq1 & Ho1).
      destruct (IH q1 _ Hq1 Ho1) as (out & q' & cells' & -> & Hq' & Ho' & Hw).
      { simpl in Hb. lia. }
      by exists (Some x :: out), q', cells'.
Qed.

Lemma Queue_repr_empty q :
  Queue_repr q [] -> owns (Queue.nodes q) [] -> q = Queue.new.
Proof.
  intros [_ _ Hhd Htl Hsz _] Ho. apply owns_empty in Ho.
  destruct q; simpl in *; by subst.
Qed.

Lemma Queue_destructor_spec (fuel : nat) : forall q cells,
  Queue_repr q cells -> owns (Queue.nodes q) cells -> (length cells <= fuel)%nat ->
  Queue_destructor fuel q = Ret Queue.new.
Proof.
  induction fuel as [|fuel IH]; intros q cells Hq Ho Hlen.
  - destruct cells; [|simpl in Hlen; lia].
    by rewrite (Queue_repr_empty q Hq Ho).
  - destruct cells as [|[p x] cells].
    + by rewrite (Queue_repr_empty q Hq Ho).
    + destruct (Queue_dequeue_owns q p x cells Hq Ho) as (q1 & Hdeq & Hq1 & Ho1).
      simpl. unfold Queue.isEmpty. rewrite (Queue_head _ _ Hq). simpl.
      rewrite Hdeq. simpl. apply (IH q1 cells); [done | done | simpl in Hlen; lia].
Qed.

End QueueMore.

(** ** The containers after any run of operations *)

(** X1.  Whatever operations run on a new [Stack<T>], [size()] is the
    number of items pushed and not yet popped, [isEmpty()] holds exactly
    when [size()] is 0, and [peek()] answers with the latest of these
    items, or throws when there is none.  The bound keeps the [int]
    counter from overflowing. *)
Theorem Stack_state_after_run {T : Type} (ops : list (stack_op T)) :
  Z.of_nat (length (pushed ops)) <= INT_MAX ->
  exists out s,
    Stack_run ops Stack.new = Ret (out, s) /\
    Stack.size s = Z.of_nat (length (pending_after ops [])) /\
    Stack.isEmpty s = (Stack.size s =? 0) /\
    Stack.peek s = match pending_after ops [] with
                   | [] => Raise (runtime_error "Stack is empty")
                   | x :: _ => Ret x
                   end.
Proof.
  intros Hb.
  destruct (Stack_run_owns ops Stack.new [] Stack_repr_new owns_new)
    as (s & cells & Hrun & Hs & _ & Hp); [simpl; lia|].
  simpl in Hp. exists (lifo ops []), s. split; [done|].
  destruct Hs as [Hch _ Htop Hsz _]. rewrite <- Hp. unfold Stack.size, Stack.peek, Stack.isEmpty.
  rewrite Hsz, Htop, length_fmap.
  destruct cells as [|[p x] cells]; simpl in *; [done|].
  destruct Hch as [-> _]. done.
Qed.

Lemma Stack_state_after_run_witness :
  exists out s,
    Stack_run [Push 1; Push 2; Pop; Push 3] Stack.new = Ret (out, s) /\
    Stack.size s = 2 /\
    Stack.isEmpty s = (Stack.size s =? 0) /\
    Stack.peek s = Ret 3.
Proof.
  apply (Stack_state_after_run [Push 1; Push 2; Pop; Push 3]).
  unfold INT_MAX. simpl. lia.
Defined.

(** X2.  [push(x)] on any stack, then [peek()] and [pop()]: both answer
    [x], and [pop()] leaves the stack exactly as it was before the
    [push], the node freed and the counter back, provided the counter
    is an [int] below [INT_MAX]. *)
Theorem Stack_push_then_pop {T : Type} (s : Stack.t T) (x : T) :
  INT_MIN <= Stack.size s < INT_MAX ->
  Stack.peek (Stack.push x s) = Ret x /\
  Stack.pop (Stack.push x s) = Ret (x, s).
Proof.
  intros Hsz. split; [apply Stack_peek_push|].
  apply Stack_pop_push_id. unfold Stack.size in Hsz. lia.
Qed.

Lemma Stack_push_then_pop_witness :
  Stack.peek (Stack.push 7 (Stack.push 5 Stack.new)) = Ret 7 /\
  Stack.pop (Stack.push 7 (Stack.push 5 Stack.new)) = Ret (7, Stack.push 5 Stack.new).
Proof.
  apply (Stack_push_then_pop (Stack.push 5 Stack.new) 7).
  unfold INT_MIN, INT_MAX. vm_compute. split; [discriminate | reflexivity].
Defined.

(** X3.  [~Stack()] after any run of operations on a new stack: the
    loop ends, and it leaves no node on the free store. *)
Theorem Stack_destructor_frees {T : Type} (ops : list (stack_op T)) (fuel : nat) :
  Z.of_nat (length (pushed ops)) <= INT_MAX ->
  (length (pending_after ops []) <= fuel)%nat ->
  exists out s,
    Stack_run ops Stack.new = Ret (out, s) /\
    Stack_destructor fuel s = Ret Stack.new.
Proof.
  intros Hb Hfuel.
  destruct (Stack_run_owns ops Stack.new [] Stack_repr_new owns_new)
    as (s & cells & Hrun & Hs & Ho & Hp); [simpl; lia|].
  exists (lifo ops []), s. split; [done|].
  apply (Stack_destructor_spec fuel s cells Hs Ho).
  simpl in Hp. by rewrite <- Hp, length_fmap in Hfuel.
Qed.

Lemma Stack_destructor_frees_witness :
  exists out s,
    Stack_run [Push 1; Push 2; Pop; Push 3] Stack.new = Ret (out, s) /\
    Stack_destructor 2 s = Ret Stack.new.
Proof.
  apply (Stack_destructor_frees [Push 1; Push 2; Pop; Push 3] 2).
  - unfold INT_MAX. simpl. lia.
  - simpl. lia.
Defined.

(** X4.  Whatever operations run on a new [Queue<T>], [size()] is the
    number of items enqueued and not yet dequeued, [isEmpty()] holds
    exactly when [size()] is 0, [tail] is [nullptr] exactly when [head]
    is, and [dequeue()] answers with the oldest of these items, or throws
    when there is none. *)
Theorem Queue_state_after_run {T : Type} (ops : list (queue_op T)) :
  Z.of_nat (length (enqueued ops)) <= INT_MAX ->
  exists out q,
    Queue_run ops Queue.new = Ret (out, q) /\
    Queue.size q = Z.of_nat (length (waiting_after ops [])) /\
    Queue.isEmpty q = (Queue.size q =? 0) /\
    (Queue.tail q = None <-> Queue.head q = None) /\
    match waiting_after ops [] with
    | [] => Queue.dequeue q = Raise (runtime_error "Queue is empty")
    | x :: _ => exists q', Queue.dequeue q = Ret (x, q')
    end.
Proof.
  intros Hb.
  destruct (Queue_run_owns ops Queue.new [] Queue_repr_new owns_new)
    as (out & q & cells & Hrun & Hq & _ & Hw); [simpl; lia|].
  simpl in Hw. exists out, q. split; [done|]. rewrite <- Hw.
  pose proof Hq as [Hch _ Hhd Htl Hsz _].
  unfold Queue.size, Queue.isEmpty. rewrite Hsz, Hhd, Htl, length_fmap.
  destruct cells as [|[p x] cells]; simpl.
  - split; [done|]. split; [done|]. split; [done|]. by apply Queue_dequeue_empty.
  - split; [done|]. split; [done|]. split.
    + unfold last_loc. destruct (last ((p, x) :: cells)) eqn:Hlast; [done|].
      by apply last_None in Hlast.
    + destruct (Queue_dequeue_repr q p x cells Hq) as (q' & Hdeq & _). by exists q'.
Qed.

Lemma Queue_state_after_run_witness :
  exists out q,
    Queue_run [Enqueue 1; Enqueue 2; Dequeue; Enqueue 3] Queue.new = Ret (out, q) /\
    Queue.size q = 2 /\
    Queue.isEmpty q = (Queue.size q =? 0) /\
    (Queue.tail q = None <-> Queue.head q = None) /\
    exists q', Queue.dequeue q = Ret (2, q').
Proof.
  apply (Queue_state_after_run [Enqueue 1; Enqueue 2; Dequeue; Enqueue 3]).
  unfold INT_MAX. simpl. lia.
Defined.

Lemma Queue_dequeue_enqueue_id {T} (q : Queue.t T) (x : T) :
  Queue.head q = None -> Queue.tail q = None ->
  INT_MIN <= Queue._size q <= INT_MAX ->
  obind (Queue.enqueue x q) Queue.dequeue = Ret (x, q).
Proof.
  intros Hhd Htl Hsz. pose proof (new_Node_None (Queue.nodes q) x) as Hnone.
  unfold Queue.enqueue, Queue.dequeue, Queue.isEmpty, new_Node in *. simpl in *.
  rewrite Hhd. simpl. rewrite lookup_insert_eq. simpl.
  rewrite delete_insert_id by done. rewrite int_decr_incr by done.
  destruct q; simpl in *; by subst.
Qed.

(** X5.  [enqueue(x)] on an empty queue makes [head] and [tail] the
    same node, and the [dequeue()] after it answers [x] and leaves the
    queue exactly as it was, [tail] reset to [nullptr] and the node
    freed, provided the counter is an
    [int] below [INT_MAX]. *)
Theorem Queue_enqueue_then_dequeue {T : Type} (q : Queue.t T) (x : T) :
  Queue.head q = None -> Queue.tail q = None ->
  INT_MIN <= Queue.size q < INT_MAX ->
  exists q',
    Queue.enqueue x q = Ret q' /\ Queue.head q' = Queue.tail q' /\
    Queue.isEmpty q' = false /\ Queue.dequeue q' = Ret (x, q).
Proof.
  intros Hhd Htl Hsz.
  assert (INT_MIN <= Queue._size q <= INT_MAX) as Hsz'
    by (unfold Queue.size in Hsz; lia).
  pose proof (Queue_dequeue_enqueue_id q x Hhd Htl Hsz') as Hid.
  unfold Queue.enqueue, Queue.isEmpty in *. rewrite Hhd in *. simpl in *.
  eexists. split; [reflexivity|]. split; [reflexivity|]. split; [reflexivity|].
  exact Hid.
Qed.

Lemma Queue_enqueue_then_dequeue_witness :
  exists q',
    Queue.enqueue 7 Queue.new = Ret q' /\ Queue.head q' = Queue.tail q' /\
    Queue.isEmpty q' = false /\ Queue.dequeue q' = Ret (7, Queue.new).
Proof.
  apply (Queue_enqueue_then_dequeue Queue.new 7 eq_refl eq_refl).
  unfold INT_MIN, INT_MAX. vm_compute. split; [discriminate | reflexivity].
Defined.

(** X6.  [~Queue()] of Queue.h after any run of operations on a new
    queue: the loop ends, and it leaves no node on the free store. *)
Theorem Queue_destructor_frees {T : Type} (ops : list (queue_op T)) (fuel : nat) :
  Z.of_nat (length (enqueued ops)) <= INT_MAX ->
  (length (waiting_after ops []) <= fuel)%nat ->
  exists out q,
    Queue_run ops Queue.new = Ret (out, q) /\
    Queue_destructor fuel q = Ret Queue.new.
Proof.
  intros Hb Hfuel.
  destruct (Queue_run_owns ops Queue.new [] Queue_repr_new owns_new)
    as (out & q & cells & Hrun & Hq & Ho & Hw); [simpl; lia|].
  exists out, q. split; [done|].
  apply (Queue_destructor_spec fuel q cells Hq Ho).
  simpl in Hw. by rewrite <- Hw, length_fmap in Hfuel.
Qed.

Lemma Queue_destructor_frees_witness :
  exists out q,
    Queue_run [Enqueue 1; Enqueue 2; Dequeue; Enqueue 3] Queue.new = Ret (out, q) /\
    Queue_destructor 2 q = Ret Queue.new.
Proof.
  apply (Queue_destructor_frees [Enqueue 1; Enqueue 2; Dequeue; Enqueue 3] 2).
  - unfold INT_MAX. simpl. lia.
  - simpl. lia.
Defined.

(** ** Queue.cpp: the queue owns the tasks it holds *)

Ltac exec_q :=
  cbv beta iota zeta delta
    [TaskQueue.enqueue TaskQueue.dequeue TaskQueue.title_of TaskQueue.isEmpty
     TaskQueue_destructor
     bind ret field deref gets modify modify_world print throw
     undefined out_of_fuel lift_outcome delete_Task
     set_objs world set_world World_HasWorld
     con objs console clock_ms fst snd].

Lemma TaskQueue_enqueue_live (q : Queue.t (option loc)) cells (p : loc) (t : Task)
    (w : World) :
  Queue_repr q cells -> owns (Queue.nodes q) cells ->
  Z.of_nat (length cells) < INT_MAX ->
  objs w !! p = Some t ->
  exists q' l,
    TaskQueue.enqueue (Some p) q w
    = (Ret q', {| con := con w; objs := objs w;
                  console := (stdout, "[Queue]: Enqueued " +:+ title t) :: console w;
                  clock_ms := clock_ms w |}) /\
    Queue_repr q' (cells ++ [(l, Some p)]) /\
    owns (Queue.nodes q') (cells ++ [(l, Some p)]).
Proof.
  intros Hq Ho Hlt Hp.
  destruct (Queue_enqueue_owns q cells (Some p) Hq Ho Hlt) as (q' & l & Henq & Hq' & Ho').
  exists q', l. split; [|done].
  destruct w as [c o cons clk]. simpl in Hp.
  exec_q. rewrite Henq. exec_q. rewrite Hp. reflexivity.
Qed.

Lemma TaskQueue_enqueue_all_live (ps : list loc) : forall q cells (w : World),
  Queue_repr q cells -> owns (Queue.nodes q) cells ->
  Z.of_nat (length cells + length ps) <= INT_MAX ->
  Forall (fun p => is_Some (objs w !! p)) ps ->
  exists q' cells' cons',
    TaskQueue_enqueue_all ps q w
    = (Ret q', {| con := con w; objs := objs w; console := cons';
                  clock_ms := clock_ms w |}) /\
    Queue_repr q' cells' /\ owns (Queue.nodes q') cells' /\
    cells'.*2 = cells.*2 ++ map Some ps.
Proof.
  induction ps as [|p ps IH]; intros q cells w Hq Ho Hb Hlive; simpl.
  - exists q, cells, (console w). rewrite app_nil_r. by destruct w.
  - apply Forall_cons in Hlive as [[t Hp] Hlive]. simpl in Hb.
    destruct (TaskQueue_enqueue_live q cells p t w Hq Ho ltac:(lia) Hp)
      as (q1 & l & Henq & Hq1 & Ho1).
    unfold bind at 1. rewrite Henq.
    destruct (IH q1 _ (mkWorld (con w) (objs w)
                         ((stdout, "[Queue]: Enqueued " +:+ title t) :: console w)
                         (clock_ms w)) Hq1 Ho1)
      as (q' & cells' & cons' & Hrun & Hq' & Ho' & Hc).
    { rewrite length_app. simpl. lia. }
    { exact Hlive. }
    exists q', cells', cons'. split; [exact Hrun|]. split; [done|]. split; [done|].
    rewrite Hc, fmap_app, <- app_assoc. done.
Qed.

Lemma TaskQueue_destructor_loop_spec (fuel : nat) : forall q cells ps (w : World),
  Queue_repr q cells -> owns (Queue.nodes q) cells ->
  cells.*2 = map Some ps -> NoDup ps ->
  Forall (fun p => is_Some (objs w !! p)) ps ->
  (length ps <= fuel)%nat ->
  exists w',
    TaskQueue_destructor_loop fuel q w = (Ret Queue.new, w') /\
    con w' = con w /\ clock_ms w' = clock_ms w /\
    forall p, objs w' !! p = if decide (p ∈ ps) then None else objs w !! p.
Proof.
  induction fuel as [|fuel IH]; intros q cells ps w Hq Ho Hc Hnd Hlive Hlen.
  - destruct ps; [|simpl in Hlen; lia]. destruct cells; [|done].
    rewrite (Queue_repr_empty q Hq Ho). exists w. simpl. split; [done|].
    split; [done|]. split; [done|]. intros p. destruct (decide (p ∈ [])) as [Hin|]; [|done].
    by apply elem_of_nil in Hin.
  - destruct cells as [|[l x] cells].
    + destruct ps; [|done].
      rewrite (Queue_repr_empty q Hq Ho). exists w. simpl. split; [done|].
      split; [done|]. split; [done|]. intros p.
      destruct (decide (p ∈ [])) as [Hin|]; [|done]. by apply elem_of_nil in Hin.
    + destruct ps as [|p ps]; [done|]. simpl in Hc. injection Hc as -> Hc.
      apply NoDup_cons in Hnd as [Hp Hnd].
      apply Forall_cons in Hlive as [[t Ht] Hlive].
      destruct (Queue_dequeue_owns q l (Some p) cells Hq Ho) as (q1 & Hdeq & Hq1 & Ho1).
      destruct w as [c o cons clk]. simpl in Ht, Hlive.
      cbn [TaskQueue_destructor_loop]. unfold TaskQueue.isEmpty, Queue.isEmpty.
      rewrite (Queue_head _ _ Hq). cbn [first_loc head fmap option_fmap option_map fst].
      exec_q. unfold Queue.isEmpty. rewrite (Queue_head _ _ Hq).
      cbn [first_loc head fmap option_fmap option_map fst].
      rewrite Hdeq. exec_q. rewrite Ht. exec_q. rewrite Ht. exec_q.
      destruct (IH q1 cells ps (mkWorld c (delete p o)
                  ((stdout, "[Queue]: Dequeued " +:+ title t) :: cons) clk)
                  Hq1 Ho1 Hc Hnd) as (w' & Hloop & Hcon & Hclk & Hobjs).
      { simpl. apply Forall_forall. intros p' Hin.
        rewrite lookup_delete_ne; [exact (proj1 (Forall_forall _ _) Hlive p' Hin)|].
        by intros <-. }
      { simpl in Hlen. lia. }
      exists w'. split; [exact Hloop|]. split; [done|]. split; [done|].
      intros p'. rewrite Hobjs. simpl.
      destruct (decide (p' ∈ ps)) as [Hin|Hnin].
      * rewrite decide_True; [done | by apply elem_of_cons; right].
      * destruct (decide (p' = p)) as [->|Hne].
        -- rewrite decide_True by (apply elem_of_cons; by left).
           apply lookup_delete_eq.
        -- rewrite decide_False by (intros [?|?]%elem_of_cons; done).
           by apply lookup_delete_ne.
Qed.

(** X7.  The queue of Queue.cpp owns the tasks handed to it.  When
    distinct live [Task] objects are enqueued, which touches none of
    them, the destructor of the queue ends with the queue empty and has
    deleted every one of these objects and no other; the connection is
    not used. *)
Theorem TaskQueue_destructor_deletes_tasks (ps : list loc) (w : World) (fuel : nat) :
  NoDup ps ->
  Forall (fun p => is_Some (objs w !! p)) ps ->
  Z.of_nat (length ps) <= INT_MAX ->
  (length ps <= fuel)%nat ->
  exists q w1 w',
    TaskQueue_enqueue_all ps TaskQueue.new w = (Ret q, w1) /\
    objs w1 = objs w /\
    TaskQueue.size q = Z.of_nat (length ps) /\
    TaskQueue_destructor fuel q w1 = (Ret TaskQueue.new, w') /\
    con w' = con w /\
    forall p, objs w' !! p = if decide (p ∈ ps) then None else objs w !! p.
Proof.
  intros Hnd Hlive Hb Hfuel.
  destruct (TaskQueue_enqueue_all_live ps Queue.new [] w Queue_repr_new owns_new)
    as (q & cells & cons' & Hrun & Hq & Ho & Hc); [simpl; lia | done |].
  simpl in Hc.
  destruct (TaskQueue_destructor_loop_spec fuel q cells ps
              (mkWorld (con w) (objs w)
                 ((stdout, "[Queue]: Cleaning up memory...") :: cons') (clock_ms w))
              Hq Ho Hc Hnd Hlive Hfuel) as (w' & Hloop & Hcon & _ & Hobjs).
  eexists q, _, w'. split; [exact Hrun|]. split; [done|]. split.
  - unfold TaskQueue.size. rewrite (Queue_size _ _ Hq).
    apply (f_equal length) in Hc. rewrite length_fmap, length_map in Hc. by rewrite Hc.
  - split; [|done]. exact Hloop.
Qed.

Lemma TaskQueue_destructor_deletes_tasks_witness :
  exists q w1 w',
    TaskQueue_enqueue_all [1%positive] TaskQueue.new
      (start (connected [] 1 [])
                {[ 1%positive := deploy_task 0; 2%positive := deploy_task 0 ]}) = (Ret q, w1) /\
    objs w1 = objs (start (connected [] 1 [])
                {[ 1%positive := deploy_task 0; 2%positive := deploy_task 0 ]}) /\
    TaskQueue.size q = Z.of_nat (length [1%positive]) /\
    TaskQueue_destructor 1 q w1 = (Ret TaskQueue.new, w') /\
    con w' = con (start (connected [] 1 [])
                {[ 1%positive := deploy_task 0; 2%positive := deploy_task 0 ]}) /\
    forall p, objs w' !! p
              = if decide (p ∈ [1%positive]) then None
                else objs (start (connected [] 1 [])
                {[ 1%positive := deploy_task 0; 2%positive := deploy_task 0 ]}) !! p.
Proof.
  apply (TaskQueue_destructor_deletes_tasks [1%positive]
           (start (connected [] 1 [])
                {[ 1%positive := deploy_task 0; 2%positive := deploy_task 0 ]}) 1).
  - apply NoDup_singleton.
  - repeat constructor. vm_compute. eauto.
  - unfold INT_MAX. simpl. lia.
  - simpl. lia.
Defined.

(** ** [createTask] and the connector's failures *)

Ltac no_fault Hf :=
  exfalso; apply Hf; cbn [take];
  repeat first [ apply list_elem_of_here | apply list_elem_of_further ].

(** X8.  [createTask] on a live [Task] object, when none of its eleven
    calls into the connector throws: it returns the pointer it was
    given; one row is appended to the table, with the identifier taken
    from the AUTO_INCREMENT counter, and committed at once when
    autocommit is on; the identifier is stored into the object; and the
    last line written is "DB: Created Task ID <id>". *)
Theorem createTask_persists (w : World) (task : loc) (t : Task) :
  objs w !! task = Some t ->
  true ∉ take 11 (faults (con w)) ->
  DatabaseConnector.createTask task w
  = (Ret (Some task),
     {| con := {| Tasks := if autocommit (con w)
                           then session (con w) ++ [created_row w t]
                           else Tasks (con w);
                  session := session (con w) ++ [created_row w t];
                  autocommit := autocommit (con w);
                  AUTO_INCREMENT := AUTO_INCREMENT (con w) + 1;
                  LAST_INSERT_ID := AUTO_INCREMENT (con w);
                  faults := drop 11 (faults (con w)) |};
        objs := <[task := with_task_id (AUTO_INCREMENT (con w)) t]> (objs w);
        console := (stdout, "DB: Created Task ID " +:+ to_string (AUTO_INCREMENT (con w)))
                   :: console w;
        clock_ms := clock_ms w |}).
Proof.
  intros Hobj Hf. destruct w as [c o cons clk]. destruct c as [T s ac ai li fs].
  unfold created_row. cbn [con objs faults console clock_ms Tasks session autocommit
                           AUTO_INCREMENT LAST_INSERT_ID] in *.
  repeat (exec;
          first [ rewrite Hobj | rewrite lookup_insert_eq | next_fault fs
                | lazymatch goal with
                  | |- context [assignee_id t =? 0] => destruct (assignee_id t =? 0)
                  end ]).
  all: try reflexivity.
  all: no_fault Hf.
Qed.

Lemma createTask_persists_witness :
  DatabaseConnector.createTask 1%positive
    (start (connected [] 1 (replicate 11 false ++ [true])) {[ 1%positive := deploy_task 0 ]})
  = (Ret (Some 1%positive),
     {| con := {| Tasks := [] ++ [deploy_row 1 "pending"];
                  session := [] ++ [deploy_row 1 "pending"];
                  autocommit := true;
                  AUTO_INCREMENT := 1 + 1;
                  LAST_INSERT_ID := 1;
                  faults := [true] |};
        objs := <[1%positive := with_task_id 1 (deploy_task 0)]>
                  {[ 1%positive := deploy_task 0 ]};
        console := [(stdout, "DB: Created Task ID " +:+ to_string 1)];
        clock_ms := 0 |}).
Proof.
  refine (createTask_persists
            (start (connected [] 1 (replicate 11 false ++ [true]))
               {[ 1%positive := deploy_task 0 ]})
            1%positive (deploy_task 0) eq_refl _).
  vm_compute. intros H. repeat (apply elem_of_cons in H as [H|H]; [discriminate H|]).
  by apply elem_of_nil in H.
Defined.

(** X9.  [createTask] when the call number [n] into the connector
    (counted from 0) is the first that throws and is the [execute()] of
    the INSERT or a call before it ([n <= 6]): the result is [nullptr],
    "Failed to create task: " is written to [std::cerr], and neither
    the [Task] object nor the table has changed. *)
Theorem createTask_fails_before_insert (w : World) (task : loc) (t : Task)
    (n : nat) (rest : list bool) :
  objs w !! task = Some t ->
  faults (con w) = replicate n false ++ true :: rest ->
  (n <= 6)%nat ->
  DatabaseConnector.createTask task w
  = (Ret None,
     {| con := with_faults rest (con w); objs := objs w;
        console := (stderr, "Failed to create task: ") :: console w;
        clock_ms := clock_ms w |}).
Proof.
  intros Hobj Hf Hn. destruct w as [c o cons clk]. destruct c as [T s ac ai li fs].
  unfold with_faults.
  cbn [con objs faults console clock_ms Tasks session autocommit
       AUTO_INCREMENT LAST_INSERT_ID] in *.
  do 7 (destruct n as [|n];
        [ cbn [replicate app] in Hf; subst fs;
          repeat (exec;
                  first [ rewrite Hobj
                        | lazymatch goal with
                          | |- context [assignee_id t =? 0] =>
                            destruct (assignee_id t =? 0)
                          end ]);
          reflexivity |]).
  lia.
Qed.

Lemma createTask_fails_before_insert_witness :
  DatabaseConnector.createTask 1%positive
    (start (connected [] 1 (replicate 6 false ++ true :: []))
       {[ 1%positive := deploy_task 0 ]})
  = (Ret None,
     {| con := with_faults []
                 (con (start (connected [] 1 (replicate 6 false ++ true :: []))
                         {[ 1%positive := deploy_task 0 ]}));
        objs := objs (start (connected [] 1 (replicate 6 false ++ true :: []))
                        {[ 1%positive := deploy_task 0 ]});
        console := (stderr, "Failed to create task: ")
                   :: console (start (connected [] 1 (replicate 6 false ++ true :: []))
                                 {[ 1%positive := deploy_task 0 ]});
        clock_ms := clock_ms (start (connected [] 1 (replicate 6 false ++ true :: []))
                                {[ 1%positive := deploy_task 0 ]}) |}).
Proof.
  refine (createTask_fails_before_insert
            (start (connected [] 1 (replicate 6 false ++ true :: []))
               {[ 1%positive := deploy_task 0 ]})
            1%positive (deploy_task 0) 6 [] eq_refl eq_refl _).
  lia.
Defined.

(** *** The statement objects *)

(** X27.  [delete pstmt] follows [pstmt->execute()] and leaves the
    pointer dangling, so when one of the four calls after it throws
    ([createStatement], [executeQuery], [next] or [getInt]), the
    handler's [if (pstmt) delete pstmt] deletes the statement a second
    time, which is undefined behaviour; the row is inserted by then. *)
Theorem createTask_deletes_pstmt_twice (w : World) (task : loc) (t : Task)
    (n : nat) (rest : list bool) :
  objs w !! task = Some t ->
  faults (con w) = replicate n false ++ true :: rest ->
  (7 <= n <= 10)%nat ->
  exists w',
    DatabaseConnector.createTask task w = (Undefined, w') /\
    session (con w') = session (con w) ++ [created_row w t] /\
    head (console w') = Some (stderr, "Failed to create task: ").
Proof.
  intros Hobj Hf Hn. destruct w as [c o cons clk]. destruct c as [T s ac ai li fs].
  unfold created_row.
  cbn [con objs faults console clock_ms Tasks session autocommit
       AUTO_INCREMENT LAST_INSERT_ID] in *.
  do 7 (destruct n as [|n]; [lia|]).
  (* the script is followed call by call; [Hf] tells what each call does *)
  do 4 (destruct n as [|n];
        [ cbn [replicate app] in Hf;
          repeat (exec;
                  first [ rewrite Hobj
                        | next_fault fs; try discriminate Hf
                        | lazymatch goal with
                          | |- context [assignee_id t =? 0] =>
                            destruct (assignee_id t =? 0)
                          end ]);
          (eexists; split; [reflexivity|]; split; reflexivity) |]).
  lia.
Qed.

Lemma createTask_deletes_pstmt_twice_witness :
  exists w',
    DatabaseConnector.createTask 1%positive
      (start (connected [] 1 (replicate 7 false ++ true :: []))
         {[ 1%positive := deploy_task 0 ]}) = (Undefined, w') /\
    session (con w')
    = session (con (start (connected [] 1 (replicate 7 false ++ true :: []))
                      {[ 1%positive := deploy_task 0 ]}))
      ++ [created_row (start (connected [] 1 (replicate 7 false ++ true :: []))
                         {[ 1%positive := deploy_task 0 ]}) (deploy_task 0)] /\
    head (console w') = Some (stderr, "Failed to create task: ").
Proof.
  refine (createTask_deletes_pstmt_twice
            (start (connected [] 1 (replicate 7 false ++ true :: []))
               {[ 1%positive := deploy_task 0 ]})
            1%positive (deploy_task 0) 7 [] eq_refl eq_refl _).
  lia.
Defined.

(** X28.  The double delete is the only undefined behaviour of
    [createTask] on a live [Task] object: a run is undefined only when
    the first call into the connector that throws is one of the four
    after [delete pstmt].  When no call throws, or the first throw is in
    [execute()] or before, every [delete] of the function, those of the
    handler included, meets a pointer that is null or live. *)
Theorem createTask_undefined_only_after_insert (w w' : World) (task : loc) (t : Task) :
  objs w !! task = Some t ->
  DatabaseConnector.createTask task w = (Undefined, w') ->
  exists (n : nat) (rest : list bool),
    (7 <= n <= 10)%nat /\ faults (con w) = replicate n false ++ true :: rest.
Proof.
  intros Hobj. destruct w as [c o cons clk]. destruct c as [T s ac ai li fs].
  cbn [con objs faults] in *.
  repeat (exec;
          first [ rewrite Hobj | rewrite lookup_insert_eq | next_fault fs
                | lazymatch goal with
                  | |- context [assignee_id t =? 0] => destruct (assignee_id t =? 0)
                  end ]).
  all: intros Hrun; try discriminate Hrun.
  all: first [ exists 7%nat, fs; split; [lia | reflexivity]
             | exists 8%nat, fs; split; [lia | reflexivity]
             | exists 9%nat, fs; split; [lia | reflexivity]
             | exists 10%nat, fs; split; [lia | reflexivity] ].
Qed.

Lemma createTask_undefined_only_after_insert_witness :
  exists (n : nat) (rest : list bool),
    (7 <= n <= 10)%nat /\
    faults (con (start (connected [] 1 (replicate 8 false ++ [true; false]))
                   {[ 1%positive := deploy_task 0 ]}))
    = replicate n false ++ true :: rest.
Proof.
  refine (createTask_undefined_only_after_insert
            (start (connected [] 1 (replicate 8 false ++ [true; false]))
               {[ 1%positive := deploy_task 0 ]})
            _ 1%positive (deploy_task 0) eq_refl _).
  vm_compute. reflexivity.
Defined.

(** ** [getPendingTasks] *)

Lemma new_Tasks_spec (rows : list Row) : forall o : gmap loc Task,
  NoDup (new_Tasks rows o).1 /\
  Forall (fun p => o !! p = None) (new_Tasks rows o).1 /\
  Forall2 (fun p r => (new_Tasks rows o).2 !! p = Some (task_of_row r))
          (new_Tasks rows o).1 rows /\
  (forall p, p ∉ (new_Tasks rows o).1 -> (new_Tasks rows o).2 !! p = o !! p).
Proof.
  induction rows as [|r rows IH]; intros o; simpl.
  - split; [constructor|]. split; [constructor|]. split; [constructor|]. done.
  - specialize (IH (<[fresh (dom o) := task_of_row r]> o)).
    destruct (new_Tasks rows _) as [ps o'] eqn:Hnew. simpl in *.
    destruct IH as (Hnd & Hfresh & Hobjs & Hold).
    assert (o !! fresh (dom o) = None) as Hnone
      by (apply not_elem_of_dom, is_fresh).
    assert (fresh (dom o) ∉ ps) as Hnin.
    { intros Hin. pose proof (proj1 (Forall_forall _ _) Hfresh _ Hin) as Hp.
      simpl in Hp. by rewrite lookup_insert_eq in Hp. }
    split; [by apply NoDup_cons|]. split; [|split].
    + constructor; [done|]. apply Forall_forall. intros p Hin.
      pose proof (proj1 (Forall_forall _ _) Hfresh _ Hin) as Hp. simpl in Hp.
      destruct (decide (p = fresh (dom o))) as [->|Hne]; [done|].
      by rewrite lookup_insert_ne in Hp.
    + constructor; [|done]. rewrite Hold by done. apply lookup_insert_eq.
    + intros p Hp. apply not_elem_of_cons in Hp as [Hne Hp].
      rewrite Hold by done. by apply lookup_insert_ne.
Qed.

Ltac exec_rows :=
  cbv beta iota zeta delta
    [DatabaseConnector.getPendingTasks DatabaseConnector.SELECT_pending new_Task
     try_catch_SQLException bind ret field deref assign
     gets modify modify_world modify_con print sleep_for connector_call throw
     undefined lift_outcome liftW delete_Task
     set_con set_objs world set_world World_HasWorld frame_HasWorld
     with_locals get_local set_local
     write_rows con objs console clock_ms faults Tasks session autocommit
     AUTO_INCREMENT LAST_INSERT_ID fst snd].

Lemma getPendingTasks_rows_no_fault (rows : list Row) :
  forall (c : Connection) o cons clk (acc : list loc),
  faults c = [] ->
  exists cons',
    DatabaseConnector.getPendingTasks_rows rows (mkWorld c o cons clk, acc)
    = (Ret tt, (mkWorld c (new_Tasks rows o).2 cons' clk,
                acc ++ (new_Tasks rows o).1)).
Proof.
  induction rows as [|r rows IH]; intros c o cons clk acc Hf;
    destruct c as [T s ac ai li fs]; simpl in Hf; subst fs.
  - exists cons. cbn [DatabaseConnector.getPendingTasks_rows]. exec_rows.
    cbn [new_Tasks]. by rewrite app_nil_r.
  - cbn [DatabaseConnector.getPendingTasks_rows]. exec_rows.
    destruct (IH (mkConnection T s ac ai li []) (<[fresh (dom o) := task_of_row r]> o)
                cons clk (acc ++ [fresh (dom o)]) eq_refl) as [cons' Hrun].
    unfold task_of_row in Hrun. rewrite Hrun.
    exists cons'. cbn [new_Tasks]. unfold task_of_row.
    destruct (new_Tasks rows _) as [ps o']. cbn [fst snd].
    by rewrite <- app_assoc.
Qed.

Lemma getPendingTasks_rows_any (rows : list Row) :
  forall (c : Connection) o cons clk (acc : list loc),
  exists r k cons' fs',
    DatabaseConnector.getPendingTasks_rows rows (mkWorld c o cons clk, acc)
    = (r, (mkWorld (with_faults fs' c) (new_Tasks (take k rows) o).2 cons' clk,
           acc ++ (new_Tasks (take k rows) o).1)) /\
    (r = Ret tt \/ r = Raise SQLException) /\
    (faults c = [] -> r = Ret tt /\ k = length rows /\ fs' = []).
Proof.
  induction rows as [|r rows IH]; intros c o cons clk acc;
    destruct c as [T s ac ai li fs]; unfold with_faults;
    cbn [Tasks session autocommit AUTO_INCREMENT LAST_INSERT_ID faults].
  - cbn [DatabaseConnector.getPendingTasks_rows]. exec_rows.
    destruct fs as [|[|] fs]; exec_rows;
      eexists _, 0%nat, _, _; cbn [take new_Tasks fst snd]; rewrite app_nil_r;
      (split; [reflexivity|]); split; first [by auto | discriminate].
  - cbn [DatabaseConnector.getPendingTasks_rows].
    do 7 (exec_rows; destruct fs as [|[|] fs];
          [ (* no further fault *)
            exec_rows;
            destruct (getPendingTasks_rows_no_fault rows (mkConnection T s ac ai li [])
                        (<[fresh (dom o) := task_of_row r]> o) cons clk
                        (acc ++ [fresh (dom o)]) eq_refl) as [cons' Hrun];
            unfold task_of_row in Hrun; rewrite Hrun;
            eexists (Ret tt), (Datatypes.S (length rows)), cons', [];
            cbn [take new_Tasks]; rewrite firstn_all; unfold task_of_row;
            destruct (new_Tasks rows _) as [ps o']; cbn [fst snd];
            rewrite <- app_assoc; (split; [reflexivity|]); split; first [by auto | discriminate]
          | (* this call throws *)
            exec_rows; eexists _, 0%nat, _, _; cbn [take new_Tasks fst snd];
            rewrite app_nil_r; (split; [reflexivity|]); split; [auto | discriminate]
          | ]).
    exec_rows.
    destruct (IH (mkConnection T s ac ai li fs) (<[fresh (dom o) := task_of_row r]> o)
                cons clk (acc ++ [fresh (dom o)])) as (r' & k & cons' & fs' & Hrun & Hr & _).
    unfold task_of_row, with_faults in Hrun.
    cbn [Tasks session autocommit AUTO_INCREMENT LAST_INSERT_ID faults] in Hrun.
    rewrite Hrun.
    eexists r', (Datatypes.S k), cons', fs'. cbn [take new_Tasks]. unfold task_of_row.
    destruct (new_Tasks (take k rows) _) as [ps o']. cbn [fst snd].
    rewrite <- app_assoc. split; [reflexivity|]. split; [exact Hr | discriminate].
Qed.

(** *** [ORDER BY priority ASC, created_at ASC] *)

Lemma order_le_spec (a b : Row) :
  DatabaseConnector.order_le a b = true <-> by_priority_then_age a b.
Proof.
  unfold DatabaseConnector.order_le, by_priority_then_age.
  rewrite orb_true_iff, andb_true_iff, Z.ltb_lt, Z.eqb_eq, Z.leb_le. tauto.
Qed.

Lemma order_le_total (a b : Row) :
  DatabaseConnector.order_le a b = false -> by_priority_then_age b a.
Proof.
  unfold DatabaseConnector.order_le, by_priority_then_age.
  rewrite orb_false_iff, andb_false_iff, Z.ltb_ge, Z.eqb_neq, Z.leb_gt. lia.
Qed.

Lemma by_priority_then_age_trans (a b c : Row) :
  by_priority_then_age a b -> by_priority_then_age b c -> by_priority_then_age a c.
Proof. unfold by_priority_then_age. lia. Qed.

Lemma order_insert_perm (r : Row) (l : list Row) :
  Permutation (DatabaseConnector.order_insert r l) (r :: l).
Proof.
  induction l as [|x l IH]; simpl; [done|].
  destruct (DatabaseConnector.order_le x r); [|done].
  rewrite IH. apply perm_swap.
Qed.

Lemma order_by_perm (l : list Row) : Permutation (DatabaseConnector.order_by l) l.
Proof.
  induction l as [|x l IH]; simpl; [done|].
  rewrite order_insert_perm. by constructor.
Qed.

Lemma order_insert_sorted (r : Row) (l : list Row) :
  StronglySorted by_priority_then_age l ->
  StronglySorted by_priority_then_age (DatabaseConnector.order_insert r l).
Proof.
  induction 1 as [|x l Hl IH Hx]; simpl.
  - constructor; constructor.
  - destruct (DatabaseConnector.order_le x r) eqn:Hle.
    + constructor; [done|].
      eapply Permutation_Forall; [symmetry; apply order_insert_perm|].
      constructor; [by apply order_le_spec | done].
    + apply order_le_total in Hle. constructor; [by constructor|].
      constructor; [done|].
      eapply Forall_impl; [exact Hx|]. intros y Hy. simpl in Hy.
      by apply (by_priority_then_age_trans r x y).
Qed.

Lemma order_by_sorted (l : list Row) :
  StronglySorted by_priority_then_age (DatabaseConnector.order_by l).
Proof.
  induction l as [|x l IH]; simpl; [constructor | by apply order_insert_sorted].
Qed.

Lemma getPendingTasks_run (w : World) :
  exists k cons' fs',
    DatabaseConnector.getPendingTasks w
    = (Ret (new_Tasks (take k (pending_rows (session (con w)))) (objs w)).1,
       mkWorld (with_faults fs' (con w))
         (new_Tasks (take k (pending_rows (session (con w)))) (objs w)).2
         cons' (clock_ms w)) /\
    (faults (con w) = [] -> k = length (pending_rows (session (con w))) /\ fs' = []).
Proof.
  destruct w as [c o cons clk]. destruct c as [T s ac ai li fs].
  unfold with_faults, pending_rows.
  cbn [con objs clock_ms Tasks session autocommit AUTO_INCREMENT LAST_INSERT_ID faults].
  set (rows := DatabaseConnector.order_by (List.filter DatabaseConnector.is_pending s)).
  exec_rows.
  destruct fs as [|[|] fs]; exec_rows.
  - destruct (getPendingTasks_rows_any rows (mkConnection T s ac ai li []) o cons clk [])
      as (r & k & cons' & fs' & Hrun & Hr & Hk).
    fold rows. rewrite Hrun. unfold with_faults.
    cbn [Tasks session autocommit AUTO_INCREMENT LAST_INSERT_ID faults].
    destruct (Hk eq_refl) as (-> & -> & ->). exec_rows. eexists _, _, _.
    split; [reflexivity|]. auto.
  - eexists 0%nat, _, _. cbn [take new_Tasks fst snd]. split; [reflexivity|]. discriminate.
  - destruct fs as [|[|] fs]; exec_rows.
    + destruct (getPendingTasks_rows_any rows (mkConnection T s ac ai li []) o cons clk [])
        as (r & k & cons' & fs' & Hrun & Hr & Hk).
      fold rows. rewrite Hrun. unfold with_faults.
      cbn [Tasks session autocommit AUTO_INCREMENT LAST_INSERT_ID faults].
      destruct Hr as [-> | ->]; exec_rows; eexists k, _, _;
        (split; [reflexivity|]); discriminate.
    + eexists 0%nat, _, _. cbn [take new_Tasks fst snd]. split; [reflexivity|].
      discriminate.
    + destruct (getPendingTasks_rows_any rows (mkConnection T s ac ai li fs) o cons clk [])
        as (r & k & cons' & fs' & Hrun & Hr & Hk).
      fold rows. rewrite Hrun. unfold with_faults.
      cbn [Tasks session autocommit AUTO_INCREMENT LAST_INSERT_ID faults].
      destruct Hr as [-> | ->]; exec_rows; eexists k, _, _;
        (split; [reflexivity|]); discriminate.
Qed.

(** X10.  [getPendingTasks] when no call into the connector throws:
    the rows it reads are the pending rows of the table, each once, in
    ascending priority and, among equals, ascending creation time; it
    returns one new [Task] object per row, in that order, holding the
    columns of the row with a NULL assignee read as 0.  The pointers are
    distinct and new, the objects that existed are untouched, and so are
    the connection and the clock. *)
Theorem getPendingTasks_loads_pending (w : World) :
  faults (con w) = [] ->
  exists ps rows w',
    DatabaseConnector.getPendingTasks w = (Ret ps, w') /\
    con w' = con w /\ clock_ms w' = clock_ms w /\
    Permutation rows (List.filter DatabaseConnector.is_pending (session (con w))) /\
    StronglySorted by_priority_then_age rows /\
    Forall2 (fun p r => objs w' !! p = Some (task_of_row r)) ps rows /\
    NoDup ps /\
    Forall (fun p => objs w !! p = None) ps /\
    forall p, p ∉ ps -> objs w' !! p = objs w !! p.
Proof.
  intros Hf. destruct (getPendingTasks_run w) as (k & cons' & fs' & Hrun & Hk).
  destruct (Hk Hf) as [-> ->]. rewrite firstn_all in Hrun.
  destruct (new_Tasks_spec (pending_rows (session (con w))) (objs w))
    as (Hnd & Hfresh & Hobjs & Hold).
  eexists _, (pending_rows (session (con w))), _. split; [exact Hrun|].
  cbn [con clock_ms objs]. split.
  { destruct w as [c o cons clk]. destruct c. simpl in *. by subst. }
  split; [done|]. split; [apply order_by_perm|]. split; [apply order_by_sorted|].
  done.
Qed.

Lemma getPendingTasks_loads_pending_witness :
  exists ps rows w',
    DatabaseConnector.getPendingTasks
      (start (connected [deploy_row 1 "completed"; deploy_row 2 "pending"] 3 []) ∅)
    = (Ret ps, w') /\
    con w' = con (start (connected [deploy_row 1 "completed"; deploy_row 2 "pending"] 3 []) ∅) /\
    clock_ms w'
      = clock_ms (start (connected [deploy_row 1 "completed"; deploy_row 2 "pending"] 3 []) ∅) /\
    Permutation rows
      (List.filter DatabaseConnector.is_pending
         (session (con (start (connected [deploy_row 1 "completed";
                                          deploy_row 2 "pending"] 3 []) ∅)))) /\
    StronglySorted by_priority_then_age rows /\
    Forall2 (fun p r => objs w' !! p = Some (task_of_row r)) ps rows /\
    NoDup ps /\
    Forall (fun p =>
              objs (start (connected [deploy_row 1 "completed";
                                      deploy_row 2 "pending"] 3 []) ∅) !! p = None) ps /\
    forall p, p ∉ ps ->
      objs w' !! p
      = objs (start (connected [deploy_row 1 "completed"; deploy_row 2 "pending"] 3 []) ∅)
          !! p.
Proof.
  exact (getPendingTasks_loads_pending
           (start (connected [deploy_row 1 "completed"; deploy_row 2 "pending"] 3 []) ∅)
           eq_refl).
Defined.

(** X11.  [getPendingTasks] lets no exception through, whatever the
    connector does: it returns normally with the objects made of the
    first [k] rows of the result, for some [k]; the table is as before,
    and every object it allocated is in the vector returned. *)
Theorem getPendingTasks_never_throws (w : World) :
  exists ps k w',
    DatabaseConnector.getPendingTasks w = (Ret ps, w') /\
    Tasks (con w') = Tasks (con w) /\
    session (con w') = session (con w) /\
    Forall2 (fun p r => objs w' !! p = Some (task_of_row r)) ps
            (take k (pending_rows (session (con w)))) /\
    forall p, p ∉ ps -> objs w' !! p = objs w !! p.
Proof.
  destruct (getPendingTasks_run w) as (k & cons' & fs' & Hrun & _).
  destruct (new_Tasks_spec (take k (pending_rows (session (con w)))) (objs w))
    as (_ & _ & Hobjs & Hold).
  eexists _, k, _. split; [exact Hrun|]. done.
Qed.

(** ** [updateTaskStatus]: all or nothing *)

(** X12.  [updateTaskStatus] on a row that exists, whatever the
    connector does: the call returns a pair; the committed table is
    either as before or the table with the new status in the rows of
    this identifier; when the pair says [true], the update is committed,
    no transaction is left open, autocommit is on again and the string
    is the status the row had.  The string returned with [false] is that
    status or, when the failure came before it was read, empty. *)
Theorem updateTaskStatus_all_or_nothing (w : World) (id : Z) (new_status st : string) :
  status_of id (session (con w)) = Some st ->
  exists b s w',
    DatabaseConnector.updateTaskStatus id new_status w = (Ret (b, s), w') /\
    (s = st \/ (b = false /\ s = "")) /\
    (Tasks (con w') = Tasks (con w) \/
     Tasks (con w') = updated id new_status (session (con w))) /\
    (b = true ->
     Tasks (con w') = updated id new_status (session (con w)) /\
     session (con w') = Tasks (con w') /\ autocommit (con w') = true /\ s = st).
Proof.
  intros Hst. destruct w as [c o cons clk]. destruct c as [T s ac ai li fs].
  cbn [con session Tasks autocommit] in *. unfold updated.
  destruct (status_of_Some _ _ _ Hst) as (r & rs & Hfilter & <-).
  repeat (exec;
          first [ next_fault fs
                | progress (rewrite Hfilter; cbv beta iota delta [List.map]) ]).
  all: eexists _, _, _; (split; [reflexivity|]); cbv beta iota.
  all: split; [auto|]; split; [auto|]; first [discriminate | auto].
Qed.

Lemma updateTaskStatus_all_or_nothing_witness :
  exists b s w',
    DatabaseConnector.updateTaskStatus 1 "in_progress"
      (start (connected [deploy_row 1 "pending"] 2 [false; false; true]) ∅)
    = (Ret (b, s), w') /\
    (s = "pending" \/ (b = false /\ s = "")) /\
    (Tasks (con w')
     = Tasks (con (start (connected [deploy_row 1 "pending"] 2 [false; false; true]) ∅)) \/
     Tasks (con w')
     = updated 1 "in_progress"
         (session (con (start (connected [deploy_row 1 "pending"] 2
                                 [false; false; true]) ∅)))) /\
    (b = true ->
     Tasks (con w')
     = updated 1 "in_progress"
         (session (con (start (connected [deploy_row 1 "pending"] 2
                                 [false; false; true]) ∅))) /\
     session (con w') = Tasks (con w') /\ autocommit (con w') = true /\ s = "pending").
Proof.
  exact (updateTaskStatus_all_or_nothing
           (start (connected [deploy_row 1 "pending"] 2 [false; false; true]) ∅)
           1 "in_progress" "pending" eq_refl).
Defined.

(** X13.  [updateTaskStatus] for an identifier that no row has,
    whatever the connector does: the committed table is as before, and
    the call never reports success.  When none of the first five calls
    into the connector throws, [std::runtime_error("Task not found")]
    leaves the function and autocommit stays off; otherwise the handler
    runs and the call returns [(false, "")]. *)
Theorem updateTaskStatus_unknown_id (w : World) (id : Z) (new_status : string) :
  status_of id (session (con w)) = None ->
  exists r w',
    DatabaseConnector.updateTaskStatus id new_status w = (r, w') /\
    Tasks (con w') = Tasks (con w) /\
    ((r = Raise (runtime_error "Task not found") /\ autocommit (con w') = false /\
      true ∉ take 5 (faults (con w))) \/
     (r = Ret (false, "") /\ true ∈ take 5 (faults (con w)))).
Proof.
  intros Hst. destruct w as [c o cons clk]. destruct c as [T s ac ai li fs].
  cbn [con session Tasks autocommit faults] in *.
  assert (List.filter (fun r => row_task_id r =? id) s = []) as Hfilter.
  { unfold status_of in Hst. by destruct (List.filter _ s). }
  repeat (exec;
          first [ next_fault fs
                | progress (rewrite Hfilter; cbv beta iota delta [List.map]) ]).
  all: eexists _, _; (split; [reflexivity|]); cbv beta iota; (split; [reflexivity|]).
  all: cbn [take].
  all: first
         [ right; split; [reflexivity|];
           repeat first [ apply list_elem_of_here | apply list_elem_of_further ]
         | left; split; [reflexivity|]; split; [reflexivity|];
           intros Hin;
           repeat (apply elem_of_cons in Hin as [Hin|Hin]; [discriminate Hin|]);
           by apply elem_of_nil in Hin ].
Qed.

Lemma updateTaskStatus_unknown_id_witness :
  exists r w',
    DatabaseConnector.updateTaskStatus 999 "in_progress"
      (start (connected [deploy_row 1 "pending"] 2 [false; true]) ∅) = (r, w') /\
    Tasks (con w')
      = Tasks (con (start (connected [deploy_row 1 "pending"] 2 [false; true]) ∅)) /\
    ((r = Raise (runtime_error "Task not found") /\ autocommit (con w') = false /\
      true ∉ take 5 (faults (con (start (connected [deploy_row 1 "pending"] 2
                                        [false; true]) ∅)))) \/
     (r = Ret (false, "") /\
      true ∈ take 5 (faults (con (start (connected [deploy_row 1 "pending"] 2
                                       [false; true]) ∅))))).
Proof.
  exact (updateTaskStatus_unknown_id
           (start (connected [deploy_row 1 "pending"] 2 [false; true]) ∅)
           999 "in_progress" eq_refl).
Defined.

Lemma updated_other (id : Z) (st : string) (rows : list Row) :
  id ∉ map row_task_id rows -> updated id st rows = rows.
Proof.
  unfold updated. induction rows as [|r rows IH]; simpl; [done|].
  intros [Hne Hnin]%not_elem_of_cons.
  destruct (Z.eqb_spec (row_task_id r) id); [done|]. by rewrite IH.
Qed.

Lemma updated_back (id : Z) (new_status st : string) (rows : list Row) :
  NoDup (map row_task_id rows) -> status_of id rows = Some st ->
  updated id st (updated id new_status rows) = rows.
Proof.
  unfold status_of. induction rows as [|r rows IH]; [done|].
  cbn [map]. intros [Hnin Hnd]%NoDup_cons. unfold updated in *. cbn [map List.filter].
  destruct (Z.eqb_spec (row_task_id r) id) as [Heq|Hne].
  - cbn [head fmap option_fmap option_map with_row_status row_task_id].
    intros [= Hst]. subst id. rewrite Z.eqb_refl.
    pose proof (updated_other (row_task_id r)) as Hother. unfold updated in Hother.
    rewrite (Hother new_status rows Hnin), (Hother st rows Hnin).
    destruct r; simpl in *; by subst.
  - intros Hst. destruct (Z.eqb_spec (row_task_id r) id); [done|].
    by rewrite IH.
Qed.

(** X14.  On a table whose identifiers are distinct, an update of a
    row followed by the update back to the status that the first one
    returned restores the table, no call into the connector failing:
    this is what the undo of [TaskManager] relies on. *)
Theorem updateTaskStatus_round_trip (w : World) (id : Z) (new_status st : string) :
  faults (con w) = [] ->
  NoDup (map row_task_id (session (con w))) ->
  status_of id (session (con w)) = Some st ->
  exists w1 w2,
    DatabaseConnector.updateTaskStatus id new_status w = (Ret (true, st), w1) /\
    status_of id (Tasks (con w1)) = Some new_status /\
    DatabaseConnector.updateTaskStatus id st w1 = (Ret (true, new_status), w2) /\
    Tasks (con w2) = session (con w) /\ session (con w2) = session (con w).
Proof.
  intros Hf Hnd Hst.
  destruct (updateTaskStatus_success w id new_status st Hf Hst) as [cons1 Hrun1].
  pose proof (status_of_update id new_status _ st Hst) as Hst1.
  match type of Hrun1 with _ = (_, ?w1) =>
    destruct (updateTaskStatus_success w1 id st new_status eq_refl Hst1) as [cons2 Hrun2]
  end.
  eexists _, _. split; [exact Hrun1|]. split; [exact Hst1|].
  split; [exact Hrun2|]. cbn [con Tasks session].
  pose proof (updated_back id new_status st _ Hnd Hst) as Hback. unfold updated in Hback.
  by rewrite Hback.
Qed.

Lemma updateTaskStatus_round_trip_witness :
  exists w1 w2,
    DatabaseConnector.updateTaskStatus 2 "in_progress"
      (start (connected [deploy_row 1 "completed"; deploy_row 2 "pending"] 3 []) ∅)
    = (Ret (true, "pending"), w1) /\
    status_of 2 (Tasks (con w1)) = Some "in_progress" /\
    DatabaseConnector.updateTaskStatus 2 "pending" w1 = (Ret (true, "in_progress"), w2) /\
    Tasks (con w2)
    = session (con (start (connected [deploy_row 1 "completed"; deploy_row 2 "pending"]
                             3 []) ∅)) /\
    session (con w2)
    = session (con (start (connected [deploy_row 1 "completed"; deploy_row 2 "pending"]
                             3 []) ∅)).
Proof.
  refine (updateTaskStatus_round_trip
            (start (connected [deploy_row 1 "completed"; deploy_row 2 "pending"] 3 []) ∅)
            2 "in_progress" "pending" eq_refl _ eq_refl).
  refine (bool_decide_unpack _ _). vm_compute. exact I.
Defined.

(** ** [TaskManager]: from the queue to the table *)

Ltac exec_mgr :=
  cbv beta iota zeta delta
    [TaskManager.submit_new_task TaskManager.process_new_task_queue
     TaskManager.load_tasks_into_scheduler
     TaskManager.run_task_scheduler
     TaskManager.run_task_scheduler_body TaskManager.run_task_scheduler_complete
     TaskManager.undo_last_action TaskManager.separator
     bind ret field deref assign new_Task
     gets modify modify_world print sleep_for throw
     undefined out_of_fuel lift_outcome liftW delete_Task
     set_objs world set_world World_HasWorld frame_HasWorld
     get_local set_local
     con objs console clock_ms fst snd].

(** X15.  [submit_new_task] makes one new [Task] object, with status
    [pending] and identifier 0, and puts it at the back of the queue of
    new tasks; it writes two lines and touches neither the connection
    nor the clock. *)
Theorem submit_new_task_enqueues (w : World) (this : TaskManager.t)
    (cells : list (loc * loc)) (name desc : string) (prio user_id : Z) :
  Queue_repr (TaskManager.new_task_queue this) cells ->
  Z.of_nat (length cells) < INT_MAX ->
  exists q' l,
    TaskManager.submit_new_task name desc prio user_id (w, this)
    = (Ret tt,
       ({| con := con w;
           objs := <[fresh (dom (objs w)) := Task_new name desc prio "pending" 0 user_id]>
                     (objs w);
           console := (stdout, "[Queue]: Enqueued " +:+ name)
                      :: (stdout, nl +:+ "User submitted new task: '" +:+ name +:+ "'")
                      :: console w;
           clock_ms := clock_ms w |},
        TaskManager.set_new_task_queue q' this)) /\
    Queue_repr q' (cells ++ [(l, fresh (dom (objs w)))]).
Proof.
  intros Hq Hlt.
  destruct (Queue_enqueue_repr _ cells (fresh (dom (objs w))) Hq Hlt)
    as (q' & l & Henq & Hq').
  exists q', l. split; [|done]. destruct w as [c o cons clk]. cbn [objs] in Henq.
  exec_mgr. rewrite Henq. reflexivity.
Qed.

Lemma submit_new_task_enqueues_witness :
  exists q' l,
    TaskManager.submit_new_task "Deploy to prod (C++)" "Push v2.0" 2 1
      (start (connected [] 1 []) ∅, TaskManager.new)
    = (Ret tt,
       ({| con := con (start (connected [] 1 []) ∅);
           objs := <[fresh (dom (objs (start (connected [] 1 []) ∅))) :=
                       Task_new "Deploy to prod (C++)" "Push v2.0" 2 "pending" 0 1]>
                     (objs (start (connected [] 1 []) ∅));
           console := (stdout, "[Queue]: Enqueued " +:+ "Deploy to prod (C++)")
                      :: (stdout, nl +:+ "User submitted new task: '"
                                     +:+ "Deploy to prod (C++)" +:+ "'")
                      :: console (start (connected [] 1 []) ∅);
           clock_ms := clock_ms (start (connected [] 1 []) ∅) |},
        TaskManager.set_new_task_queue q' TaskManager.new)) /\
    Queue_repr q' ([] ++ [(l, fresh (dom (objs (start (connected [] 1 []) ∅))))]).
Proof.
  refine (submit_new_task_enqueues (start (connected [] 1 []) ∅) TaskManager.new []
            "Deploy to prod (C++)" "Push v2.0" 2 1 Queue_repr_new _).
  unfold INT_MAX. simpl. lia.
Defined.

Ltac exec_loop :=
  cbv beta iota zeta delta
    [bind ret field deref assign new_Task
     gets modify modify_world print sleep_for throw
     undefined out_of_fuel lift_outcome liftW delete_Task
     set_objs world set_world World_HasWorld frame_HasWorld
     get_local set_local
     con objs console clock_ms fst snd].

Lemma in_cons_decide (p p' : loc) (ps : list loc) (o : gmap loc Task) (x : Task) :
  p ∉ ps ->
  (if decide (p' ∈ ps) then None else delete p (<[p := x]> o) !! p')
  = (if decide (p' ∈ p :: ps) then None else o !! p').
Proof.
  intros Hp. destruct (decide (p' ∈ ps)) as [Hin|Hnin].
  - rewrite decide_True; [done | by apply elem_of_cons; right].
  - destruct (decide (p' = p)) as [->|Hne].
    + rewrite decide_True by (apply elem_of_cons; by left). apply lookup_delete_eq.
    + rewrite decide_False by (intros [?|?]%elem_of_cons; done).
      rewrite lookup_delete_ne by done. by apply lookup_insert_ne.
Qed.

Lemma foldr_delete_comm (ps : list loc) (o : gmap loc Task) (p : loc) :
  foldr delete (delete p o) ps = delete p (foldr delete o ps).
Proof.
  induction ps as [|p' ps IH]; [done|]. cbn [foldr]. by rewrite IH, delete_delete.
Qed.

(** When the database is down, [createTask] fails in its first call,
    [prepareStatement], and every task of the queue is dropped. *)
Lemma process_new_task_queue_loop_down (fuel : nat) :
  forall (this : TaskManager.t) (cells : list (loc * loc)) (w : World) (rest : list bool),
  Queue_repr (TaskManager.new_task_queue this) cells ->
  owns (Queue.nodes (TaskManager.new_task_queue this)) cells ->
  NoDup cells.*2 ->
  Forall (fun p => is_Some (objs w !! p)) cells.*2 ->
  faults (con w) = replicate (length cells) true ++ rest ->
  (length cells <= fuel)%nat ->
  exists cons',
    TaskManager.process_new_task_queue_loop fuel (w, this)
    = (Ret tt,
       (mkWorld (with_faults rest (con w))
          (foldr delete (objs w) cells.*2) cons'
          (clock_ms w + 500 * Z.of_nat (length cells)),
        TaskManager.set_new_task_queue Queue.new this)).
Proof.
  assert (forall (this : TaskManager.t) (w : World) (rest : list bool),
            Queue_repr (TaskManager.new_task_queue this) [] ->
            owns (Queue.nodes (TaskManager.new_task_queue this)) [] ->
            faults (con w) = rest ->
            forall fuel,
              TaskManager.process_new_task_queue_loop fuel (w, this)
              = (Ret tt,
                 (mkWorld (with_faults rest (con w)) (objs w) (console w)
                    (clock_ms w + 500 * Z.of_nat 0),
                  TaskManager.set_new_task_queue Queue.new this))) as Hempty.
  { intros this w rest Hq Ho Hf fuel'.
    pose proof (Queue_repr_empty _ Hq Ho) as Hnew.
    destruct this as [q sch st]. cbn in Hnew. subst q.
    destruct w as [c o cons clk]. destruct c as [T s ac ai li fs]. cbn in Hf. subst fs.
    unfold with_faults. cbn. rewrite Z.add_0_r. destruct fuel'; reflexivity. }
  induction fuel as [|fuel IH]; intros this cells w rest Hq Ho Hnd Hlive Hf Hlen.
  - destruct cells; [|cbn in Hlen; lia]. exists (console w). by apply Hempty.
  - destruct cells as [|[l p] cells]; [exists (console w); by apply Hempty|].
    cbn [fmap list_fmap snd foldr length replicate app] in Hnd, Hlive, Hf |- *.
    apply NoDup_cons in Hnd as [Hp Hnd].
    apply Forall_cons in Hlive as [[t Ht] Hlive].
    destruct (Queue_dequeue_owns _ l p cells Hq Ho) as (q1 & Hdeq & Hq1 & Ho1).
    destruct w as [c o cons clk]. destruct c as [T s ac ai li fs].
    cbn [objs con faults clock_ms] in *. subst fs.
    cbn [TaskManager.process_new_task_queue_loop]. exec_loop.
    unfold Queue.isEmpty. rewrite (Queue_head _ _ Hq).
    cbn [first_loc head fmap option_fmap option_map fst].
    rewrite Hdeq. exec_loop. rewrite Ht. exec_loop. exec. exec_loop.
    rewrite Ht. exec_loop.
    lazymatch goal with
    | |- context [TaskManager.process_new_task_queue_loop fuel (?W, ?this1)] =>
      destruct (IH this1 cells W rest Hq1 Ho1 Hnd) as [cons' Hloop]
    end.
    { cbn [objs]. apply Forall_forall. intros p' Hin.
      rewrite lookup_delete_ne; [exact (proj1 (Forall_forall _ _) Hlive p' Hin)|].
      by intros <-. }
    { reflexivity. }
    { cbn in Hlen. lia. }
    rewrite Hloop. exists cons'. unfold with_faults.
    cbn [con objs clock_ms Tasks session autocommit AUTO_INCREMENT LAST_INSERT_ID faults].
    rewrite foldr_delete_comm.
    replace (clk + 500 + 500 * Z.of_nat (length cells))
      with (clk + 500 * Z.of_nat (Datatypes.S (length cells))) by lia.
    reflexivity.
Qed.

Lemma foldr_delete_lookup (ps : list loc) (o : gmap loc Task) (p : loc) :
  foldr delete o ps !! p = if decide (p ∈ ps) then None else o !! p.
Proof.
  induction ps as [|p' ps IH]; cbn.
  - destruct (decide (p ∈ [])) as [Hin|]; [by apply elem_of_nil in Hin | done].
  - destruct (decide (p = p')) as [->|Hne].
    + rewrite lookup_delete_eq, decide_True; [done | apply list_elem_of_here].
    + rewrite lookup_delete_ne, IH by done.
      destruct (decide (p ∈ ps)) as [Hin|Hnin].
      * rewrite decide_True; [done | by apply list_elem_of_further].
      * rewrite decide_False; [done|]. by intros [?|?]%elem_of_cons.
Qed.

(** X16.  [process_new_task_queue] when the database is down, that is
    when the first call of every [createTask] throws: the loop still
    ends with the queue empty, every task that waited in the queue has
    been deleted, and no row has been inserted; the tasks are lost, and
    the last line written is "Task queue empty. All new tasks
    persisted." all the same. *)
Theorem process_new_task_queue_database_down (w : World) (this : TaskManager.t)
    (ops : list (queue_op loc)) (out : list (option loc)) (rest : list bool)
    (fuel : nat) :
  Queue_run ops Queue.new = Ret (out, TaskManager.new_task_queue this) ->
  Z.of_nat (length (enqueued ops)) <= INT_MAX ->
  NoDup (waiting_after ops []) ->
  Forall (fun p => is_Some (objs w !! p)) (waiting_after ops []) ->
  faults (con w) = replicate (length (waiting_after ops [])) true ++ rest ->
  (length (waiting_after ops []) <= fuel)%nat ->
  exists w',
    TaskManager.process_new_task_queue fuel (w, this)
    = (Ret tt, (w', TaskManager.set_new_task_queue Queue.new this)) /\
    Tasks (con w') = Tasks (con w) /\ session (con w') = session (con w) /\
    faults (con w') = rest /\
    (forall p, objs w' !! p
               = if decide (p ∈ waiting_after ops []) then None else objs w !! p) /\
    head (console w') = Some (stdout, "Task queue empty. All new tasks persisted.").
Proof.
  intros Hrun Hb Hnd Hlive Hf Hfuel.
  destruct (Queue_run_owns ops Queue.new [] Queue_repr_new owns_new)
    as (out' & q & cells & Hrun' & Hq & Ho & Hw); [cbn; lia|].
  rewrite Hrun in Hrun'. injection Hrun' as _ <-. cbn in Hw. rewrite <- Hw in *.
  rewrite length_fmap in Hf, Hfuel.
  destruct w as [c o cons clk].
  destruct (process_new_task_queue_loop_down fuel this cells
              (mkWorld c o
                 ((stdout, nl +:+ "=========================" +:+ " "
                           +:+ "Processing New Task Queue" +:+ " "
                           +:+ "=========================") :: cons) clk) rest
              Hq Ho Hnd Hlive Hf Hfuel) as [cons' Hloop].
  eexists. split.
  { exec_mgr. rewrite Hloop. reflexivity. }
  cbn [con objs console head with_faults Tasks session faults].
  split; [done|]. split; [done|]. split; [done|]. split; [|done].
  intros p. apply foldr_delete_lookup.
Qed.

Lemma process_new_task_queue_database_down_witness :
  exists w',
    TaskManager.process_new_task_queue 1
      (start (connected [] 1 [true]) {[ 1%positive := deploy_task 0 ]},
       TaskManager.set_new_task_queue
         (Queue.mk {[ 1%positive := mkNode 1%positive None ]}
                   (Some 1%positive) (Some 1%positive) 1)
         TaskManager.new)
    = (Ret tt,
       (w', TaskManager.set_new_task_queue Queue.new
              (TaskManager.set_new_task_queue
                 (Queue.mk {[ 1%positive := mkNode 1%positive None ]}
                           (Some 1%positive) (Some 1%positive) 1)
                 TaskManager.new))) /\
    Tasks (con w')
    = Tasks (con (start (connected [] 1 [true]) {[ 1%positive := deploy_task 0 ]})) /\
    session (con w')
    = session (con (start (connected [] 1 [true]) {[ 1%positive := deploy_task 0 ]})) /\
    faults (con w') = [] /\
    (forall p, objs w' !! p
               = if decide (p ∈ waiting_after [Enqueue 1%positive] [])
                 then None
                 else objs (start (connected [] 1 [true])
                              {[ 1%positive := deploy_task 0 ]}) !! p) /\
    head (console w') = Some (stdout, "Task queue empty. All new tasks persisted.").
Proof.
  refine (process_new_task_queue_database_down
            (start (connected [] 1 [true]) {[ 1%positive := deploy_task 0 ]})
            (TaskManager.set_new_task_queue
               (Queue.mk {[ 1%positive := mkNode 1%positive None ]}
                         (Some 1%positive) (Some 1%positive) 1)
               TaskManager.new)
            [Enqueue 1%positive] [] [] 1 _ _ _ _ eq_refl _).
  - vm_compute. reflexivity.
  - unfold INT_MAX. simpl. lia.
  - apply NoDup_singleton.
  - repeat constructor. vm_compute. eauto.
  - simpl. lia.
Defined.

Lemma objs_after_delete (p : loc) (ps : list loc) (ts : list Task)
    (o : gmap loc Task) (x : Task) :
  p ∉ ps -> Forall2 (fun p' t => o !! p' = Some t) ps ts ->
  Forall2 (fun p' t => delete p (<[p := x]> o) !! p' = Some t) ps ts.
Proof.
  intros Hp Hobjs. induction Hobjs as [|p' t ps ts Hp' _ IH]; [constructor|].
  apply not_elem_of_cons in Hp as [Hne Hp]. constructor; [|by apply IH].
  by rewrite lookup_delete_ne, lookup_insert_ne.
Qed.

Lemma process_new_task_queue_loop_no_fault (fuel : nat) :
  forall (this : TaskManager.t) (cells : list (loc * loc)) (ts : list Task) (w : World),
  Queue_repr (TaskManager.new_task_queue this) cells ->
  owns (Queue.nodes (TaskManager.new_task_queue this)) cells ->
  NoDup cells.*2 ->
  Forall2 (fun p t => objs w !! p = Some t) cells.*2 ts ->
  faults (con w) = [] -> autocommit (con w) = true ->
  Tasks (con w) = session (con w) ->
  (length cells <= fuel)%nat ->
  exists w',
    TaskManager.process_new_task_queue_loop fuel (w, this)
    = (Ret tt, (w', TaskManager.set_new_task_queue Queue.new this)) /\
    Tasks (con w')
    = session (con w) ++ saved_rows (AUTO_INCREMENT (con w)) (clock_ms w) ts /\
    session (con w') = Tasks (con w') /\
    AUTO_INCREMENT (con w') = AUTO_INCREMENT (con w) + Z.of_nat (length ts) /\
    faults (con w') = [] /\ autocommit (con w') = true /\
    (forall p, objs w' !! p = if decide (p ∈ cells.*2) then None else objs w !! p) /\
    clock_ms w' = clock_ms w + 500 * Z.of_nat (length cells).
Proof.
  assert (forall (this : TaskManager.t) (w : World),
            Queue_repr (TaskManager.new_task_queue this) [] ->
            owns (Queue.nodes (TaskManager.new_task_queue this)) [] ->
            forall fuel,
              TaskManager.process_new_task_queue_loop fuel (w, this)
              = (Ret tt, (w, TaskManager.set_new_task_queue Queue.new this))) as Hempty.
  { intros this w Hq Ho fuel'.
    pose proof (Queue_repr_empty _ Hq Ho) as Hnew.
    destruct this as [q sch st]. simpl in Hnew. subst q.
    destruct fuel'; reflexivity. }
  assert (forall (o : gmap loc Task) (p : loc),
            o !! p = (if decide (p ∈ ([] : list loc)) then None else o !! p)) as Hnil.
  { intros o p. destruct (decide (p ∈ [])) as [Hin|]; [by apply elem_of_nil in Hin | done]. }
  induction fuel as [|fuel IH]; intros this cells ts w Hq Ho Hnd Hobjs Hf Hac HT Hlen.
  - destruct cells; [|simpl in Hlen; lia]. apply Forall2_nil_inv_l in Hobjs. subst ts.
    exists w. rewrite Hempty by done. simpl. rewrite app_nil_r.
    split; [done|]. split; [done|]. split; [done|]. split; [lia|]. split; [done|].
    split; [done|]. split; [apply Hnil | lia].
  - destruct cells as [|[l p] cells].
    { apply Forall2_nil_inv_l in Hobjs. subst ts.
      exists w. rewrite Hempty by done. simpl. rewrite app_nil_r.
      split; [done|]. split; [done|]. split; [done|]. split; [lia|]. split; [done|].
    split; [done|]. split; [apply Hnil | lia]. }
    cbn [fmap list_fmap snd] in Hnd, Hobjs.
    apply NoDup_cons in Hnd as [Hp Hnd].
    apply Forall2_cons_inv_l in Hobjs as (t & ts' & Ht & Hobjs & ->).
    destruct (Queue_dequeue_owns _ l p cells Hq Ho) as (q1 & Hdeq & Hq1 & Ho1).
    destruct w as [c o cons clk]. destruct c as [T s ac ai li fs].
    cbn [objs con faults autocommit Tasks session AUTO_INCREMENT clock_ms] in *.
    subst fs ac T.
    cbn [TaskManager.process_new_task_queue_loop]. exec_loop.
    unfold Queue.isEmpty. rewrite (Queue_head _ _ Hq).
    cbn [first_loc head fmap option_fmap option_map fst].
    rewrite Hdeq. exec_loop. rewrite Ht. exec_loop.
    lazymatch goal with
    | |- context [DatabaseConnector.createTask p ?W] =>
      destruct (createTask_success W p t eq_refl Ht) as (cons1 & Hrun)
    end.
    rewrite Hrun. unfold created_row.
    cbn [objs con faults autocommit Tasks session AUTO_INCREMENT clock_ms].
    exec_loop. rewrite lookup_insert_eq. exec_loop.
    lazymatch goal with
    | |- context [TaskManager.process_new_task_queue_loop fuel (?W, ?this1)] =>
      destruct (IH this1 cells ts' W Hq1 Ho1 Hnd
                  (objs_after_delete _ _ _ _ _ Hp Hobjs) eq_refl eq_refl eq_refl)
        as (w' & Hloop & HT' & Hs' & Hai' & Hf' & Hac' & Hobjs' & Hclk');
        [simpl in Hlen; lia|]
    end.
    exists w'. split; [exact Hloop|].
    destruct w' as [c' o' cons' clk']. destruct c' as [T' s' ac' ai' li' fs'].
    cbn [objs con faults autocommit Tasks session AUTO_INCREMENT clock_ms] in *.
    cbv beta iota. cbn [saved_rows length fmap list_fmap snd].
    subst. rewrite <- app_assoc.
    split; [done|]. split; [done|]. split; [lia|]. split; [done|]. split; [done|].
    split; [|lia].
    intros p'. rewrite Hobjs'. by apply in_cons_decide.
Qed.

Lemma saved_rows_ids (ts : list Task) : forall next_id clk,
  map row_task_id (saved_rows next_id clk ts)
  = map (fun i => next_id + Z.of_nat i) (seq 0 (length ts)).
Proof.
  induction ts as [|t ts IH]; intros ai clk; [done|].
  cbn [saved_rows map row_task_id length seq]. f_equal; [lia|].
  rewrite IH, <- seq_shift, map_map. apply map_ext. intros i. lia.
Qed.

Lemma saved_rows_titles (ts : list Task) : forall next_id clk,
  map row_title (saved_rows next_id clk ts) = map title ts.
Proof.
  induction ts as [|t ts IH]; intros ai clk; [done|].
  cbn [saved_rows map row_title]. by rewrite IH.
Qed.

(** X17.  [process_new_task_queue] when no call into the connector
    throws, on a connection with autocommit on and nothing uncommitted:
    the table gains one row per task that waited in the queue, in the
    order in which the tasks were enqueued, with consecutive
    identifiers from the AUTO_INCREMENT counter on and the titles of the
    tasks. *)
Theorem process_new_task_queue_persists (w : World) (this : TaskManager.t)
    (ops : list (queue_op loc)) (out : list (option loc)) (ts : list Task) (fuel : nat) :
  Queue_run ops Queue.new = Ret (out, TaskManager.new_task_queue this) ->
  Z.of_nat (length (enqueued ops)) <= INT_MAX ->
  NoDup (waiting_after ops []) ->
  Forall2 (fun p t => objs w !! p = Some t) (waiting_after ops []) ts ->
  faults (con w) = [] -> autocommit (con w) = true ->
  Tasks (con w) = session (con w) ->
  (length ts <= fuel)%nat ->
  exists w',
    TaskManager.process_new_task_queue fuel (w, this)
    = (Ret tt, (w', TaskManager.set_new_task_queue Queue.new this)) /\
    Tasks (con w')
    = Tasks (con w) ++ saved_rows (AUTO_INCREMENT (con w)) (clock_ms w) ts /\
    map row_task_id (saved_rows (AUTO_INCREMENT (con w)) (clock_ms w) ts)
    = map (fun i => AUTO_INCREMENT (con w) + Z.of_nat i) (seq 0 (length ts)) /\
    map row_title (saved_rows (AUTO_INCREMENT (con w)) (clock_ms w) ts) = map title ts.
Proof.
  intros Hrun Hb Hnd Hobjs Hf Hac HT Hfuel.
  destruct (Queue_run_owns ops Queue.new [] Queue_repr_new owns_new)
    as (out' & q & cells & Hrun' & Hq & Ho & Hw); [simpl; lia|].
  rewrite Hrun in Hrun'. injection Hrun' as _ <-. simpl in Hw. rewrite <- Hw in *.
  destruct w as [c o cons clk].
  destruct (process_new_task_queue_loop_no_fault fuel this cells ts
              (mkWorld c o
                 ((stdout, nl +:+ "=========================" +:+ " "
                           +:+ "Processing New Task Queue" +:+ " "
                           +:+ "=========================") :: cons) clk)
              Hq Ho Hnd Hobjs Hf Hac HT)
    as (w' & Hloop & HT' & _).
  { apply Forall2_length in Hobjs. rewrite length_fmap in Hobjs. lia. }
  destruct w' as [c' o' cons' clk'].
  eexists. split; [|split; [|split]].
  - exec_mgr. rewrite Hloop. reflexivity.
  - cbn [con Tasks session AUTO_INCREMENT clock_ms] in *. by rewrite HT, HT'.
  - apply saved_rows_ids.
  - apply saved_rows_titles.
Qed.

Lemma process_new_task_queue_persists_witness :
  exists w',
    TaskManager.process_new_task_queue 1
      (start (connected [] 1 []) {[ 1%positive := deploy_task 0 ]},
       TaskManager.set_new_task_queue
         (Queue.mk {[ 1%positive := mkNode 1%positive None ]}
                   (Some 1%positive) (Some 1%positive) 1)
         TaskManager.new)
    = (Ret tt,
       (w', TaskManager.set_new_task_queue Queue.new
              (TaskManager.set_new_task_queue
                 (Queue.mk {[ 1%positive := mkNode 1%positive None ]}
                           (Some 1%positive) (Some 1%positive) 1)
                 TaskManager.new))) /\
    Tasks (con w')
    = Tasks (con (start (connected [] 1 []) {[ 1%positive := deploy_task 0 ]}))
      ++ saved_rows
           (AUTO_INCREMENT (con (start (connected [] 1 [])
                                   {[ 1%positive := deploy_task 0 ]})))
           (clock_ms (start (connected [] 1 []) {[ 1%positive := deploy_task 0 ]}))
           [deploy_task 0] /\
    map row_task_id
      (saved_rows
         (AUTO_INCREMENT (con (start (connected [] 1 [])
                                 {[ 1%positive := deploy_task 0 ]})))
         (clock_ms (start (connected [] 1 []) {[ 1%positive := deploy_task 0 ]}))
         [deploy_task 0])
    = map (fun i => AUTO_INCREMENT (con (start (connected [] 1 [])
                                           {[ 1%positive := deploy_task 0 ]}))
                    + Z.of_nat i) (seq 0 (length [deploy_task 0])) /\
    map row_title
      (saved_rows
         (AUTO_INCREMENT (con (start (connected [] 1 [])
                                 {[ 1%positive := deploy_task 0 ]})))
         (clock_ms (start (connected [] 1 []) {[ 1%positive := deploy_task 0 ]}))
         [deploy_task 0])
    = map title [deploy_task 0].
Proof.
  refine (process_new_task_queue_persists
            (start (connected [] 1 []) {[ 1%positive := deploy_task 0 ]})
            (TaskManager.set_new_task_queue
               (Queue.mk {[ 1%positive := mkNode 1%positive None ]}
                         (Some 1%positive) (Some 1%positive) 1)
               TaskManager.new)
            [Enqueue 1%positive] [] [deploy_task 0] 1 _ _ _ _ eq_refl eq_refl eq_refl _).
  - vm_compute. reflexivity.
  - unfold INT_MAX. simpl. lia.
  - apply NoDup_singleton.
  - repeat constructor.
  - simpl. lia.
Defined.

(** ** [TaskManager]: from the table to the scheduler *)

Lemma load_tasks_into_scheduler_loop_spec (ps : list loc) :
  forall (rows : list Row) (c : Connection) o cons clk (this : TaskManager.t),
  Forall2 (fun p r => o !! p = Some (task_of_row r)) ps rows ->
  exists cons',
    TaskManager.load_tasks_into_scheduler_loop ps (mkWorld c o cons clk, this)
    = (Ret tt,
       (mkWorld c o cons' (clk + 200 * Z.of_nat (length ps)),
        TaskManager.set_task_scheduler
          (PriorityQueue.mk
             (PriorityQueue.entries (TaskManager.task_scheduler this)
              ++ zip_with (fun p r => (row_priority r, p)) ps rows))
          this)).
Proof.
  induction ps as [|p ps IH]; intros rows c o cons clk this Hobjs.
  - apply Forall2_nil_inv_l in Hobjs. subst rows. exists cons.
    cbn [TaskManager.load_tasks_into_scheduler_loop zip_with length]. unfold ret.
    rewrite app_nil_r, Z.add_0_r. by destruct this as [q [es] st].
  - apply Forall2_cons_inv_l in Hobjs as (r & rows' & Hp & Hobjs & ->).
    cbn [TaskManager.load_tasks_into_scheduler_loop].
    repeat (exec_loop; rewrite Hp). exec_loop.
    lazymatch goal with
    | |- context [TaskManager.load_tasks_into_scheduler_loop ps (mkWorld c o ?cons1 ?clk1, ?this1)] =>
      destruct (IH rows' c o cons1 clk1 this1 Hobjs) as [cons' Hloop]
    end.
    rewrite Hloop. exists cons'. f_equal. f_equal.
    + f_equal. cbn [length]. lia.
    + unfold TaskManager.set_task_scheduler, PriorityQueue.insert, task_of_row, Task_new.
      cbn [TaskManager.task_scheduler TaskManager.new_task_queue TaskManager.undo_stack
           PriorityQueue.entries priority zip_with].
      by rewrite <- app_assoc.
Qed.

Lemma load_tasks_into_scheduler_run (w : World) (this : TaskManager.t) :
  exists k cons' fs',
    TaskManager.load_tasks_into_scheduler (w, this)
    = (Ret tt,
       (mkWorld (with_faults fs' (con w))
          (new_Tasks (take k (pending_rows (session (con w)))) (objs w)).2 cons'
          (clock_ms w
           + 200 * Z.of_nat (length (new_Tasks (take k (pending_rows (session (con w))))
                                       (objs w)).1)),
        TaskManager.set_task_scheduler
          (PriorityQueue.mk
             (PriorityQueue.entries (TaskManager.task_scheduler this)
              ++ zip_with (fun p r => (row_priority r, p))
                   (new_Tasks (take k (pending_rows (session (con w)))) (objs w)).1
                   (take k (pending_rows (session (con w))))))
          this)) /\
    ((new_Tasks (take k (pending_rows (session (con w)))) (objs w)).1 = [] ->
     head cons' = Some (stdout, "No pending tasks found.")) /\
    (faults (con w) = [] -> k = length (pending_rows (session (con w))) /\ fs' = []).
Proof.
  destruct w as [c o cons clk].
  pose proof (getPendingTasks_run
                (mkWorld c o
                   ((stdout, "Fetching 'pending' tasks from database...")
                    :: (stdout, nl +:+ "=========================" +:+ " "
                                +:+ "Loading Pending Tasks into Scheduler" +:+ " "
                                +:+ "=========================") :: cons) clk))
    as (k & cons' & fs' & Hrun & Hk).
  cbn [con objs clock_ms session] in Hrun, Hk |- *. exists k.
  destruct (new_Tasks_spec (take k (pending_rows (session c))) o)
    as (_ & _ & Hobjs & _).
  destruct (new_Tasks (take k (pending_rows (session c))) o) as [ps o'] eqn:Hnew.
  cbn [fst snd] in *.
  exec_mgr. rewrite Hrun.
  destruct ps as [|p ps].
  - eexists _, fs'. split.
    { exec_mgr. cbn [zip_with length]. rewrite app_nil_r, Z.add_0_r.
      destruct this as [q [es] st]. reflexivity. }
    split; [intros _; reflexivity | exact Hk].
  - destruct (load_tasks_into_scheduler_loop_spec (p :: ps) _ (with_faults fs' c) o'
                ((stdout, "Found " +:+ to_string (Z.of_nat (length (p :: ps)))
                            +:+ " pending tasks. Loading into PriorityQueue...") :: cons')
                clk this Hobjs) as [cons2 Hloop].
    eexists _, fs'. split.
    { exec_mgr. rewrite Hloop. reflexivity. }
    split; [discriminate | exact Hk].
Qed.

(** X18.  [load_tasks_into_scheduler] returns normally whatever the
    connector does.  It inserts into the scheduler, after the entries
    already there, the objects that [getPendingTasks] made of the first
    [k] rows of its result, each with the priority of its row as key,
    all of them when no call throws; the table is untouched and 200 ms
    pass per task.  When no object comes back, a failed query included,
    the last line written is "No pending tasks found.". *)
Theorem load_tasks_into_scheduler_schedules (w : World) (this : TaskManager.t) :
  exists ps k w',
    TaskManager.load_tasks_into_scheduler (w, this)
    = (Ret tt,
       (w', TaskManager.set_task_scheduler
              (PriorityQueue.mk
                 (PriorityQueue.entries (TaskManager.task_scheduler this)
                  ++ zip_with (fun p r => (row_priority r, p)) ps
                       (take k (pending_rows (session (con w))))))
              this)) /\
    Forall2 (fun p r => objs w' !! p = Some (task_of_row r)) ps
            (take k (pending_rows (session (con w)))) /\
    Tasks (con w') = Tasks (con w) /\
    clock_ms w' = clock_ms w + 200 * Z.of_nat (length ps) /\
    (ps = [] -> head (console w') = Some (stdout, "No pending tasks found.")) /\
    (faults (con w) = [] -> k = length (pending_rows (session (con w)))).
Proof.
  destruct (load_tasks_into_scheduler_run w this) as (k & cons' & fs' & Hrun & Hnone & Hk).
  destruct (new_Tasks_spec (take k (pending_rows (session (con w)))) (objs w))
    as (_ & _ & Hobjs & _).
  eexists _, k, _. split; [exact Hrun|]. cbn [objs con clock_ms console].
  split; [exact Hobjs|]. split; [by destruct (con w)|]. split; [done|].
  split; [exact Hnone|]. intros Hf. by apply Hk.
Qed.

(** ** [TaskManager]: executing and undoing *)

Lemma updated_twice (id : Z) (st1 st2 : string) (rows : list Row) :
  updated id st2 (updated id st1 rows) = updated id st2 rows.
Proof.
  unfold updated. rewrite map_map. apply map_ext. intros r.
  destruct (Z.eqb_spec (row_task_id r) id) as [Heq|Hne]; simpl.
  - by rewrite Heq, Z.eqb_refl.
  - by destruct (Z.eqb_spec (row_task_id r) id).
Qed.

Lemma run_task_scheduler_body_no_fault (w : World) (this : TaskManager.t)
    (key : Z) (task : loc) (rest : PriorityQueue.t loc) (t : Task) (st : string) :
  PriorityQueue.extract_min (TaskManager.task_scheduler this)
    = Ret ((key, task), rest) ->
  objs w !! task = Some t ->
  faults (con w) = [] ->
  status_of (task_id t) (session (con w)) = Some st ->
  exists w',
    TaskManager.run_task_scheduler_body (w, this)
    = (Ret tt,
       (w', TaskManager.set_undo_stack
              (Stack.push (undo_update_status (task_id t) st)
                          (TaskManager.undo_stack this))
              (TaskManager.set_task_scheduler rest this))) /\
    Tasks (con w') = updated (task_id t) "completed" (session (con w)) /\
    session (con w') = Tasks (con w') /\
    objs w' = delete task (objs w) /\
    clock_ms w' = clock_ms w + 500 /\
    faults (con w') = [].
Proof.
  intros Hmin Hobj Hf Hst. destruct w as [c o cons clk].
  cbn [objs con clock_ms] in *.
  exec_mgr. rewrite Hmin. repeat (exec_mgr; rewrite Hobj). exec_mgr.
  lazymatch goal with
  | |- context [DatabaseConnector.updateTaskStatus (task_id t) "in_progress" ?W] =>
    destruct (updateTaskStatus_success W (task_id t) "in_progress" st Hf Hst)
      as [cons1 Hrun1]
  end.
  rewrite Hrun1. cbn [con session objs clock_ms AUTO_INCREMENT LAST_INSERT_ID].
  repeat (exec_mgr; rewrite Hobj). exec_mgr.
  lazymatch goal with
  | |- context [DatabaseConnector.updateTaskStatus (task_id t) "completed" ?W] =>
    destruct (updateTaskStatus_success W (task_id t) "completed" "in_progress" eq_refl
                (status_of_update _ _ _ _ Hst))
      as [cons2 Hrun2]
  end.
  rewrite Hrun2. cbn [con session objs clock_ms AUTO_INCREMENT LAST_INSERT_ID].
  exec_mgr. rewrite Hobj. exec_mgr.
  eexists. split; [reflexivity|]. cbv beta iota.
  pose proof (updated_twice (task_id t) "in_progress" "completed" (session c)) as Htw.
  unfold updated in *. by rewrite Htw.
Qed.

(** X19.  One iteration of [run_task_scheduler] when no call into the
    connector throws and the row of the extracted task exists: the row
    ends [completed] and committed, the [UndoAction] that holds the
    identifier and the status the row had is pushed, the [Task] object
    is freed, and half a second has passed. *)
Theorem run_task_scheduler_body_completes (w : World) (this : TaskManager.t)
    (key : Z) (task : loc) (rest : PriorityQueue.t loc) (t : Task) (st : string) :
  PriorityQueue.extract_min (TaskManager.task_scheduler this)
    = Ret ((key, task), rest) ->
  objs w !! task = Some t ->
  faults (con w) = [] ->
  status_of (task_id t) (session (con w)) = Some st ->
  exists w',
    TaskManager.run_task_scheduler_body (w, this)
    = (Ret tt,
       (w', TaskManager.set_undo_stack
              (Stack.push (undo_update_status (task_id t) st)
                          (TaskManager.undo_stack this))
              (TaskManager.set_task_scheduler rest this))) /\
    Tasks (con w') = updated (task_id t) "completed" (session (con w)) /\
    session (con w') = Tasks (con w') /\
    objs w' = delete task (objs w) /\
    clock_ms w' = clock_ms w + 500.
Proof.
  intros Hmin Hobj Hf Hst.
  destruct (run_task_scheduler_body_no_fault w this key task rest t st Hmin Hobj Hf Hst)
    as (w' & Hrun & HT & Hs & Ho & Hclk & _).
  by exists w'.
Qed.

Lemma run_task_scheduler_body_completes_witness :
  exists w',
    TaskManager.run_task_scheduler_body ((scheduled []).1, (scheduled []).2)
    = (Ret tt,
       (w', TaskManager.set_undo_stack
              (Stack.push (undo_update_status (task_id (deploy_task 1)) "pending")
                          (TaskManager.undo_stack (scheduled []).2))
              (TaskManager.set_task_scheduler PriorityQueue.new (scheduled []).2))) /\
    Tasks (con w')
    = updated (task_id (deploy_task 1)) "completed" (session (con (scheduled []).1)) /\
    session (con w') = Tasks (con w') /\
    objs w' = delete 1%positive (objs (scheduled []).1) /\
    clock_ms w' = clock_ms (scheduled []).1 + 500.
Proof.
  exact (run_task_scheduler_body_completes (scheduled []).1 (scheduled []).2 2 1%positive
           PriorityQueue.new (deploy_task 1) "pending" eq_refl eq_refl eq_refl eq_refl).
Defined.

Lemma Stack_pop_not_empty {T} (s s' : Stack.t T) (x : T) :
  Stack.pop s = Ret (x, s') -> Stack.isEmpty s = false.
Proof. unfold Stack.pop. by destruct (Stack.isEmpty s). Qed.

Lemma undo_update_status_data (id : Z) (old : string) :
  map_at (action_data (undo_update_status id old)) "task_id" = to_string id /\
  map_at (action_data (undo_update_status id old)) "old_status" = old.
Proof.
  unfold undo_update_status, map_at. cbn [action_data].
  rewrite lookup_insert_ne by done. by rewrite !lookup_insert_eq.
Qed.

Lemma undo_last_action_update_status (w : World) (this : TaskManager.t)
    (s' : Stack.t UndoAction) (id : Z) (old cur : string) :
  Stack.pop (TaskManager.undo_stack this) = Ret (undo_update_status id old, s') ->
  INT_MIN <= id <= INT_MAX ->
  faults (con w) = [] ->
  status_of id (session (con w)) = Some cur ->
  exists w',
    TaskManager.undo_last_action (w, this)
    = (Ret tt, (w', TaskManager.set_undo_stack s' this)) /\
    Tasks (con w') = updated id old (session (con w)) /\
    objs w' = objs w /\ clock_ms w' = clock_ms w.
Proof.
  intros Hpop Hid Hf Hst. destruct w as [c o cons clk]. cbn [objs con clock_ms] in *.
  destruct (undo_update_status_data id old) as [Hdid Hdold].
  exec_mgr. rewrite (Stack_pop_not_empty _ _ _ Hpop), Hpop. exec_mgr.
  change (action_name (undo_update_status id old)) with "update_status".
  change ("update_status" =? "update_status")%string with true. cbv iota.
  rewrite Hdid, Hdold, (stoi_to_string id Hid). exec_mgr.
  lazymatch goal with
  | |- context [DatabaseConnector.updateTaskStatus id old ?W] =>
    destruct (updateTaskStatus_success W id old cur Hf Hst) as [cons1 Hrun]
  end.
  rewrite Hrun. eexists. split; [reflexivity|]. cbv beta iota. done.
Qed.

(** X20.  [undo_last_action] when the action on top of the undo stack
    is the one that [run_task_scheduler] pushes for the task [id] with
    the status [old], no call into the connector failing: [std::stoi]
    reads the identifier back, the row of [id] is set to [old], and the
    action is popped. *)
Theorem undo_last_action_reverts (w : World) (this : TaskManager.t)
    (s' : Stack.t UndoAction) (id : Z) (old cur : string) :
  Stack.pop (TaskManager.undo_stack this) = Ret (undo_update_status id old, s') ->
  INT_MIN <= id <= INT_MAX ->
  faults (con w) = [] ->
  status_of id (session (con w)) = Some cur ->
  exists w',
    TaskManager.undo_last_action (w, this)
    = (Ret tt, (w', TaskManager.set_undo_stack s' this)) /\
    Tasks (con w') = updated id old (session (con w)) /\
    status_of id (Tasks (con w')) = Some old /\
    objs w' = objs w.
Proof.
  intros Hpop Hid Hf Hst.
  destruct (undo_last_action_update_status w this s' id old cur Hpop Hid Hf Hst)
    as (w' & Hrun & HT & Ho & _).
  exists w'. split; [exact Hrun|]. split; [exact HT|]. split; [|exact Ho].
  rewrite HT. exact (status_of_update _ _ _ _ Hst).
Qed.

Lemma undo_last_action_reverts_witness :
  exists w',
    TaskManager.undo_last_action
      (start (connected [deploy_row 1 "completed"] 2 []) ∅,
       TaskManager.set_undo_stack
         (Stack.push (undo_update_status 1 "pending") Stack.new) TaskManager.new)
    = (Ret tt, (w', TaskManager.set_undo_stack Stack.new
                      (TaskManager.set_undo_stack
                         (Stack.push (undo_update_status 1 "pending") Stack.new)
                         TaskManager.new))) /\
    Tasks (con w')
    = updated 1 "pending"
        (session (con (start (connected [deploy_row 1 "completed"] 2 []) ∅))) /\
    status_of 1 (Tasks (con w')) = Some "pending" /\
    objs w' = objs (start (connected [deploy_row 1 "completed"] 2 []) ∅).
Proof.
  refine (undo_last_action_reverts
            (start (connected [deploy_row 1 "completed"] 2 []) ∅)
            (TaskManager.set_undo_stack
               (Stack.push (undo_update_status 1 "pending") Stack.new) TaskManager.new)
            Stack.new 1 "pending" "completed" _ _ eq_refl eq_refl).
  - vm_compute. reflexivity.
  - unfold INT_MIN, INT_MAX. lia.
Defined.

(** X21.  [undo_last_action] when the action on top of the undo stack
    is not an [update_status]: the action is popped and dropped, nothing
    but the separator is written, and the connection is not used. *)
Theorem undo_last_action_other_action (w : World) (this : TaskManager.t)
    (a : UndoAction) (s' : Stack.t UndoAction) :
  Stack.pop (TaskManager.undo_stack this) = Ret (a, s') ->
  action_name a <> "update_status" ->
  TaskManager.undo_last_action (w, this)
  = (Ret tt,
     ({| con := con w; objs := objs w;
         console := (stdout, nl +:+ "========================= Undo Last Action"
                                +:+ " =========================") :: console w;
         clock_ms := clock_ms w |},
      TaskManager.set_undo_stack s' this)).
Proof.
  intros Hpop Hname. destruct w as [c o cons clk].
  exec_mgr. rewrite (Stack_pop_not_empty _ _ _ Hpop), Hpop. exec_mgr.
  destruct (String.eqb_spec (action_name a) "update_status"); [done|]. reflexivity.
Qed.

Lemma undo_last_action_other_action_witness :
  TaskManager.undo_last_action
    (start (connected [deploy_row 1 "completed"] 2 []) ∅,
     TaskManager.set_undo_stack
       (Stack.push (mkUndoAction "create_task" ∅) Stack.new) TaskManager.new)
  = (Ret tt,
     ({| con := con (start (connected [deploy_row 1 "completed"] 2 []) ∅);
         objs := objs (start (connected [deploy_row 1 "completed"] 2 []) ∅);
         console := (stdout, nl +:+ "========================= Undo Last Action"
                                +:+ " =========================")
                    :: console (start (connected [deploy_row 1 "completed"] 2 []) ∅);
         clock_ms := clock_ms (start (connected [deploy_row 1 "completed"] 2 []) ∅) |},
      TaskManager.set_undo_stack Stack.new
        (TaskManager.set_undo_stack
           (Stack.push (mkUndoAction "create_task" ∅) Stack.new) TaskManager.new))).
Proof.
  refine (undo_last_action_other_action
            (start (connected [deploy_row 1 "completed"] 2 []) ∅)
            (TaskManager.set_undo_stack
               (Stack.push (mkUndoAction "create_task" ∅) Stack.new) TaskManager.new)
            (mkUndoAction "create_task" ∅) Stack.new _ _).
  - vm_compute. reflexivity.
  - discriminate.
Defined.

(** X22.  [undo_last_action] when the [update_status] action on top
    of the undo stack has no [task_id]: [action.data["task_id"]] reads
    as the empty string, [std::stoi] throws [std::invalid_argument],
    which leaves the method; the action is already popped and the
    connection is not used. *)
Theorem undo_last_action_without_task_id (w : World) (this : TaskManager.t)
    (a : UndoAction) (s' : Stack.t UndoAction) :
  Stack.pop (TaskManager.undo_stack this) = Ret (a, s') ->
  action_name a = "update_status" ->
  action_data a !! "task_id" = None ->
  TaskManager.undo_last_action (w, this)
  = (Raise (invalid_argument "stoi"),
     ({| con := con w; objs := objs w;
         console := (stdout, nl +:+ "========================= Undo Last Action"
                                +:+ " =========================") :: console w;
         clock_ms := clock_ms w |},
      TaskManager.set_undo_stack s' this)).
Proof.
  intros Hpop Hname Hdata. destruct w as [c o cons clk].
  exec_mgr. rewrite (Stack_pop_not_empty _ _ _ Hpop), Hpop. exec_mgr.
  rewrite Hname. change ("update_status" =? "update_status")%string with true. cbv iota.
  unfold map_at at 1. rewrite Hdata. reflexivity.
Qed.

Lemma undo_last_action_without_task_id_witness :
  TaskManager.undo_last_action
    (start (connected [deploy_row 1 "completed"] 2 []) ∅,
     TaskManager.set_undo_stack
       (Stack.push (mkUndoAction "update_status" ∅) Stack.new) TaskManager.new)
  = (Raise (invalid_argument "stoi"),
     ({| con := con (start (connected [deploy_row 1 "completed"] 2 []) ∅);
         objs := objs (start (connected [deploy_row 1 "completed"] 2 []) ∅);
         console := (stdout, nl +:+ "========================= Undo Last Action"
                                +:+ " =========================")
                    :: console (start (connected [deploy_row 1 "completed"] 2 []) ∅);
         clock_ms := clock_ms (start (connected [deploy_row 1 "completed"] 2 []) ∅) |},
      TaskManager.set_undo_stack Stack.new
        (TaskManager.set_undo_stack
           (Stack.push (mkUndoAction "update_status" ∅) Stack.new) TaskManager.new))).
Proof.
  refine (undo_last_action_without_task_id
            (start (connected [deploy_row 1 "completed"] 2 []) ∅)
            (TaskManager.set_undo_stack
               (Stack.push (mkUndoAction "update_status" ∅) Stack.new) TaskManager.new)
            (mkUndoAction "update_status" ∅) Stack.new _ eq_refl _).
  - vm_compute. reflexivity.
  - reflexivity.
Defined.

(** ** [run_task_scheduler]: every scheduled task is completed *)

Lemma status_of_updated_ne (id id' : Z) (st : string) (rows : list Row) :
  id <> id' -> status_of id (updated id' st rows) = status_of id rows.
Proof.
  intros Hne. unfold status_of, updated. induction rows as [|r rows IH]; [done|].
  cbn [map List.filter].
  destruct (Z.eqb_spec (row_task_id r) id') as [Heq|Hne']; cbn [row_task_id with_row_status].
  - destruct (Z.eqb_spec (row_task_id r) id); [congruence | exact IH].
  - destruct (Z.eqb_spec (row_task_id r) id); [done | exact IH].
Qed.

Lemma status_of_updated_eq (id : Z) (st cur : string) (rows : list Row) :
  status_of id rows = Some cur -> status_of id (updated id st rows) = Some st.
Proof. apply status_of_update. Qed.

Lemma status_of_completed (ts : list Task) : forall (rows : list Row) (id : Z),
  status_of id rows = Some "completed" ->
  status_of id (foldl (fun rows t => updated (task_id t) "completed" rows) rows ts)
  = Some "completed".
Proof.
  induction ts as [|t ts IH]; intros rows id Hst; [done|].
  cbn [foldl]. apply IH.
  destruct (Z.eq_dec id (task_id t)) as [->|Hne].
  - by apply (status_of_updated_eq _ _ "completed").
  - by rewrite status_of_updated_ne.
Qed.

Lemma all_completed (ts : list Task) : forall (rows : list Row),
  Forall (fun t => is_Some (status_of (task_id t) rows)) ts ->
  Forall (fun t =>
            status_of (task_id t)
              (foldl (fun rows t => updated (task_id t) "completed" rows) rows ts)
            = Some "completed") ts.
Proof.
  induction ts as [|t ts IH]; intros rows Hex; [constructor|].
  apply Forall_cons in Hex as [[cur Hcur] Hex]. cbn [foldl]. constructor.
  - apply status_of_completed. by apply (status_of_updated_eq _ _ cur).
  - apply IH. eapply Forall_impl; [exact Hex|]. intros t' [cur' Hcur']. simpl in *.
    destruct (Z.eq_dec (task_id t') (task_id t)) as [Heq|Hne].
    + rewrite Heq. eexists. by apply (status_of_updated_eq _ _ cur).
    + rewrite status_of_updated_ne by done. eauto.
Qed.

Lemma run_task_scheduler_loop_no_fault (fuel : nat) :
  forall (w : World) (this : TaskManager.t) (items : list (Z * loc))
         (ts : list Task) (sts : list string),
  extract_all fuel (TaskManager.task_scheduler this) = Ret items ->
  NoDup items.*2 ->
  Forall2 (fun it t => objs w !! it.2 = Some t) items ts ->
  NoDup (map task_id ts) ->
  Forall2 (fun t st => status_of (task_id t) (session (con w)) = Some st) ts sts ->
  faults (con w) = [] ->
  Tasks (con w) = session (con w) ->
  exists w',
    TaskManager.run_task_scheduler_loop fuel (w, this)
    = (Ret tt,
       (w', TaskManager.mk (TaskManager.new_task_queue this) PriorityQueue.new
              (foldl (fun s a => Stack.push a s) (TaskManager.undo_stack this)
                 (zip_with (fun t st => undo_update_status (task_id t) st) ts sts)))) /\
    Tasks (con w')
    = foldl (fun rows t => updated (task_id t) "completed" rows) (Tasks (con w)) ts /\
    session (con w') = Tasks (con w') /\
    faults (con w') = [] /\
    (forall p, objs w' !! p = if decide (p ∈ items.*2) then None else objs w !! p) /\
    clock_ms w' = clock_ms w + 500 * Z.of_nat (length ts).
Proof.
  induction fuel as [|fuel IH]; intros w this items ts sts Hall Hnd Hobjs Hids Hsts Hf HT.
  - cbn [extract_all] in Hall. cbn [TaskManager.run_task_scheduler_loop]. exec_loop.
    destruct this as [q [es] st]. cbn [TaskManager.task_scheduler] in *.
    unfold PriorityQueue.isEmpty in *. cbn [PriorityQueue.entries] in *.
    destruct es; [|discriminate]. injection Hall as <-.
    apply Forall2_nil_inv_l in Hobjs. subst ts. apply Forall2_nil_inv_l in Hsts. subst sts.
    exists w. split; [reflexivity|]. split; [done|]. split; [done|]. split; [done|].
    split; [|simpl; lia].
    intros p. destruct (decide (p ∈ _)) as [Hin|]; [|done]. by apply elem_of_nil in Hin.
  - cbn [extract_all] in Hall. cbn [TaskManager.run_task_scheduler_loop].
    unfold bind at 1, get_local, gets. cbn [snd].
    destruct (PriorityQueue.isEmpty (TaskManager.task_scheduler this)) eqn:Hemp.
    + injection Hall as <-.
      apply Forall2_nil_inv_l in Hobjs. subst ts. apply Forall2_nil_inv_l in Hsts. subst sts.
      destruct this as [q [es] st]. cbn [TaskManager.task_scheduler] in *.
      unfold PriorityQueue.isEmpty in Hemp. cbn [PriorityQueue.entries] in *.
      destruct es; [|discriminate].
      exists w. split; [reflexivity|]. split; [done|]. split; [done|]. split; [done|].
      split; [|simpl; lia].
      intros p. destruct (decide (p ∈ _)) as [Hin|]; [|done]. by apply elem_of_nil in Hin.
    + destruct (PriorityQueue.extract_min (TaskManager.task_scheduler this))
        as [[[key task] rest]| | |] eqn:Hmin; try discriminate.
      cbn [obind fst snd] in Hall.
      destruct (extract_all fuel rest) as [items'| | |] eqn:Hall'; try discriminate.
      cbn [obind] in Hall. injection Hall as <-.
      cbn [fmap list_fmap snd] in Hnd. apply NoDup_cons in Hnd as [Hp Hnd].
      apply Forall2_cons_inv_l in Hobjs as (t & ts' & Ht & Hobjs & ->).
      apply Forall2_cons_inv_l in Hsts as (st & sts' & Hst & Hsts & ->).
      cbn [map] in Hids. apply NoDup_cons in Hids as [Hid Hids].
      cbn [snd] in Ht.
      destruct (run_task_scheduler_body_no_fault w this key task rest t st Hmin Ht Hf Hst)
        as (w1 & Hbody & HT1 & Hs1 & Ho1 & Hclk1 & Hf1).
      unfold bind. rewrite Hbody.
      destruct (IH w1
                  (TaskManager.set_undo_stack
                     (Stack.push (undo_update_status (task_id t) st)
                                 (TaskManager.undo_stack this))
                     (TaskManager.set_task_scheduler rest this))
                  items' ts' sts' Hall' Hnd)
        as (w' & Hloop & HT' & Hs' & Hf' & Ho' & Hclk');
        [| exact Hids | | exact Hf1 | done |].
      { rewrite Ho1. clear -Hobjs Hp. induction Hobjs as [|it t' its ts' Hit _ IH'];
          [constructor|].
        cbn [fmap list_fmap] in Hp. apply not_elem_of_cons in Hp as [Hne Hp].
        constructor; [|by apply IH']. by rewrite lookup_delete_ne. }
      { rewrite Hs1, HT1. clear -Hsts Hid. induction Hsts as [|t' st' ts' sts' Ht' _ IH'];
          [constructor|].
        cbn [map] in Hid. apply not_elem_of_cons in Hid as [Hne Hid].
        constructor; [|by apply IH']. by rewrite status_of_updated_ne. }
      exists w'. split; [exact Hloop|]. split; [|split; [exact Hs'|split; [exact Hf'|split]]].
      * cbn [foldl]. by rewrite HT', HT1, HT.
      * intros p. rewrite Ho', Ho1. cbn [fmap list_fmap snd].
        destruct (decide (p ∈ items'.*2)) as [Hin|Hnin].
        -- rewrite decide_True; [done | by apply elem_of_cons; right].
        -- destruct (decide (p = task)) as [->|Hne].
           ++ rewrite decide_True by (apply elem_of_cons; by left). apply lookup_delete_eq.
           ++ rewrite decide_False by (intros [?|?]%elem_of_cons; done).
              by apply lookup_delete_ne.
      * rewrite Hclk', Hclk1. cbn [length]. lia.
Qed.

Lemma run_task_scheduler_no_fault (w : World) (this : TaskManager.t)
    (items : list (Z * loc)) (ts : list Task) (sts : list string) (fuel : nat) :
  extract_all fuel (TaskManager.task_scheduler this) = Ret items ->
  NoDup items.*2 ->
  Forall2 (fun it t => objs w !! it.2 = Some t) items ts ->
  NoDup (map task_id ts) ->
  Forall2 (fun t st => status_of (task_id t) (session (con w)) = Some st) ts sts ->
  faults (con w) = [] ->
  Tasks (con w) = session (con w) ->
  exists w',
    TaskManager.run_task_scheduler fuel (w, this)
    = (Ret tt,
       (w', TaskManager.mk (TaskManager.new_task_queue this) PriorityQueue.new
              (foldl (fun s a => Stack.push a s) (TaskManager.undo_stack this)
                 (zip_with (fun t st => undo_update_status (task_id t) st) ts sts)))) /\
    Tasks (con w')
    = foldl (fun rows t => updated (task_id t) "completed" rows) (Tasks (con w)) ts /\
    session (con w') = Tasks (con w') /\
    faults (con w') = [] /\
    (forall p, objs w' !! p = if decide (p ∈ items.*2) then None else objs w !! p) /\
    clock_ms w' = clock_ms w + 500 * Z.of_nat (length ts).
Proof.
  intros Hall Hnd Hobjs Hids Hsts Hf HT. destruct w as [c o cons clk].
  destruct (run_task_scheduler_loop_no_fault fuel
              (mkWorld c o
                 ((stdout, nl +:+ "=========================" +:+ " "
                           +:+ "Running Task Scheduler" +:+ " "
                           +:+ "=========================") :: cons) clk)
              this items ts sts Hall Hnd Hobjs Hids Hsts Hf HT)
    as (w' & Hloop & HT' & Hs' & Hf' & Ho' & Hclk').
  destruct w' as [c' o' cons' clk']. cbn [con objs clock_ms] in *.
  eexists. split.
  { exec_mgr. rewrite Hloop. reflexivity. }
  cbn [con objs clock_ms]. done.
Qed.

(** X23.  [run_task_scheduler] when no call into the connector throws,
    on a connection with nothing uncommitted: for [items] the entries
    of the scheduler in the order of extraction, live distinct [Task]
    objects whose identifiers are distinct and have a row each, the loop
    ends with the scheduler empty; the row of every task reads
    [completed]; the undo stack has gained, in the order of execution,
    one action per task with the status its row had; every task is
    freed; and half a second has passed per task. *)
Theorem run_task_scheduler_completes_all (w : World) (this : TaskManager.t)
    (items : list (Z * loc)) (ts : list Task) (sts : list string) (fuel : nat) :
  extract_all fuel (TaskManager.task_scheduler this) = Ret items ->
  NoDup items.*2 ->
  Forall2 (fun it t => objs w !! it.2 = Some t) items ts ->
  NoDup (map task_id ts) ->
  Forall2 (fun t st => status_of (task_id t) (session (con w)) = Some st) ts sts ->
  faults (con w) = [] ->
  Tasks (con w) = session (con w) ->
  exists w',
    TaskManager.run_task_scheduler fuel (w, this)
    = (Ret tt,
       (w', TaskManager.mk (TaskManager.new_task_queue this) PriorityQueue.new
              (foldl (fun s a => Stack.push a s) (TaskManager.undo_stack this)
                 (zip_with (fun t st => undo_update_status (task_id t) st) ts sts)))) /\
    Tasks (con w')
    = foldl (fun rows t => updated (task_id t) "completed" rows) (Tasks (con w)) ts /\
    Forall (fun t => status_of (task_id t) (Tasks (con w')) = Some "completed") ts /\
    (forall p, objs w' !! p = if decide (p ∈ items.*2) then None else objs w !! p) /\
    clock_ms w' = clock_ms w + 500 * Z.of_nat (length ts).
Proof.
  intros Hall Hnd Hobjs Hids Hsts Hf HT.
  destruct (run_task_scheduler_no_fault w this items ts sts fuel
              Hall Hnd Hobjs Hids Hsts Hf HT)
    as (w' & Hrun & HT' & _ & _ & Ho' & Hclk').
  exists w'. split; [exact Hrun|]. split; [exact HT'|]. split; [|done].
  rewrite HT', HT. apply all_completed.
  clear -Hsts. induction Hsts; constructor; eauto.
Qed.

Lemma run_task_scheduler_completes_all_witness :
  exists w',
    TaskManager.run_task_scheduler 1 ((scheduled []).1, (scheduled []).2)
    = (Ret tt,
       (w', TaskManager.mk (TaskManager.new_task_queue (scheduled []).2)
              PriorityQueue.new
              (foldl (fun s a => Stack.push a s) (TaskManager.undo_stack (scheduled []).2)
                 (zip_with (fun t st => undo_update_status (task_id t) st)
                    [deploy_task 1] ["pending"])))) /\
    Tasks (con w')
    = foldl (fun rows t => updated (task_id t) "completed" rows)
        (Tasks (con (scheduled []).1)) [deploy_task 1] /\
    Forall (fun t => status_of (task_id t) (Tasks (con w')) = Some "completed")
           [deploy_task 1] /\
    (forall p, objs w' !! p
               = if decide (p ∈ [(2, 1%positive)].*2) then None
                 else objs (scheduled []).1 !! p) /\
    clock_ms w' = clock_ms (scheduled []).1 + 500 * Z.of_nat (length [deploy_task 1]).
Proof.
  refine (run_task_scheduler_completes_all (scheduled []).1 (scheduled []).2
            [(2, 1%positive)] [deploy_task 1] ["pending"] 1
            eq_refl _ _ _ _ eq_refl eq_refl).
  - apply NoDup_singleton.
  - repeat constructor.
  - apply NoDup_singleton.
  - repeat constructor.
Defined.

(** X24.  [run_task_scheduler] when the task extracted first has no
    row in the table, no call into the connector failing:
    [std::runtime_error("Task not found")] thrown by [updateTaskStatus]
    leaves [run_task_scheduler]; the task is out of the scheduler, the
    table is as before, and the connection is left with autocommit
    off. *)
Theorem run_task_scheduler_missing_row (w : World) (this : TaskManager.t)
    (key : Z) (task : loc) (rest : PriorityQueue.t loc) (t : Task) (fuel : nat) :
  PriorityQueue.extract_min (TaskManager.task_scheduler this)
    = Ret ((key, task), rest) ->
  objs w !! task = Some t ->
  faults (con w) = [] ->
  status_of (task_id t) (session (con w)) = None ->
  exists w',
    TaskManager.run_task_scheduler (Datatypes.S fuel) (w, this)
    = (Raise (runtime_error "Task not found"),
       (w', TaskManager.set_task_scheduler rest this)) /\
    Tasks (con w') = Tasks (con w) /\
    autocommit (con w') = false.
Proof.
  intros Hmin Hobj Hf Hst. destruct w as [c o cons clk].
  cbn [objs con clock_ms] in *.
  assert (PriorityQueue.isEmpty (TaskManager.task_scheduler this) = false) as Hemp.
  { unfold PriorityQueue.extract_min in Hmin. unfold PriorityQueue.isEmpty.
    by destruct (PriorityQueue.entries (TaskManager.task_scheduler this)). }
  assert (List.filter (fun r => row_task_id r =? task_id t) (session c) = []) as Hfilter.
  { unfold status_of in Hst. by destruct (List.filter _ (session c)). }
  exec_mgr. cbn [TaskManager.run_task_scheduler_loop]. exec_mgr.
  rewrite Hemp, Hmin. repeat (exec_mgr; rewrite Hobj). exec_mgr.
  lazymatch goal with
  | |- context [DatabaseConnector.updateTaskStatus (task_id t) "in_progress" ?W] =>
    destruct (updateTaskStatus_not_found W (task_id t) "in_progress" Hf Hfilter)
      as (w1 & Hrun & HT & Hac);
    pose proof (updateTaskStatus_frame (task_id t) "in_progress" W) as [Hobjs _]
  end.
  rewrite Hrun in Hobjs |- *. destruct w1 as [c1 o1 cons1 clk1].
  cbn [con objs Tasks autocommit snd] in *. subst o1.
  eexists. split; [reflexivity|]. done.
Qed.

Lemma run_task_scheduler_missing_row_witness :
  exists w',
    TaskManager.run_task_scheduler 1
      (start (connected [] 2 []) {[ 1%positive := deploy_task 1 ]}, (scheduled []).2)
    = (Raise (runtime_error "Task not found"),
       (w', TaskManager.set_task_scheduler PriorityQueue.new (scheduled []).2)) /\
    Tasks (con w')
    = Tasks (con (start (connected [] 2 []) {[ 1%positive := deploy_task 1 ]})) /\
    autocommit (con w') = false.
Proof.
  exact (run_task_scheduler_missing_row
           (start (connected [] 2 []) {[ 1%positive := deploy_task 1 ]})
           (scheduled []).2 2 1%positive PriorityQueue.new (deploy_task 1) 0
           eq_refl eq_refl eq_refl eq_refl).
Defined.

(** ** [main]: every submitted task ends completed *)

Lemma submit_all_spec (subs : list (string * string * Z * Z)) :
  forall (w : World) (this : TaskManager.t) (cells : list (loc * loc)) (ts : list Task),
  Queue_repr (TaskManager.new_task_queue this) cells ->
  owns (Queue.nodes (TaskManager.new_task_queue this)) cells ->
  Z.of_nat (length cells + length subs) <= INT_MAX ->
  NoDup cells.*2 ->
  Forall2 (fun p t => objs w !! p = Some t) cells.*2 ts ->
  dom (objs w) = list_to_set cells.*2 ->
  exists w' q' cells',
    submit_all subs (w, this) = (Ret tt, (w', TaskManager.set_new_task_queue q' this)) /\
    con w' = con w /\ clock_ms w' = clock_ms w /\
    Queue_repr q' cells' /\ owns (Queue.nodes q') cells' /\
    NoDup cells'.*2 /\
    Forall2 (fun p t => objs w' !! p = Some t) cells'.*2 (ts ++ map submitted_task subs) /\
    dom (objs w') = list_to_set cells'.*2.
Proof.
  induction subs as [|sub subs IH]; intros w this cells ts Hq Ho Hb Hnd Hobjs Hdom.
  - exists w, (TaskManager.new_task_queue this), cells. rewrite app_nil_r.
    split; [destruct this; reflexivity|]. repeat (split; [done|]). done.
  - destruct w as [c o cons clk]. cbn [objs con clock_ms] in *.
    assert (fresh (dom o) ∉ cells.*2) as Hfresh.
    { assert (forall p, p ∈ cells.*2 -> p ∈ dom o) as Hd
        by (intros p Hp; rewrite Hdom; by apply elem_of_list_to_set).
      intros Hin. by apply (is_fresh (dom o)), Hd. }
    destruct (Queue_enqueue_owns _ cells (fresh (dom o)) Hq Ho)
      as (q1 & l & Henq & Hq1 & Ho1); [cbn [length] in Hb; lia|].
    cbn [submit_all]. unfold bind at 1. exec_mgr. rewrite Henq. exec_mgr.
    lazymatch goal with
    | |- context [submit_all subs (?W, ?this1)] =>
      destruct (IH W this1 (cells ++ [(l, fresh (dom o))]) (ts ++ [submitted_task sub]))
        as (w' & q' & cells' & Hrun & Hcon & Hclk & Hq' & Ho' & Hnd' & Hobjs' & Hdom')
    end.
    + exact Hq1.
    + exact Ho1.
    + rewrite length_app. cbn [length] in *. lia.
    + rewrite fmap_app. apply NoDup_app. split; [done|]. split; [|apply NoDup_singleton].
      intros p Hp Hp'. apply list_elem_of_singleton in Hp'. cbn in Hp'. by subst p.
    + cbn [objs]. rewrite fmap_app. apply Forall2_app.
      * eapply Forall2_impl; [exact Hobjs|]. intros p t Hp. cbn in *.
        rewrite lookup_insert_ne; [done|]. intros <-.
        apply (is_fresh (dom o)). apply elem_of_dom. eauto.
      * constructor; [|constructor]. cbn. apply lookup_insert_eq.
    + cbn [objs]. rewrite dom_insert_L, Hdom, fmap_app, list_to_set_app_L. cbn.
      rewrite union_empty_r_L. apply (comm_L (∪)).
    + exists w', q', cells'. split; [exact Hrun|].
      cbn [con clock_ms] in Hcon, Hclk. rewrite <- app_assoc in Hobjs'.
      repeat (split; [done|]). done.
Qed.

Lemma Forall2_Permutation_l {A B} (R : A -> B -> Prop) (l l' : list A) :
  Permutation l l' ->
  forall k, Forall2 R l k -> exists k', Permutation k k' /\ Forall2 R l' k'.
Proof.
  induction 1 as [|x l l' _ IH|x y l|l l1 l2 _ IH1 _ IH2]; intros k Hk.
  - apply Forall2_nil_inv_l in Hk. subst k. by exists [].
  - apply Forall2_cons_inv_l in Hk as (b & k0 & Hb & Hk & ->).
    destruct (IH _ Hk) as (k' & Hp & Hk'). exists (b :: k'). split; [by constructor|].
    by constructor.
  - apply Forall2_cons_inv_l in Hk as (b & k0 & Hb & Hk & ->).
    apply Forall2_cons_inv_l in Hk as (b' & k1 & Hb' & Hk & ->).
    exists (b' :: b :: k1). split; [apply perm_swap|]. by repeat constructor.
  - destruct (IH1 _ Hk) as (k1 & Hp1 & Hk1). destruct (IH2 _ Hk1) as (k2 & Hp2 & Hk2).
    exists k2. split; [by etrans|done].
Qed.

Lemma saved_rows_status (ts : list Task) : forall next_id clk,
  map row_status (saved_rows next_id clk ts) = map status ts.
Proof.
  induction ts as [|t ts IH]; intros ai clk; [done|].
  cbn [saved_rows map row_status]. by rewrite IH.
Qed.

Lemma saved_rows_NoDup (ts : list Task) (next_id clk : Z) :
  NoDup (map row_task_id (saved_rows next_id clk ts)).
Proof.
  rewrite saved_rows_ids. apply NoDup_fmap_2; [|apply NoDup_seq].
  intros i j Hij. lia.
Qed.

Lemma saved_rows_ge (ts : list Task) (next_id clk : Z) :
  Forall (fun r => next_id <= row_task_id r) (saved_rows next_id clk ts).
Proof.
  apply Forall_forall. intros r Hr.
  assert (row_task_id r ∈ map row_task_id (saved_rows next_id clk ts)) as Hin
    by (by apply list_elem_of_fmap_2).
  rewrite saved_rows_ids in Hin. apply list_elem_of_fmap in Hin as (i & -> & _). lia.
Qed.

Lemma foldl_updated (ts : list Task) (st : string) : forall rows : list Row,
  foldl (fun rows t => updated (task_id t) st rows) rows ts
  = map (fun r => if bool_decide (row_task_id r ∈ map task_id ts)
                  then with_row_status st r else r) rows.
Proof.
  induction ts as [|t ts IH]; intros rows.
  - cbn [foldl map]. symmetry. rewrite <- (map_id rows) at 2. apply map_ext. intros r.
    rewrite bool_decide_eq_false_2; [done|]. apply not_elem_of_nil.
  - cbn [foldl]. rewrite IH. unfold updated. rewrite map_map. apply map_ext. intros r.
    cbn [map]. destruct (Z.eqb_spec (row_task_id r) (task_id t)) as [Heq|Hne].
    + cbn [row_task_id with_row_status].
      rewrite (bool_decide_eq_true_2 (row_task_id r ∈ task_id t :: _))
        by (rewrite Heq; apply list_elem_of_here).
      destruct (bool_decide _); [|done]. by destruct r.
    + destruct (bool_decide (row_task_id r ∈ map task_id ts)) eqn:Hin.
      * apply bool_decide_eq_true_1 in Hin.
        rewrite bool_decide_eq_true_2; [done | by apply list_elem_of_further].
      * apply bool_decide_eq_false_1 in Hin.
        rewrite bool_decide_eq_false_2; [done|]. by intros [?|?]%elem_of_cons.
Qed.

Lemma Stack_size_pushes {T} (l : list T) : forall (s : Stack.t T) (k : nat),
  Stack.size s = Z.of_nat k -> Z.of_nat (k + length l) <= INT_MAX ->
  Stack.size (foldl (fun s a => Stack.push a s) s l) = Z.of_nat (k + length l).
Proof.
  induction l as [|a l IH]; intros s k Hs Hb; cbn [foldl length] in *.
  - by rewrite Nat.add_0_r.
  - rewrite (IH (Stack.push a s) (Datatypes.S k)).
    + f_equal. lia.
    + unfold Stack.size, Stack.push, new_Node in *. cbn. rewrite Hs.
      apply int_incr_nat. lia.
    + lia.
Qed.

Lemma bind_Ret {S A B} (m : M S A) (k : A -> M S B) (s s' : S) (a : A) :
  m s = (Ret a, s') -> bind m k s = k a s'.
Proof. intros Hm. unfold bind. by rewrite Hm. Qed.

Lemma filter_pending_app (rows saved : list Row) :
  Forall (fun r => row_status r <> "pending") rows ->
  Forall (fun r => row_status r = "pending") saved ->
  List.filter DatabaseConnector.is_pending (rows ++ saved) = saved.
Proof.
  intros Hrows Hsaved. rewrite List.filter_app, filter_none.
  - cbn [app]. induction Hsaved as [|r l Hr _ IH]; [done|]. cbn [List.filter].
    unfold DatabaseConnector.is_pending at 1. rewrite Hr. cbn. by rewrite IH.
  - eapply Forall_impl; [exact Hrows|]. intros x Hx. cbn in Hx.
    unfold DatabaseConnector.is_pending.
    by destruct (String.eqb_spec (row_status x) "pending").
Qed.

Lemma status_of_app_new (rows saved : list Row) (r : Row) (next_id : Z) (st : string) :
  Forall (fun x => row_task_id x < next_id) rows ->
  Forall (fun x => next_id <= row_task_id x) saved ->
  Forall (fun x => row_status x = st) saved ->
  r ∈ saved ->
  status_of (row_task_id r) (rows ++ saved) = Some st.
Proof.
  intros Hrows Hge Hst Hr. unfold status_of. rewrite List.filter_app, filter_none.
  - cbn [app].
    assert (r ∈ List.filter (fun x => row_task_id x =? row_task_id r) saved) as Hin.
    { apply list_elem_of_In, filter_In. split; [by apply list_elem_of_In|]. apply Z.eqb_refl. }
    destruct (List.filter _ saved) as [|x l] eqn:Hfil; [by apply elem_of_nil in Hin|].
    cbn. f_equal.
    assert (x ∈ saved) as Hx.
    { apply list_elem_of_In. eapply (proj1 (filter_In _ x saved)). rewrite Hfil. by left. }
    exact (proj1 (Forall_forall _ _) Hst x Hx).
  - pose proof (proj1 (Forall_forall _ _) Hge r Hr) as Hrge. cbn in Hrge.
    eapply Forall_impl; [exact Hrows|]. intros x Hx. cbn in *. lia.
Qed.

Lemma zip_with_snd (ps : list loc) (rows : list Row) :
  length ps = length rows ->
  (zip_with (fun p r => (row_priority r, p)) ps rows).*2 = ps.
Proof.
  revert rows. induction ps as [|p ps IH]; intros [|r rows] Hlen; try done.
  cbn. f_equal. apply IH. by injection Hlen.
Qed.

Lemma entries_live (o : gmap loc Task) (ps : list loc) (rows : list Row) :
  Forall2 (fun p r => o !! p = Some (task_of_row r)) ps rows ->
  Forall2 (fun (e : Z * loc) t => o !! e.2 = Some t /\ e.1 = priority t)
          (zip_with (fun p r => (row_priority r, p)) ps rows) (map task_of_row rows).
Proof. induction 1; cbn; constructor; done. Qed.

Lemma StronglySorted_Forall2 {A B} (R : A -> B -> Prop) (P : A -> A -> Prop)
    (Q : B -> B -> Prop) (l : list A) (k : list B) :
  (forall a b x y, R a x -> R b y -> P a b -> Q x y) ->
  Forall2 R l k -> StronglySorted P l -> StronglySorted Q k.
Proof.
  intros HPQ HR. induction HR as [|a x l k Hax HR IH]; intros Hs; [constructor|].
  apply StronglySorted_inv in Hs as [Hs Ha]. constructor; [by apply IH|].
  clear IH Hs. induction HR as [|b y l k Hby _ IH]; [constructor|].
  apply Forall_cons in Ha as [Hab Ha]. constructor; [by apply (HPQ a b)|by apply IH].
Qed.

Lemma StronglySorted_snoc {A} (Q : A -> A -> Prop) (l : list A) (x : A) :
  StronglySorted Q (l ++ [x]) -> Forall (fun y => Q y x) l.
Proof.
  induction l as [|a l IH]; cbn; intros Hs; [constructor|].
  apply StronglySorted_inv in Hs as [Hs Ha]. constructor; [|by apply IH].
  apply (proj1 (Forall_forall _ _) Ha). apply elem_of_app. right. apply list_elem_of_here.
Qed.

Lemma saved_rows_lt (ts : list Task) (next_id clk : Z) :
  Forall (fun r => row_task_id r < next_id + Z.of_nat (length ts))
         (saved_rows next_id clk ts).
Proof.
  apply Forall_forall. intros r Hr.
  assert (row_task_id r ∈ map row_task_id (saved_rows next_id clk ts)) as Hin
    by (by apply list_elem_of_fmap_2).
  rewrite saved_rows_ids in Hin. apply list_elem_of_fmap in Hin as (i & -> & Hi).
  apply elem_of_seq in Hi. lia.
Qed.

Lemma process_new_task_queue_no_fault (fuel : nat) (this : TaskManager.t)
    (cells : list (loc * loc)) (ts : list Task) (w : World) :
  Queue_repr (TaskManager.new_task_queue this) cells ->
  owns (Queue.nodes (TaskManager.new_task_queue this)) cells ->
  NoDup cells.*2 ->
  Forall2 (fun p t => objs w !! p = Some t) cells.*2 ts ->
  faults (con w) = [] -> autocommit (con w) = true ->
  Tasks (con w) = session (con w) ->
  (length cells <= fuel)%nat ->
  exists w',
    TaskManager.process_new_task_queue fuel (w, this)
    = (Ret tt, (w', TaskManager.set_new_task_queue Queue.new this)) /\
    Tasks (con w')
    = session (con w) ++ saved_rows (AUTO_INCREMENT (con w)) (clock_ms w) ts /\
    session (con w') = Tasks (con w') /\
    faults (con w') = [] /\
    (forall p, objs w' !! p = if decide (p ∈ cells.*2) then None else objs w !! p) /\
    clock_ms w' = clock_ms w + 500 * Z.of_nat (length cells).
Proof.
  intros Hq Ho Hnd Hobjs Hf Hac HT Hfuel. destruct w as [c o cons clk].
  set (W := mkWorld c o
              ((stdout, nl +:+ "=========================" +:+ " "
                        +:+ "Processing New Task Queue" +:+ " "
                        +:+ "=========================") :: cons) clk).
  destruct (process_new_task_queue_loop_no_fault fuel this cells ts W
              Hq Ho Hnd Hobjs Hf Hac HT Hfuel)
    as (w' & Hloop & HT' & Hs' & _ & Hf' & _ & Hobjs' & Hclk').
  destruct w' as [c' o' cons' clk']. cbn [con objs clock_ms] in *.
  eexists. split.
  { subst W. exec_mgr. rewrite Hloop. reflexivity. }
  cbn [con objs clock_ms]. done.
Qed.


(** [main] up to the end of the execution, no call into the connector
    failing: where it ends, with the tasks [ts] in the order in which
    they were executed. *)
Lemma executed_all_run (rows : list Row) (next_id : Z)
    (subs : list (string * string * Z * Z)) (fuel : nat) :
  Forall (fun r => row_status r <> "pending" /\ row_task_id r < next_id) rows ->
  (length subs <= fuel)%nat ->
  Z.of_nat (length subs) <= INT_MAX ->
  exists w' ts,
    executed_all subs fuel (start (connected rows next_id []) ∅, TaskManager.new)
    = (Ret tt,
       (w', TaskManager.mk Queue.new PriorityQueue.new
              (foldl (fun s a => Stack.push a s) Stack.new
                 (zip_with (fun t st => undo_update_status (task_id t) st) ts
                    (map (fun _ => "pending") ts))))) /\
    Tasks (con w')
    = rows ++ map (with_row_status "completed")
                  (saved_rows next_id 0 (map submitted_task subs)) /\
    session (con w') = Tasks (con w') /\
    faults (con w') = [] /\
    objs w' = ∅ /\
    clock_ms w' = 1200 * Z.of_nat (length subs) /\
    Permutation (map task_of_row (saved_rows next_id 0 (map submitted_task subs))) ts /\
    StronglySorted (fun a b => priority a <= priority b) ts.
Proof.
  intros Hrows Hfuel Hb.
  assert (Forall (fun r => row_status r <> "pending") rows) as Hnp
    by (eapply Forall_impl; [exact Hrows|]; by intros x [? ?]).
  assert (Forall (fun r => row_task_id r < next_id) rows) as Hold
    by (eapply Forall_impl; [exact Hrows|]; by intros x [? ?]).
  set (ts := map submitted_task subs).
  set (saved := saved_rows next_id 0 ts).
  assert (Forall (fun r => row_status r = "pending") saved) as Hpend.
  { apply Forall_forall. intros r Hr.
    assert (row_status r ∈ map row_status saved) as Hin by (by apply list_elem_of_fmap_2).
    subst saved ts. rewrite saved_rows_status, map_map in Hin.
    by apply list_elem_of_fmap in Hin as (sub & -> & _). }
  assert (length saved = length subs) as Hlen_saved.
  { subst saved ts. rewrite <- (length_map row_task_id), saved_rows_ids.
    by rewrite length_map, length_seq, length_map. }
  (* the submissions *)
  destruct (submit_all_spec subs (start (connected rows next_id []) ∅) TaskManager.new
              [] [] Queue_repr_new owns_new)
    as (w1 & q1 & cells & Hsub & Hcon1 & Hclk1 & Hq1 & Ho1 & Hnd1 & Hobjs1 & Hdom1).
  { cbn. lia. }
  { constructor. }
  { constructor. }
  { cbn. by rewrite dom_empty_L. }
  cbn [app] in Hobjs1. fold ts in Hobjs1.
  assert (length cells = length subs) as Hlen.
  { apply Forall2_length in Hobjs1. subst ts. by rewrite length_fmap, length_map in Hobjs1. }
  (* the queue is persisted *)
  destruct (process_new_task_queue_no_fault fuel
              (TaskManager.set_new_task_queue q1 TaskManager.new) cells ts w1
              Hq1 Ho1 Hnd1 Hobjs1)
    as (w2 & Hproc & HT2 & Hs2 & Hf2 & Hobjs2 & Hclk2);
    [by rewrite Hcon1 | by rewrite Hcon1 | by rewrite Hcon1 | lia |].
  rewrite Hcon1, Hclk1 in HT2. cbn [start connected con session AUTO_INCREMENT clock_ms] in HT2.
  fold saved in HT2.
  assert (objs w2 = ∅) as Hempty2.
  { apply map_eq. intros p. rewrite Hobjs2, lookup_empty.
    destruct (decide (p ∈ cells.*2)) as [|Hnin]; [done|].
    apply not_elem_of_dom. rewrite Hdom1. by rewrite elem_of_list_to_set. }
  (* the pending tasks are loaded *)
  destruct (load_tasks_into_scheduler_run w2
              (TaskManager.set_new_task_queue Queue.new
                 (TaskManager.set_new_task_queue q1 TaskManager.new)))
    as (k & cons3 & fs3 & Hload & _ & Hk).
  destruct (Hk Hf2) as [-> ->]. rewrite firstn_all in Hload.
  rewrite Hs2, HT2, Hempty2 in Hload.
  set (rows3 := pending_rows (rows ++ saved)) in *.
  assert (Permutation rows3 saved) as Hperm3.
  { subst rows3. unfold pending_rows. rewrite order_by_perm.
    by rewrite filter_pending_app. }
  destruct (new_Tasks_spec rows3 ∅) as (Hnd3 & _ & Hobjs3 & Hold3).
  destruct (new_Tasks rows3 ∅) as [ps o3] eqn:Hnew. cbn [fst snd] in *.
  assert (length ps = length rows3) as Hlen3 by (by apply Forall2_length in Hobjs3).
  assert (length rows3 = length subs) as Hlen_rows3
    by (by rewrite (Permutation_length Hperm3)).
  cbn [TaskManager.task_scheduler TaskManager.set_new_task_queue TaskManager.new
       PriorityQueue.entries PriorityQueue.new app] in Hload.
  (* the scheduler runs *)
  set (entries := zip_with (fun p r => (row_priority r, p)) ps rows3) in *.
  destruct (extract_all_spec fuel entries) as (items & Hall & Hperm & Hsorted & _).
  { subst entries. rewrite length_zip_with. lia. }
  destruct (Forall2_Permutation_l _ _ _ (Permutation_sym Hperm) _
              (entries_live o3 ps rows3 Hobjs3)) as (ts4 & Hperm4 & Hobjs4).
  assert (Permutation (map task_id ts4) (map row_task_id saved)) as Hids4.
  { rewrite <- Hperm4, <- Hperm3, map_map. done. }
  assert (length ts4 = length subs) as Hlen4.
  { rewrite <- (length_map task_id), Hids4, length_map. done. }
  lazymatch type of Hload with
  | _ = (_, (?W3, ?this3)) =>
    destruct (run_task_scheduler_no_fault W3 this3 items ts4
                (map (fun _ => "pending") ts4) fuel)
      as (w4 & Hrun & HT4 & Hs4 & Hf4 & Hobjs4' & Hclk4)
  end.
  { exact Hall. }
  { rewrite Hperm. subst entries. rewrite zip_with_snd by done. exact Hnd3. }
  { eapply Forall2_impl; [exact Hobjs4|]. by intros e t [? _]. }
  { rewrite Hids4. apply saved_rows_NoDup. }
  { cbn [con session with_faults]. rewrite Hs2, HT2.
    apply Forall2_fmap_r, Forall_Forall2_diag, Forall_forall. intros t Ht.
    assert (t ∈ map task_of_row saved) as Hin by (by rewrite <- Hperm3, Hperm4).
    apply list_elem_of_fmap in Hin as (r & -> & Hr).
    apply (status_of_app_new rows saved r next_id); try done.
    apply saved_rows_ge. }
  { reflexivity. }
  { cbn [con session Tasks with_faults]. by rewrite Hs2. }
  cbn [con objs clock_ms Tasks session with_faults] in HT4, Hobjs4', Hclk4.
  exists w4, ts4. split.
  { unfold executed_all.
    rewrite (bind_Ret _ _ _ _ _ Hsub), (bind_Ret _ _ _ _ _ Hproc),
            (bind_Ret _ _ _ _ _ Hload).
    exact Hrun. }
  split; [|split; [exact Hs4|split; [exact Hf4|split; [|split; [|split]]]]].
  - rewrite HT4, HT2, foldl_updated, map_app. f_equal.
    + rewrite <- (map_id rows) at 2. apply map_ext_Forall.
      eapply Forall_impl; [exact Hold|]. intros r Hr. cbn in Hr.
      rewrite bool_decide_eq_false_2; [done|]. rewrite Hids4. intros Hin.
      apply list_elem_of_fmap in Hin as (r' & Heq & Hr').
      pose proof (proj1 (Forall_forall _ _) (saved_rows_ge ts next_id 0) r' Hr') as Hge.
      cbn in Hge. lia.
    + apply map_ext_Forall, Forall_forall. intros r Hr.
      rewrite bool_decide_eq_true_2; [done|]. rewrite Hids4.
      by apply list_elem_of_fmap_2.
  - apply map_eq. intros p. rewrite Hobjs4', lookup_empty.
    destruct (decide (p ∈ items.*2)) as [|Hnin]; [done|].
    rewrite Hold3; [apply lookup_empty|].
    rewrite Hperm in Hnin. subst entries. by rewrite zip_with_snd in Hnin.
  - rewrite Hclk4, Hclk2, Hclk1, Hlen4, Hlen. cbn [start clock_ms].
    rewrite Hlen3, Hlen_rows3. lia.
  - by rewrite <- Hperm3.
  - eapply (StronglySorted_Forall2 _ _ _ items ts4); [|exact Hobjs4|exact Hsorted].
    intros a b x y [_ Ha] [_ Hb'] Hab. cbn in Hab. lia.
Qed.

(** X25.  [main] up to the end of the execution, for any tasks
    submitted, over a table without pending rows whose identifiers are
    below the AUTO_INCREMENT counter, no call into the connector
    failing: the table ends with its old rows followed by one row per
    submitted task, in the order of submission, all [completed]; every
    [Task] object is freed; the queue and the scheduler are empty; the
    undo stack holds one action per task; and 1200 ms have passed per
    task. *)
Theorem main_completes_all (rows : list Row) (next_id : Z)
    (subs : list (string * string * Z * Z)) (fuel : nat) :
  Forall (fun r => row_status r <> "pending" /\ row_task_id r < next_id) rows ->
  (length subs <= fuel)%nat ->
  Z.of_nat (length subs) <= INT_MAX ->
  exists w' this',
    executed_all subs fuel (start (connected rows next_id []) ∅, TaskManager.new)
    = (Ret tt, (w', this')) /\
    Tasks (con w')
    = rows ++ map (with_row_status "completed")
                  (saved_rows next_id 0 (map submitted_task subs)) /\
    objs w' = ∅ /\
    Queue.isEmpty (TaskManager.new_task_queue this') = true /\
    PriorityQueue.isEmpty (TaskManager.task_scheduler this') = true /\
    Stack.size (TaskManager.undo_stack this') = Z.of_nat (length subs) /\
    clock_ms w' = 1200 * Z.of_nat (length subs).
Proof.
  intros Hrows Hfuel Hb.
  destruct (executed_all_run rows next_id subs fuel Hrows Hfuel Hb)
    as (w' & ts & Hrun & HT & _ & _ & Ho & Hclk & Hperm & _).
  assert (length ts = length subs) as Hlen.
  { rewrite <- (Permutation_length Hperm), length_map.
    rewrite <- (length_map row_task_id), saved_rows_ids.
    by rewrite length_map, length_seq, length_map. }
  eexists w', _. split; [exact Hrun|]. split; [exact HT|]. split; [exact Ho|].
  split; [reflexivity|]. split; [reflexivity|]. split; [|exact Hclk].
  cbn [TaskManager.undo_stack].
  rewrite (Stack_size_pushes _ Stack.new 0); [| reflexivity |].
  - rewrite length_zip_with, length_map, Nat.min_id. f_equal. lia.
  - rewrite length_zip_with, length_map, Nat.min_id. lia.
Qed.

Lemma main_completes_all_witness :
  exists w' this',
    executed_all main_submissions 5
      (start (connected [deploy_row 1 "completed"] 2 []) ∅, TaskManager.new)
    = (Ret tt, (w', this')) /\
    Tasks (con w')
    = [deploy_row 1 "completed"]
      ++ map (with_row_status "completed")
             (saved_rows 2 0 (map submitted_task main_submissions)) /\
    objs w' = ∅ /\
    Queue.isEmpty (TaskManager.new_task_queue this') = true /\
    PriorityQueue.isEmpty (TaskManager.task_scheduler this') = true /\
    Stack.size (TaskManager.undo_stack this') = Z.of_nat (length main_submissions) /\
    clock_ms w' = 1200 * Z.of_nat (length main_submissions).
Proof.
  apply (main_completes_all [deploy_row 1 "completed"] 2 main_submissions 5).
  - constructor; [|constructor]. split; [discriminate | simpl; lia].
  - simpl. lia.
  - unfold INT_MAX. simpl. lia.
Defined.

(** X26.  The whole of [main], with the undo at the end, for at least
    one submitted task whose identifiers fit an [int]: the one undo
    sets the row of the task executed last, a row of the largest
    priority number, back to [pending] exactly as [createTask] inserted
    it; every other new row stays [completed], and one action less is
    left on the undo stack. *)
Theorem main_undoes_last_task (rows : list Row) (next_id : Z)
    (subs : list (string * string * Z * Z)) (fuel : nat) :
  Forall (fun r => row_status r <> "pending" /\ row_task_id r < next_id) rows ->
  subs <> [] ->
  (length subs <= fuel)%nat ->
  0 <= next_id ->
  next_id + Z.of_nat (length subs) <= INT_MAX ->
  exists w' this' last,
    pipeline_all subs fuel (start (connected rows next_id []) ∅, TaskManager.new)
    = (Ret tt, (w', this')) /\
    last ∈ saved_rows next_id 0 (map submitted_task subs) /\
    Forall (fun r => row_priority r <= row_priority last)
           (saved_rows next_id 0 (map submitted_task subs)) /\
    Tasks (con w')
    = rows ++ map (fun r => if row_task_id r =? row_task_id last then r
                            else with_row_status "completed" r)
                  (saved_rows next_id 0 (map submitted_task subs)) /\
    Stack.size (TaskManager.undo_stack this') = Z.of_nat (length subs) - 1.
Proof.
  intros Hrows Hne Hfuel Hmin Hmax.
  assert (Z.of_nat (length subs) <= INT_MAX) as Hb by lia.
  assert (Forall (fun r => row_task_id r < next_id) rows) as Hold
    by (eapply Forall_impl; [exact Hrows|]; by intros x [? ?]).
  destruct (executed_all_run rows next_id subs fuel Hrows Hfuel Hb)
    as (w4 & ts & Hrun & HT & Hs & Hf & Ho & Hclk & Hperm & Hsorted).
  set (saved := saved_rows next_id 0 (map submitted_task subs)) in *.
  assert (length saved = length subs) as Hlen_saved.
  { subst saved. rewrite <- (length_map row_task_id), saved_rows_ids.
    by rewrite length_map, length_seq, length_map. }
  assert (length ts = length subs) as Hlen
    by (by rewrite <- (Permutation_length Hperm), length_map).
  assert (Forall (fun r => row_status r = "pending") saved) as Hpend.
  { apply Forall_forall. intros r Hr.
    assert (row_status r ∈ map row_status saved) as Hin by (by apply list_elem_of_fmap_2).
    subst saved. rewrite saved_rows_status, map_map in Hin.
    by apply list_elem_of_fmap in Hin as (sub & -> & _). }
  (* the task executed last *)
  destruct ts as [|tl ts' _] using rev_ind; [by destruct subs|].
  rename ts' into ts.
  assert (tl ∈ map task_of_row saved) as Htl.
  { rewrite Hperm. apply elem_of_app. right. apply list_elem_of_here. }
  apply list_elem_of_fmap in Htl as (last & -> & Hlast).
  pose proof (proj1 (Forall_forall _ _) (saved_rows_ge _ next_id 0) last Hlast) as Hge.
  pose proof (proj1 (Forall_forall _ _) (saved_rows_lt _ next_id 0) last Hlast) as Hlt.
  cbn in Hge, Hlt. rewrite length_map in Hlt.
  (* the action on top of the undo stack *)
  rewrite map_app, zip_with_app, foldl_app in Hrun by (by rewrite length_map).
  cbn [map zip_with foldl] in Hrun.
  set (S0 := foldl (fun s a => Stack.push a s) Stack.new
               (zip_with (fun t st => undo_update_status (task_id t) st) ts
                  (map (fun _ => "pending") ts))) in *.
  assert (Stack.size S0 = Z.of_nat (length subs) - 1) as Hsize.
  { subst S0. rewrite (Stack_size_pushes _ Stack.new 0); [| reflexivity |].
    - rewrite length_zip_with, length_map, Nat.min_id.
      rewrite length_app in Hlen. cbn in Hlen. lia.
    - rewrite length_zip_with, length_map, Nat.min_id.
      rewrite length_app in Hlen. cbn in Hlen. lia. }
  assert (INT_MIN <= Stack._size S0 <= INT_MAX) as Hrange.
  { unfold Stack.size in Hsize. rewrite Hsize. unfold INT_MIN. 
    assert (0 < length subs)%nat by (destruct subs; [done | cbn; lia]). lia. }
  lazymatch type of Hrun with
  | _ = (_, (_, ?this4)) =>
    destruct (undo_last_action_update_status w4 this4 S0
                (task_id (task_of_row last)) "pending" "completed")
      as (w5 & Hundo & HT5 & _ & _)
  end.
  { cbn [TaskManager.undo_stack]. by apply Stack_pop_push_id. }
  { cbn. unfold INT_MIN in *. lia. }
  { exact Hf. }
  { rewrite Hs, HT. 
    change (task_id (task_of_row last))
      with (row_task_id (with_row_status "completed" last)).
    apply (status_of_app_new rows _ _ next_id).
    - exact Hold.
    - apply Forall_fmap. eapply Forall_impl; [apply saved_rows_ge|]. by intros r Hr.
    - apply Forall_fmap, Forall_forall. by intros r Hr.
    - by apply list_elem_of_fmap_2. }
  eexists w5, _, last. split.
  { unfold pipeline_all. rewrite (bind_Ret _ _ _ _ _ Hrun). exact Hundo. }
  split; [exact Hlast|]. split; [|split; [|exact Hsize]].
  - apply Forall_forall. intros r Hr.
    assert (task_of_row r ∈ ts ++ [task_of_row last]) as Hin
      by (rewrite <- Hperm; by apply list_elem_of_fmap_2).
    apply elem_of_app in Hin as [Hin|Hin].
    + apply StronglySorted_snoc in Hsorted.
      exact (proj1 (Forall_forall _ _) Hsorted _ Hin).
    + apply list_elem_of_singleton in Hin. 
      change (priority (task_of_row r) <= priority (task_of_row last)).
      rewrite Hin. lia.
  - rewrite HT5, Hs, HT. unfold updated. rewrite map_app, map_map. f_equal.
    + rewrite <- (map_id rows) at 2. apply map_ext_Forall.
      eapply Forall_impl; [exact Hold|]. intros r Hr. cbn in Hr.
      destruct (Z.eqb_spec (row_task_id r) (task_id (task_of_row last))) as [Heq|]; [|done].
      cbn in Heq. lia.
    + apply map_ext_Forall. eapply Forall_impl; [exact Hpend|]. intros r Hr.
      cbn [row_task_id with_row_status task_id task_of_row Task_new] in *.
      destruct (row_task_id r =? row_task_id last); [|done].
      destruct r; cbn in *; by subst.
Qed.

Lemma main_undoes_last_task_witness :
  exists w' this' last,
    pipeline_all main_submissions 5
      (start (connected [deploy_row 1 "completed"] 2 []) ∅, TaskManager.new)
    = (Ret tt, (w', this')) /\
    last ∈ saved_rows 2 0 (map submitted_task main_submissions) /\
    Forall (fun r => row_priority r <= row_priority last)
           (saved_rows 2 0 (map submitted_task main_submissions)) /\
    Tasks (con w')
    = [deploy_row 1 "completed"]
      ++ map (fun r => if row_task_id r =? row_task_id last then r
                       else with_row_status "completed" r)
             (saved_rows 2 0 (map submitted_task main_submissions)) /\
    Stack.size (TaskManager.undo_stack this') = Z.of_nat (length main_submissions) - 1.
Proof.
  apply (main_undoes_last_task [deploy_row 1 "completed"] 2 main_submissions 5).
  - constructor; [|constructor]. split; [discriminate | simpl; lia].
  - discriminate.
  - simpl. lia.
  - lia.
  - unfold INT_MAX. simpl. lia.
Defined.
